(** * The streaming chat client: a shallow embedding and its properties

    The development follows the browser chat client of the repository:
    - [ChatApiService.sendMessage] (services/chatApi): the streaming
      request, its read loop over the response body and its three
      callbacks;
    - [handleSendMessage], [clearChatHistory] and the mount effect of
      the [ChatInterface] component;
    - [storage.getChatHistory], [storage.saveChatHistory] and
      [storage.clearChatHistory] (lib/utils).

    JavaScript strings are sequences of UTF-16 code units, byte chunks
    are sequences of octets, the component state is threaded
    explicitly, and thrown values travel in a small state-and-exception
    monad. *)

From Stdlib Require Import ZArith List Bool Ascii String Lia.
From Stdlib Require Import DecimalString.
From stdpp Require Import gmap strings list fin_maps.
Import ListNotations.

Local Open Scope Z_scope.

(** ** JavaScript strings *)

Module JS.

(** A string value: its UTF-16 code units. *)
Definition jsstring := list Z.

(** A Rocq literal as a JavaScript string (literals of the source are
    ASCII). *)
Definition lit (s : string) : jsstring :=
  map (fun a => Z.of_N (N_of_ascii a)) (list_ascii_of_string s).

(** [`${n}`] for an integer [n]: its decimal digits, behind a minus sign
    when it is negative. *)
Definition Number_toString (n : Z) : jsstring :=
  if n <? 0 then lit "-" ++ lit (NilZero.string_of_uint (N.to_uint (Z.to_N (- n))))
  else lit (NilZero.string_of_uint (N.to_uint (Z.to_N n))).

(** WhiteSpace and LineTerminator code points, the ones
    [String.prototype.trim] strips. *)
Definition isWhiteSpace (c : Z) : bool :=
  (c =? 0x09) || (c =? 0x0A) || (c =? 0x0B) || (c =? 0x0C) || (c =? 0x0D)
  || (c =? 0x20) || (c =? 0xA0) || (c =? 0x1680)
  || ((0x2000 <=? c) && (c <=? 0x200A))
  || (c =? 0x2028) || (c =? 0x2029) || (c =? 0x202F) || (c =? 0x205F)
  || (c =? 0x3000) || (c =? 0xFEFF).

Fixpoint trimStart (s : jsstring) : jsstring :=
  match s with
  | c :: s' => if isWhiteSpace c then trimStart s' else s
  | [] => []
  end.

Definition trimEnd (s : jsstring) : jsstring := rev (trimStart (rev s)).

Definition trim (s : jsstring) : jsstring := trimEnd (trimStart s).

(** Truthiness of a string: every string but the empty one. *)
Definition truthy (s : jsstring) : bool :=
  match s with [] => false | _ :: _ => true end.

End JS.
Export JS.

(** ** The platform's UTF-8 [TextDecoder]

    [new TextDecoder()] is the UTF-8 decoder of the Encoding Standard in
    replacement mode, with BOM removal.  The source only ever calls
    [decoder.decode(value, { stream: true })], so the decoder keeps its
    state from one call to the next and is never flushed. *)

Module TextDecoder.

Record t := mk {
  code_point : Z;
  bytes_seen : Z;
  bytes_needed : Z;
  lower_boundary : Z;
  upper_boundary : Z;
  BOM_seen : bool
}.

(** [new TextDecoder()] *)
Definition new : t := mk 0 0 0 0x80 0xBF false.

Definition REPLACEMENT : Z := 0xFFFD.

Definition in_range (lo hi b : Z) : bool := (lo <=? b) && (b <=? hi).

(** The handler at a byte when no sequence is open ([bytes needed] is 0):
    the state after it and the scalar values it emits. *)
Definition lead (d : t) (byte : Z) : t * list Z :=
  if in_range 0x00 0x7F byte then (d, [byte])
  else if in_range 0xC2 0xDF byte then
    (mk (Z.land byte 0x1F) 0 1 0x80 0xBF (BOM_seen d), [])
  else if in_range 0xE0 0xEF byte then
    (mk (Z.land byte 0xF) 0 2
        (if byte =? 0xE0 then 0xA0 else 0x80)
        (if byte =? 0xED then 0x9F else 0xBF) (BOM_seen d), [])
  else if in_range 0xF0 0xF4 byte then
    (mk (Z.land byte 0x7) 0 3
        (if byte =? 0xF0 then 0x90 else 0x80)
        (if byte =? 0xF4 then 0x8F else 0xBF) (BOM_seen d), [])
  else (d, [REPLACEMENT]).

Definition reset (d : t) : t := mk 0 0 0 0x80 0xBF (BOM_seen d).

(** The UTF-8 decoder's handler at one byte.  A byte outside the
    expected range closes the open sequence with an error (U+FFFD in
    replacement mode) and is then read again as a first byte. *)
Definition handler (d : t) (byte : Z) : t * list Z :=
  if bytes_needed d =? 0 then lead d byte
  else if negb (in_range (lower_boundary d) (upper_boundary d) byte) then
    let '(d', out) := lead (reset d) byte in (d', REPLACEMENT :: out)
  else
    let cp := Z.lor (Z.shiftl (code_point d) 6) (Z.land byte 0x3F) in
    if bytes_seen d + 1 =? bytes_needed d then (reset d, [cp])
    else (mk cp (bytes_seen d + 1) (bytes_needed d) 0x80 0xBF (BOM_seen d), []).

(** Running the handler over the bytes of one chunk. *)
Fixpoint run (d : t) (bytes : list Z) : t * list Z :=
  match bytes with
  | [] => (d, [])
  | b :: bs =>
      let '(d1, out1) := handler d b in
      let '(d2, out2) := run d1 bs in
      (d2, out1 ++ out2)
  end.

(** A scalar value as UTF-16 code units. *)
Definition utf16 (cp : Z) : jsstring :=
  if cp <? 0x10000 then [cp]
  else [0xD800 + Z.shiftr (cp - 0x10000) 10; 0xDC00 + Z.land (cp - 0x10000) 0x3FF].

Definition with_BOM_seen (b : bool) (d : t) : t :=
  mk (code_point d) (bytes_seen d) (bytes_needed d)
     (lower_boundary d) (upper_boundary d) b.

(** Serializing the decoded scalar values: the first one ever seen sets
    [BOM seen], and is dropped when it is U+FEFF. *)
Definition serialize (d : t) (scalars : list Z) : t * jsstring :=
  match scalars with
  | [] => (d, [])
  | item :: rest =>
      if BOM_seen d then (d, concat (map utf16 scalars))
      else if item =? 0xFEFF then (with_BOM_seen true d, concat (map utf16 rest))
      else (with_BOM_seen true d, concat (map utf16 scalars))
  end.

(** [decoder.decode(value, { stream: true })] *)
Definition decode (d : t) (value : list Z) : t * jsstring :=
  let '(d1, scalars) := run d value in serialize d1 scalars.

(** The bytes of an unfinished sequence that the decoder holds back. *)
Definition pending (d : t) : bool := negb (bytes_needed d =? 0).

(** The end-of-queue step of the decoder, which only a call without
    [stream] performs: an unfinished sequence becomes one U+FFFD. *)
Definition flush (d : t) : t * jsstring :=
  if pending d then serialize (reset d) [REPLACEMENT] else (d, []).

(** [new TextDecoder().decode(bytes)]: the text decoding of a whole byte
    sequence. *)
Definition decode_all (bytes : list Z) : jsstring :=
  let '(d1, s1) := decode new bytes in
  let '(_, s2) := flush d1 in
  s1 ++ s2.

End TextDecoder.

(** ** Completions: the state-and-exception monad of the embedding *)

(** What a [throw] carries: an [Error] object with its message, or any
    other value. *)
Inductive thrown :=
| ErrorObject (message : jsstring)
| NonError.

Inductive completion (A : Type) :=
| Normal (a : A)
| Throw (e : thrown).
Arguments Normal {A} a.
Arguments Throw {A} e.

(** A computation over a state [St]: it ends normally or abruptly, and
    leaves a state either way. *)
Definition js (St A : Type) : Type := St -> completion A * St.

Definition ret {St A} (a : A) : js St A := fun s => (Normal a, s).

Definition throw {St A} (e : thrown) : js St A := fun s => (Throw e, s).

Definition bind {St A B} (m : js St A) (k : A -> js St B) : js St B :=
  fun s =>
    match m s with
    | (Normal a, s') => k a s'
    | (Throw e, s') => (Throw e, s')
    end.

(** [try { m } catch (error) { handler error }] *)
Definition try_catch {St A} (m : js St A) (handler : thrown -> js St A) : js St A :=
  fun s =>
    match m s with
    | (Normal a, s') => (Normal a, s')
    | (Throw e, s') => handler e s'
    end.

(** A statement that only updates the state and cannot throw. *)
Definition perform {St} (f : St -> St) : js St unit := fun s => (Normal tt, f s).

Declare Scope js_scope.
Delimit Scope js_scope with js.
Notation "x <- m ;; k" := (bind m (fun x => k))
  (at level 90, m at level 80, right associativity) : js_scope.
Notation "m ;;; k" := (bind m (fun _ => k))
  (at level 90, right associativity) : js_scope.

(** [error instanceof Error ? error.message : fallback] *)
Definition message_or (fallback : jsstring) (error : thrown) : jsstring :=
  match error with
  | ErrorObject message => message
  | NonError => fallback
  end.

(** ** The transport: [fetch], the response and its body reader *)

Record ChatRequest := {
  developer_message : jsstring;
  user_message : jsstring;
  model : option jsstring;
  api_key : jsstring;
  pdf_id : option jsstring
}.

(** How the body stream ends: it closes ([read] reports [done]) or it
    errors (the pending [read] rejects). *)
Inductive StreamEnd :=
| Closed
| Errored (e : thrown).

(** The results of the successive [reader.read()] calls: the byte
    chunks in the order the transport delivers them, then the end.
    Every read settles; a send whose read stalls is a send that stays
    open, as in the transition system further down. *)
Record Reader := {
  values : list (list Z);
  ending : StreamEnd
}.

(** A response: its status and the reader of its body, [None] when
    [response.body] is null. *)
Record Response := {
  status : Z;
  body : option Reader
}.

(** [response.ok]: the status is in the range 200 to 299. *)
Definition ok (response : Response) : bool :=
  (200 <=? status response) && (status response <=? 299).

(** ** [ChatApiService.sendMessage] *)

Section ChatApiService.
Context {St : Type}.
Variable fetch : ChatRequest -> js St Response.
Variable onChunk : jsstring -> js St unit.
Variable onComplete : js St unit.
Variable onError : jsstring -> js St unit.

Local Open Scope js_scope.

(** The [while (true)] loop over [reader.read()]. *)
Fixpoint read_loop (values : list (list Z)) (ending : StreamEnd)
    (decoder : TextDecoder.t) (buffer : jsstring) : js St unit :=
  match values with
  | [] =>
      match ending with
      | Closed =>
          (* done: process any remaining content in the buffer *)
          (if truthy (trim buffer) then onChunk buffer else ret tt) ;;;
          onComplete
      | Errored e => throw e
      end
  | value :: values' =>
      let '(decoder', chunk) := TextDecoder.decode decoder value in
      let buffer' := buffer ++ chunk in
      onChunk chunk ;;;
      read_loop values' ending decoder' buffer'
  end.

Definition sendMessage (request : ChatRequest) : js St unit :=
  try_catch
    (response <- fetch request ;;
     if negb (ok response) then
       throw (ErrorObject (lit "HTTP error! status: " ++ Number_toString (status response)))
     else
       match body response with
       | None => throw (ErrorObject (lit "No response body reader available"))
       | Some reader =>
           read_loop (values reader) (ending reader) TextDecoder.new []
       end)
    (fun error => onError (message_or (lit "An unknown error occurred") error)).

End ChatApiService.

(** ** The chat data model (types/chat) *)

Inductive Role := user | assistant | questions.

(** A [Date] object: a time value in milliseconds since the epoch, or
    the invalid date (time value NaN). *)
Inductive Date :=
| Instant (time : Z)
| InvalidDate.

Module Message.

(** The optional quiz fields of the interface are never set by the chat
    flow and are left out. *)
Record t := mk {
  id : jsstring;
  content : jsstring;
  role : Role;
  timestamp : Date
}.

(** [{ ...msg, content: c }] *)
Definition with_content (c : jsstring) (msg : t) : t :=
  mk (id msg) c (role msg) (timestamp msg).

End Message.

Record ChatState := {
  messages : list Message.t;
  isLoading : bool;
  isTyping : bool
}.

(** ** The browser's [localStorage] *)

Module Storage.

(** The stored items, and which contents the user agent is able to hold
    (its quota). *)
Record t := mk {
  items : gmap string jsstring;
  admits : gmap string jsstring -> bool
}.

Definition getItem (key : string) (st : t) : option jsstring :=
  items st !! key.

(** [setItem]; [None] is the [QuotaExceededError] it throws when the new
    value cannot be set. *)
Definition setItem (key : string) (value : jsstring) (st : t) : option t :=
  let items' := <[key := value]> (items st) in
  if admits st items' then Some (mk items' (admits st)) else None.

Definition removeItem (key : string) (st : t) : t :=
  mk (delete key (items st)) (admits st).

End Storage.

(** ** The page: the state of the [ChatInterface] component and what it
    did to its surroundings *)

Record World := {
  (* useState *)
  chatState : ChatState;
  inputMessage : jsstring;
  apiKey : jsstring;
  developerMessage : jsstring;
  showSettings : bool;
  selectedPDFId : option jsstring;
  (* [None] where [typeof window === 'undefined'] *)
  localStorage : option Storage.t;
  (* what the page did: dialogs shown, requests sent, console lines *)
  alerts : list jsstring;
  requests : list ChatRequest;
  console : list jsstring
}.

(** React applies the queued state updaters in the order they were
    queued; here each is applied as soon as it is queued. *)
Definition setChatState (updater : ChatState -> ChatState) (w : World) : World :=
  {| chatState := updater (chatState w);
     inputMessage := inputMessage w; apiKey := apiKey w;
     developerMessage := developerMessage w; showSettings := showSettings w;
     selectedPDFId := selectedPDFId w; localStorage := localStorage w;
     alerts := alerts w; requests := requests w; console := console w |}.

Definition setInputMessage (value : jsstring) (w : World) : World :=
  {| chatState := chatState w;
     inputMessage := value; apiKey := apiKey w;
     developerMessage := developerMessage w; showSettings := showSettings w;
     selectedPDFId := selectedPDFId w; localStorage := localStorage w;
     alerts := alerts w; requests := requests w; console := console w |}.

Definition setApiKey (value : jsstring) (w : World) : World :=
  {| chatState := chatState w;
     inputMessage := inputMessage w; apiKey := value;
     developerMessage := developerMessage w; showSettings := showSettings w;
     selectedPDFId := selectedPDFId w; localStorage := localStorage w;
     alerts := alerts w; requests := requests w; console := console w |}.

Definition setShowSettings (value : bool) (w : World) : World :=
  {| chatState := chatState w;
     inputMessage := inputMessage w; apiKey := apiKey w;
     developerMessage := developerMessage w; showSettings := value;
     selectedPDFId := selectedPDFId w; localStorage := localStorage w;
     alerts := alerts w; requests := requests w; console := console w |}.

Definition setLocalStorage (st : option Storage.t) (w : World) : World :=
  {| chatState := chatState w;
     inputMessage := inputMessage w; apiKey := apiKey w;
     developerMessage := developerMessage w; showSettings := showSettings w;
     selectedPDFId := selectedPDFId w; localStorage := st;
     alerts := alerts w; requests := requests w; console := console w |}.

Definition alert (text : jsstring) (w : World) : World :=
  {| chatState := chatState w;
     inputMessage := inputMessage w; apiKey := apiKey w;
     developerMessage := developerMessage w; showSettings := showSettings w;
     selectedPDFId := selectedPDFId w; localStorage := localStorage w;
     alerts := alerts w ++ [text]; requests := requests w; console := console w |}.

Definition console_error (text : jsstring) (w : World) : World :=
  {| chatState := chatState w;
     inputMessage := inputMessage w; apiKey := apiKey w;
     developerMessage := developerMessage w; showSettings := showSettings w;
     selectedPDFId := selectedPDFId w; localStorage := localStorage w;
     alerts := alerts w; requests := requests w; console := console w ++ [text] |}.

(** The page sends a request to the network. *)
Definition note_request (request : ChatRequest) (w : World) : World :=
  {| chatState := chatState w;
     inputMessage := inputMessage w; apiKey := apiKey w;
     developerMessage := developerMessage w; showSettings := showSettings w;
     selectedPDFId := selectedPDFId w; localStorage := localStorage w;
     alerts := alerts w; requests := requests w ++ [request]; console := console w |}.

(** The component as [useState] first gives it. *)
Definition initial (window : option Storage.t) : World :=
  {| chatState := {| messages := []; isLoading := false; isTyping := false |};
     inputMessage := []; apiKey := [];
     developerMessage :=
       lit "You are a helpful AI assistant. Please provide clear, concise, and accurate responses.";
     showSettings := false; selectedPDFId := None; localStorage := window;
     alerts := []; requests := []; console := [] |}.

(** ** [generateMessageId] (lib/utils) *)

(** What one message creation draws from its surroundings: the reading
    of [Date.now()], the digits [Math.random().toString(36).substr(2, 9)]
    and the reading of the clock by [new Date()]. *)
Record Draw := {
  now : Z;
  random : jsstring;
  clock : Z
}.

Definition generateMessageId (d : Draw) : jsstring :=
  lit "msg_" ++ Number_toString (now d) ++ lit "_" ++ random d.

(** ** [handleSendMessage] (components/ChatInterface) *)

(** What one call of the handler meets outside the component: the two
    draws for its two messages, and what the network answers to the
    request ([fetch] resolves with a response or rejects). *)
Record Environment := {
  user_draw : Draw;
  assistant_draw : Draw;
  network : ChatRequest -> completion Response
}.

(** The activation of the handler while [sendMessage] runs: the page,
    and the local variable [assistantContent] its callbacks share. *)
Record Frame := {
  world : World;
  assistantContent : jsstring
}.

(** [fetch] as the handler's activation sees it. *)
Definition fetch (env : Environment) (request : ChatRequest) : js Frame Response :=
  fun f =>
    (network env request,
     {| world := note_request request (world f);
        assistantContent := assistantContent f |}).

(** [prev.messages.map(msg => msg.id === id ? { ...msg, content } : msg)] *)
Definition replace_content (assistantMessageId : jsstring) (text : jsstring)
    (msgs : list Message.t) : list Message.t :=
  map (fun msg =>
         if bool_decide (Message.id msg = assistantMessageId)
         then Message.with_content text msg
         else msg) msgs.

(** The updater [onChunk] queues; it reads the variable
    [assistantContent] when it is applied. *)
Definition chunk_updater (assistantMessageId : jsstring) (assistantContent : jsstring)
    (prev : ChatState) : ChatState :=
  {| messages := replace_content assistantMessageId assistantContent (messages prev);
     isLoading := isLoading prev;
     isTyping := isTyping prev |}.

Definition onChunk (assistantMessageId : jsstring) (chunk : jsstring) (f : Frame) : Frame :=
  let assistantContent' := assistantContent f ++ chunk in
  {| world := setChatState (chunk_updater assistantMessageId assistantContent') (world f);
     assistantContent := assistantContent' |}.

Definition onComplete (f : Frame) : Frame :=
  {| world :=
       setChatState (fun prev =>
         {| messages := messages prev;
            isLoading := false;
            isTyping := false |}) (world f);
     assistantContent := assistantContent f |}.

Definition onError (assistantMessageId : jsstring) (error : jsstring) (f : Frame) : Frame :=
  {| world :=
       setChatState (fun prev =>
         {| messages :=
              replace_content assistantMessageId (lit "Error: " ++ error) (messages prev);
            isLoading := false;
            isTyping := false |}) (world f);
     assistantContent := assistantContent f |}.

(** The precondition of a send: [!inputMessage.trim() || !apiKey.trim()]
    is false. *)
Definition can_send (w : World) : bool :=
  truthy (trim (inputMessage w)) && truthy (trim (apiKey w)).

Definition userMessage_of (env : Environment) (w : World) : Message.t :=
  {| Message.id := generateMessageId (user_draw env);
     Message.content := trim (inputMessage w);
     Message.role := user;
     Message.timestamp := Instant (clock (user_draw env)) |}.

Definition assistantMessage_of (env : Environment) : Message.t :=
  {| Message.id := generateMessageId (assistant_draw env);
     Message.content := [];
     Message.role := assistant;
     Message.timestamp := Instant (clock (assistant_draw env)) |}.

(** [selectedPDFId || undefined] *)
Definition or_undefined (v : option jsstring) : option jsstring :=
  match v with
  | Some s => if truthy s then Some s else None
  | None => None
  end.

Definition request_of (env : Environment) (w : World) : ChatRequest :=
  {| developer_message := developerMessage w;
     user_message := Message.content (userMessage_of env w);
     api_key := apiKey w;
     model := Some (lit "gpt-4o-mini");
     pdf_id := or_undefined (selectedPDFId w) |}.

(** The handler up to the [try]: the user message is appended with both
    flags raised, the input is cleared, the assistant placeholder is
    appended. *)
Definition initiate (env : Environment) (w : World) : Frame :=
  let userMessage := userMessage_of env w in
  let w1 :=
    setChatState (fun prev =>
      {| messages := messages prev ++ [userMessage];
         isLoading := true;
         isTyping := true |}) w in
  let w2 := setInputMessage [] w1 in
  let assistantMessage := assistantMessage_of env in
  let w3 :=
    setChatState (fun prev =>
      {| messages := messages prev ++ [assistantMessage];
         isLoading := isLoading prev;
         isTyping := isTyping prev |}) w2 in
  {| world := w3; assistantContent := [] |}.

(** The frame in which the first callback runs: the request has been
    sent. *)
Definition requested (env : Environment) (w : World) : Frame :=
  {| world := note_request (request_of env w) (world (initiate env w));
     assistantContent := [] |}.

Definition handleSendMessage (env : Environment) (w : World) : World :=
  if negb (truthy (trim (inputMessage w))) || negb (truthy (trim (apiKey w))) then
    if negb (truthy (trim (apiKey w))) then
      setShowSettings true
        (alert (lit "Please enter your OpenAI API key in settings") w)
    else w
  else
    let assistantMessageId := generateMessageId (assistant_draw env) in
    let attempt :=
      try_catch
        (sendMessage (fetch env)
           (fun chunk => perform (onChunk assistantMessageId chunk))
           (perform onComplete)
           (fun error => perform (onError assistantMessageId error))
           (request_of env w))
        (fun error =>
           perform (onError assistantMessageId (message_or (lit "Unknown error") error))) in
    world (snd (attempt (initiate env w))).

(** ** The callbacks [sendMessage] invokes *)

(** One invocation of a callback: [onChunk(text)], [onComplete()] or
    [onError(error)]. *)
Inductive call :=
| Chunk (text : jsstring)
| Complete
| Failed (error : jsstring).

Definition record (c : call) : js (list call) unit :=
  perform (fun log => log ++ [c]).

Definition log_chunk (chunk : jsstring) : js (list call) unit := record (Chunk chunk).
Definition log_error (error : jsstring) : js (list call) unit := record (Failed error).

(** The invocations of one [sendMessage] in their order, observed by
    passing it callbacks that only write themselves down. *)
Definition calls (network : ChatRequest -> completion Response)
    (request : ChatRequest) : list call :=
  snd (sendMessage (fun r log => (network r, log))
         log_chunk (record Complete) log_error request []).

(** What the loop invokes once the reader reports [done], or nothing
    when the stream errors instead. *)
Definition closing_calls (ending : StreamEnd) (buffer : jsstring) : list call :=
  match ending with
  | Closed => (if truthy (trim buffer) then [Chunk buffer] else []) ++ [Complete]
  | Errored _ => []
  end.

(** Invoking the callback a [call] names, for any three callbacks over
    any state; what remains is the state it leaves. *)
Definition invoke {St} (onChunk : jsstring -> js St unit) (onComplete : js St unit)
    (onError : jsstring -> js St unit) (s : St) (c : call) : St :=
  match c with
  | Chunk text => snd (onChunk text s)
  | Complete => snd (onComplete s)
  | Failed error => snd (onError error s)
  end.

(** The same for the three callbacks of [handleSendMessage]. *)
Definition deliver (assistantMessageId : jsstring) (f : Frame) (c : call) : Frame :=
  match c with
  | Chunk text => onChunk assistantMessageId text f
  | Complete => onComplete f
  | Failed error => onError assistantMessageId error f
  end.

Definition terminal (c : call) : bool :=
  match c with
  | Chunk _ => false
  | Complete | Failed _ => true
  end.

(** The answer of the network lets the read loop run until the reader
    reports that no data is left. *)
Definition read_to_exhaustion (answer : completion Response) : bool :=
  match answer with
  | Normal response =>
      ok response &&
      match body response with
      | Some reader =>
          match ending reader with
          | Closed => true
          | Errored _ => false
          end
      | None => false
      end
  | Throw _ => false
  end.

(** The texts the streaming decoder returns for the successive chunks. *)
Fixpoint decode_each (decoder : TextDecoder.t) (values : list (list Z))
    : TextDecoder.t * list jsstring :=
  match values with
  | [] => (decoder, [])
  | value :: values' =>
      let '(decoder', chunk) := TextDecoder.decode decoder value in
      let '(decoder'', chunks) := decode_each decoder' values' in
      (decoder'', chunk :: chunks)
  end.

(** The in-flight assistant message of a send: the last message of the
    sequence. *)
Definition in_flight (w : World) : option Message.t :=
  last (messages (chatState w)).

(** ** Persistence: the platform's JSON and date strings *)

Module Stored.

(** A message as the JSON text holds it: [toJSON] has replaced the
    [Date] by its ISO string, or by null for the invalid date. *)
Record t := mk {
  id : jsstring;
  content : jsstring;
  role : Role;
  timestamp : option jsstring
}.

End Stored.

(** The services of the platform the persistence code calls.  Their
    algorithms are the platform's own; the component relies on their
    contracts only. *)
Class Platform := {
  (** the JSON text [JSON.stringify] writes for an array of messages
      whose dates [toJSON] has already replaced *)
  JSON_serialize : list Stored.t -> jsstring;
  (** [JSON.parse]; [None] is the [SyntaxError] it throws *)
  JSON_parse : jsstring -> option (list Stored.t);
  (** [Date.prototype.toISOString] at a time value *)
  Date_toISOString : Z -> jsstring;
  (** the date [new Date(text)] builds *)
  Date_parse : jsstring -> Date
}.

(** The time values a [Date] can hold: 100,000,000 days around the
    epoch. *)
Definition valid_time (t : Z) : Prop :=
  -8640000000000000 <= t <= 8640000000000000.

(** The contracts: parsing the text written for a value gives the value
    back, that text is never the empty string, and parsing the ISO
    string of a time value gives that time value back. *)
Class PlatformLaws `{Platform} : Prop := {
  JSON_parse_serialize : forall v, JSON_parse (JSON_serialize v) = Some v;
  JSON_serialize_truthy : forall v, truthy (JSON_serialize v) = true;
  Date_parse_toISOString :
    forall t, valid_time t -> Date_parse (Date_toISOString t) = Instant t
}.

Section Persistence.
Context `{Platform}.

(** [Date.prototype.toJSON] *)
Definition Date_toJSON (d : Date) : option jsstring :=
  match d with
  | Instant t => Some (Date_toISOString t)
  | InvalidDate => None
  end.

(** [new Date(value)] at a value read from JSON: a string is parsed,
    null is the epoch. *)
Definition new_Date (value : option jsstring) : Date :=
  match value with
  | Some text => Date_parse text
  | None => Instant 0
  end.

Definition Message_toJSON (msg : Message.t) : Stored.t :=
  {| Stored.id := Message.id msg;
     Stored.content := Message.content msg;
     Stored.role := Message.role msg;
     Stored.timestamp := Date_toJSON (Message.timestamp msg) |}.

(** [JSON.stringify(messages)] *)
Definition JSON_stringify (messages : list Message.t) : jsstring :=
  JSON_serialize (map Message_toJSON messages).

(** [storage.getChatHistory] (lib/utils) *)
Definition getChatHistory (w : World) : list Stored.t :=
  match localStorage w with
  | None => []
  | Some st =>
      match Storage.getItem "chat-history" st with
      | Some stored =>
          if truthy stored then
            match JSON_parse stored with
            | Some parsed => parsed
            | None => []
            end
          else []
      | None => []
      end
  end.

(** [storage.saveChatHistory] (lib/utils) *)
Definition saveChatHistory (messages : list Message.t) (w : World) : World :=
  match localStorage w with
  | None => w
  | Some st =>
      match Storage.setItem "chat-history" (JSON_stringify messages) st with
      | Some st' => setLocalStorage (Some st') w
      | None => console_error (lit "Failed to save chat history:") w
      end
  end.

(** [{ ...msg, timestamp: new Date(msg.timestamp) }] *)
Definition revive (msg : Stored.t) : Message.t :=
  {| Message.id := Stored.id msg;
     Message.content := Stored.content msg;
     Message.role := Stored.role msg;
     Message.timestamp := new_Date (Stored.timestamp msg) |}.

(** The mount effect of the component: the saved messages and the
    saved API key are loaded.  Effects only run in the browser. *)
Definition mountEffect (w : World) : World :=
  match localStorage w with
  | None => w
  | Some st =>
      let savedMessages := getChatHistory w in
      let w1 :=
        if (0 <? length savedMessages)%nat then
          setChatState (fun prev =>
            {| messages := map revive savedMessages;
               isLoading := isLoading prev;
               isTyping := isTyping prev |}) w
        else w in
      match Storage.getItem "openai-api-key" st with
      | Some savedApiKey =>
          if truthy savedApiKey then setApiKey savedApiKey w1 else w1
      | None => w1
      end
  end.

(** The effect on [chatState.messages]: a non-empty sequence is
    saved. *)
Definition saveEffect (w : World) : World :=
  if (0 <? length (messages (chatState w)))%nat
  then saveChatHistory (messages (chatState w)) w
  else w.

End Persistence.

(** [storage.clearChatHistory] (lib/utils) *)
Definition storage_clearChatHistory (w : World) : World :=
  match localStorage w with
  | None => w
  | Some st => setLocalStorage (Some (Storage.removeItem "chat-history" st)) w
  end.

(** [clearChatHistory] (components/ChatInterface) *)
Definition clearChatHistory (w : World) : World :=
  storage_clearChatHistory
    (setChatState (fun prev =>
       {| messages := [];
          isLoading := isLoading prev;
          isTyping := isTyping prev |}) w).

(** A session start over what the store holds: a fresh component, then
    its mount effect. *)
Definition reload `{Platform} (window : option Storage.t) : World :=
  mountEffect (initial window).

(** ** The session as a transition system

    The handler is asynchronous: between two callbacks of an open send
    the page renders, its effects run and the user may act.  A session
    is the page together with the activations of [handleSendMessage]
    that still wait for the network. *)

(** An activation: the identifier of its placeholder, its local
    variable [assistantContent], and the callbacks [sendMessage] has yet
    to invoke. *)
Record Activation := {
  assistantMessageId : jsstring;
  local_assistantContent : jsstring;
  awaiting : list call
}.

Record Session := {
  page : World;
  activations : list Activation
}.

(** One callback of an activation runs against the page. *)
Definition resume (a : Activation) (c : call) (w : World) : Frame :=
  deliver (assistantMessageId a)
    {| world := w; assistantContent := local_assistantContent a |} c.

(** The activation after that callback; it is over once nothing is
    awaited. *)
Definition continue (a : Activation) (f : Frame) (rest : list call) : list Activation :=
  match rest with
  | [] => []
  | _ :: _ =>
      [{| assistantMessageId := assistantMessageId a;
          local_assistantContent := assistantContent f;
          awaiting := rest |}]
  end.

Section Transitions.
Context `{Platform}.

Inductive step : Session -> Session -> Prop :=
(* typing in the textarea, which is disabled while loading *)
| step_input s value :
    isLoading (chatState (page s)) = false ->
    step s {| page := setInputMessage value (page s);
              activations := activations s |}
(* typing in the API key field of the settings panel *)
| step_apiKey s value :
    step s {| page := setApiKey value (page s);
              activations := activations s |}
(* a send that fails its precondition; the controls that call the
   handler are disabled while loading *)
| step_refused s env :
    isLoading (chatState (page s)) = false ->
    can_send (page s) = false ->
    step s {| page := handleSendMessage env (page s);
              activations := activations s |}
(* a send that passes it: both messages are appended, the request is
   sent, and the activation waits for the network *)
| step_send s env :
    isLoading (chatState (page s)) = false ->
    can_send (page s) = true ->
    step s {| page :=
                saveEffect
                  (note_request (request_of env (page s))
                     (world (initiate env (page s))));
              activations :=
                {| assistantMessageId := generateMessageId (assistant_draw env);
                   local_assistantContent := [];
                   awaiting := calls (network env) (request_of env (page s)) |}
                :: activations s |}
(* the next callback of an open send *)
| step_callback s before a c rest after :
    activations s = before ++ a :: after ->
    awaiting a = c :: rest ->
    step s {| page := saveEffect (world (resume a c (page s)));
              activations :=
                before ++ continue a (resume a c (page s)) rest ++ after |}
(* the clear button *)
| step_clear s :
    step s {| page := saveEffect (clearChatHistory (page s));
              activations := activations s |}.

(** The states a session goes through from its start. *)
Inductive reachable : Session -> Prop :=
| reachable_start window :
    reachable {| page := saveEffect (reload window); activations := [] |}
| reachable_step s s' :
    reachable s -> step s s' -> reachable s'.

End Transitions.

(** An open send still awaits chunk callbacks and then one terminal
    callback. *)
Definition awaits_terminal (a : Activation) : Prop :=
  exists chunks last_call,
    awaiting a = map Chunk chunks ++ [last_call] /\ terminal last_call = true.

(** The assistant identifier drawn for a send is not the identifier of
    a message already in the sequence, nor that of the user message
    sent with it. *)
Definition fresh_assistant_id (env : Environment) (w : World) : Prop :=
  ~ In (generateMessageId (assistant_draw env))
       (map Message.id (messages (chatState w) ++ [userMessage_of env w])).

(** ** Sample surroundings *)

Module Sample.

(** A page with a message typed and a key entered. *)
Definition page : World :=
  setApiKey (lit "sk-test") (setInputMessage (lit " Hello ") (initial None)).

(** The same page without an API key. *)
Definition page_without_key : World :=
  setInputMessage (lit " Hello ") (initial None).

Definition draws (network : ChatRequest -> completion Response) : Environment :=
  {| user_draw :=
       {| now := 1700000000000; random := lit "k3j9x0q1z"; clock := 1700000000000 |};
     assistant_draw :=
       {| now := 1700000000001; random := lit "p7m2c8v5b"; clock := 1700000000001 |};
     network := network |}.

(** The network answers 200 and streams the given chunks to the end. *)
Definition streams (chunks : list (list Z)) : Environment :=
  draws (fun _ =>
    Normal {| status := 200;
              body := Some {| values := chunks; ending := Closed |} |}).

(** The network answers with the given status; a body follows all the
    same. *)
Definition answers (code : Z) : Environment :=
  draws (fun _ =>
    Normal {| status := code;
              body := Some {| values := [[0x6F; 0x6F; 0x70; 0x73]]; ending := Closed |} |}).

(** "Hi" in one chunk. *)
Definition hi : Environment := streams [[0x48; 0x69]].

(** "Hi" and the first byte of a two-byte character, which never gets
    its second byte. *)
Definition hi_cut : Environment := streams [[0x48; 0x69; 0xC3]].

End Sample.

(** ** A reference platform

    One implementation of the platform's services, in the formats the
    standards fix: ISO 8601 date-time strings as [toISOString] writes
    them, and the JSON text [JSON.stringify] writes for an array of
    messages, read back by a reader of exactly these formats. *)

Module Reference.

(** *** Decimal fields of fixed width *)

(** The [width] low decimal digits of [n], most significant first. *)
Fixpoint digits (width : nat) (n : Z) : jsstring :=
  match width with
  | O => []
  | S k => (0x30 + (n / 10 ^ Z.of_nat k) mod 10) :: digits k n
  end.

Definition is_digit (c : Z) : bool := (0x30 <=? c) && (c <=? 0x39).

(** Reading [width] decimal digits off the front of a text. *)
Fixpoint read_digits (width : nat) (acc : Z) (s : jsstring) : option (Z * jsstring) :=
  match width with
  | O => Some (acc, s)
  | S k =>
      match s with
      | c :: s' =>
          if is_digit c then read_digits k (10 * acc + (c - 0x30)) s' else None
      | [] => None
      end
  end.

(** Reading one given character. *)
Definition expect (c : Z) (s : jsstring) : option jsstring :=
  match s with
  | c' :: s' => if c' =? c then Some s' else None
  | [] => None
  end.

(** *** Days and civil dates *)

Definition msPerDay : Z := 86400000.

(** Years are counted from March within eras of 400 years (146097
    days), so that the leap day ends its year.  A day of the era splits
    into its year of the era and its day of that year. *)
Definition split_era (doe : Z) : Z * Z :=
  let century := Z.min (doe / 36524) 3 in
  let doc := doe - century * 36524 in
  let cycle := Z.min (doc / 1461) 24 in
  let doq := doc - cycle * 1461 in
  let yoq := Z.min (doq / 365) 3 in
  (century * 100 + cycle * 4 + yoq, doq - yoq * 365).

(** The days before the month number [mp] of a year that starts in
    March ([mp] is 0 for March). *)
Definition days_before_month (mp : Z) : Z := (153 * mp + 2) / 5.

(** The civil date of a day number (days since 1970-01-01), in the
    proleptic Gregorian calendar. *)
Definition civil_from_days (day : Z) : Z * Z * Z :=
  let z := day + 719468 in
  let '(yoe, doy) := split_era (z mod 146097) in
  let y := (z / 146097) * 400 + yoe in
  let mp := (5 * doy + 2) / 153 in
  let d := doy - days_before_month mp + 1 in
  let m := if mp <? 10 then mp + 3 else mp - 9 in
  (if m <=? 2 then y + 1 else y, m, d).

(** The day number of a civil date. *)
Definition days_from_civil (year month date : Z) : Z :=
  let y := if month <=? 2 then year - 1 else year in
  let era := y / 400 in
  let yoe := y mod 400 in
  let mp := if 2 <? month then month - 3 else month + 9 in
  let doy := days_before_month mp + date - 1 in
  let doe := yoe * 365 + yoe / 4 - yoe / 100 + doy in
  era * 146097 + doe - 719468.

(** *** ISO 8601 date-time strings *)

(** The year: four digits from 0 to 9999, else a sign and six digits. *)
Definition year_digits (y : Z) : jsstring :=
  if (0 <=? y) && (y <=? 9999) then digits 4 y
  else if y <? 0 then lit "-" ++ digits 6 (- y)
  else lit "+" ++ digits 6 y.

(** [YYYY-MM-DDTHH:mm:ss.sssZ] *)
Definition toISOString (t : Z) : jsstring :=
  let '(y, m, d) := civil_from_days (t / msPerDay) in
  let ms := t mod msPerDay in
  year_digits y ++ lit "-" ++ digits 2 m ++ lit "-" ++ digits 2 d
  ++ lit "T" ++ digits 2 (ms / 3600000)
  ++ lit ":" ++ digits 2 ((ms / 60000) mod 60)
  ++ lit ":" ++ digits 2 ((ms / 1000) mod 60)
  ++ lit "." ++ digits 3 (ms mod 1000) ++ lit "Z".

Definition read_year (s : jsstring) : option (Z * jsstring) :=
  match s with
  | c :: s' =>
      if c =? 0x2B then read_digits 6 0 s'
      else if c =? 0x2D then
        match read_digits 6 0 s' with
        | Some (y, rest) => if y =? 0 then None else Some (- y, rest)
        | None => None
        end
      else read_digits 4 0 s
  | [] => None
  end.

(** The fields of a date-time string in that format. *)
Definition read_fields (s : jsstring)
    : option (Z * Z * Z * Z * Z * Z * Z) :=
  '(y, s) ← read_year s;
  s ← expect 0x2D s;
  '(m, s) ← read_digits 2 0 s;
  s ← expect 0x2D s;
  '(d, s) ← read_digits 2 0 s;
  s ← expect 0x54 s;
  '(hh, s) ← read_digits 2 0 s;
  s ← expect 0x3A s;
  '(mm, s) ← read_digits 2 0 s;
  s ← expect 0x3A s;
  '(ss, s) ← read_digits 2 0 s;
  s ← expect 0x2E s;
  '(sss, s) ← read_digits 3 0 s;
  s ← expect 0x5A s;
  match s with
  | [] => Some (y, m, d, hh, mm, ss, sss)
  | _ :: _ => None
  end.

(** The date a date-time string denotes; a text that is not in the
    format, or whose fields are out of range, gives the invalid date. *)
Definition parse (s : jsstring) : Date :=
  match read_fields s with
  | Some (y, m, d, hh, mm, ss, sss) =>
      if (1 <=? m) && (m <=? 12) && (1 <=? d) && (d <=? 31)
         && (hh <=? 23) && (mm <=? 59) && (ss <=? 59)
      then
        let t := days_from_civil y m d * msPerDay
                 + hh * 3600000 + mm * 60000 + ss * 1000 + sss in
        if (-8640000000000000 <=? t) && (t <=? 8640000000000000)
        then Instant t
        else InvalidDate
      else InvalidDate
  | None => InvalidDate
  end.

(** *** JSON text for an array of messages *)

Definition hex_digit (n : Z) : Z :=
  if n <? 10 then 0x30 + n else 0x61 + (n - 10).

Definition hex_value (c : Z) : option Z :=
  if (0x30 <=? c) && (c <=? 0x39) then Some (c - 0x30)
  else if (0x61 <=? c) && (c <=? 0x66) then Some (c - 0x61 + 10)
  else if (0x41 <=? c) && (c <=? 0x46) then Some (c - 0x41 + 10)
  else None.

(** A backslash, [u] and four hexadecimal digits. *)
Definition unicode_escape (c : Z) : jsstring :=
  [0x5C; 0x75; hex_digit ((c / 4096) mod 16); hex_digit ((c / 256) mod 16);
   hex_digit ((c / 16) mod 16); hex_digit (c mod 16)].

Definition is_high_surrogate (c : Z) : bool := (0xD800 <=? c) && (c <=? 0xDBFF).
Definition is_low_surrogate (c : Z) : bool := (0xDC00 <=? c) && (c <=? 0xDFFF).
Definition is_control (c : Z) : bool := (0 <=? c) && (c <? 0x20).

(** One code unit inside a JSON string: the short escapes, the
    hexadecimal escape for the other control characters and for a
    surrogate that stands alone, the unit itself otherwise. *)
Definition escape_unit (c : Z) : jsstring :=
  if c =? 0x08 then [0x5C; 0x62]
  else if c =? 0x09 then [0x5C; 0x74]
  else if c =? 0x0A then [0x5C; 0x6E]
  else if c =? 0x0C then [0x5C; 0x66]
  else if c =? 0x0D then [0x5C; 0x72]
  else if c =? 0x22 then [0x5C; 0x22]
  else if c =? 0x5C then [0x5C; 0x5C]
  else if is_control c || is_high_surrogate c || is_low_surrogate c
  then unicode_escape c
  else [c].

(** The characters of a string between its quotes; a high surrogate
    followed by a low one is a pair and stays as it is. *)
Fixpoint quote_units (s : jsstring) : jsstring :=
  match s with
  | [] => []
  | c :: s1 =>
      if is_high_surrogate c then
        match s1 with
        | c2 :: s2 =>
            if is_low_surrogate c2 then c :: c2 :: quote_units s2
            else unicode_escape c ++ quote_units s1
        | [] => unicode_escape c
        end
      else escape_unit c ++ quote_units s1
  end.

(** [QuoteJSONString] *)
Definition quote (s : jsstring) : jsstring := [0x22] ++ quote_units s ++ [0x22].

Definition unescape (c : Z) : option Z :=
  if c =? 0x62 then Some 0x08
  else if c =? 0x74 then Some 0x09
  else if c =? 0x6E then Some 0x0A
  else if c =? 0x66 then Some 0x0C
  else if c =? 0x72 then Some 0x0D
  else if c =? 0x22 then Some 0x22
  else if c =? 0x5C then Some 0x5C
  else if c =? 0x2F then Some 0x2F
  else None.

(** Reading the characters of a string up to its closing quote. *)
Fixpoint read_units (s : jsstring) : option (jsstring * jsstring) :=
  match s with
  | [] => None
  | c :: s1 =>
      if c =? 0x22 then Some ([], s1)
      else if c =? 0x5C then
        match s1 with
        | e :: s2 =>
            if e =? 0x75 then
              match s2 with
              | h1 :: h2 :: h3 :: h4 :: s6 =>
                  v1 ← hex_value h1; v2 ← hex_value h2;
                  v3 ← hex_value h3; v4 ← hex_value h4;
                  '(units, rest) ← read_units s6;
                  Some ((v1 * 4096 + v2 * 256 + v3 * 16 + v4) :: units, rest)
              | _ => None
              end
            else
              v ← unescape e;
              '(units, rest) ← read_units s2;
              Some (v :: units, rest)
        | [] => None
        end
      else if is_control c then None
      else
        '(units, rest) ← read_units s1;
        Some (c :: units, rest)
  end.

(** What [read_units] does with the text read behind one unit. *)
Definition behind (c : Z) (r : option (jsstring * jsstring))
    : option (jsstring * jsstring) :=
  '(units, rest) ← r; Some (c :: units, rest).

Definition read_string (s : jsstring) : option (jsstring * jsstring) :=
  s ← expect 0x22 s; read_units s.

(** Reading a given text off the front. *)
Fixpoint expect_all (text : jsstring) (s : jsstring) : option jsstring :=
  match text with
  | [] => Some s
  | c :: text' => s ← expect c s; expect_all text' s
  end.

Definition role_name (r : Role) : jsstring :=
  match r with
  | user => lit "user"
  | assistant => lit "assistant"
  | questions => lit "questions"
  end.

Definition role_of_name (name : jsstring) : option Role :=
  if bool_decide (name = lit "user") then Some user
  else if bool_decide (name = lit "assistant") then Some assistant
  else if bool_decide (name = lit "questions") then Some questions
  else None.

(** A property name between quotes, with its colon. *)
Definition key (name : string) : jsstring := quote (lit name) ++ lit ":".

(** The object of one message, its properties in the order the
    component creates them. *)
Definition write_message (msg : Stored.t) : jsstring :=
  lit "{" ++ key "id" ++ quote (Stored.id msg)
  ++ lit "," ++ key "content" ++ quote (Stored.content msg)
  ++ lit "," ++ key "role" ++ quote (role_name (Stored.role msg))
  ++ lit "," ++ key "timestamp"
  ++ match Stored.timestamp msg with
     | Some text => quote text
     | None => lit "null"
     end
  ++ lit "}".

Definition read_timestamp (s : jsstring) : option (option jsstring * jsstring) :=
  match s with
  | c :: _ =>
      if c =? 0x22 then '(text, rest) ← read_string s; Some (Some text, rest)
      else rest ← expect_all (lit "null") s; Some (None, rest)
  | [] => None
  end.

Definition read_message (s : jsstring) : option (Stored.t * jsstring) :=
  s ← expect_all (lit "{" ++ key "id") s;
  '(id, s) ← read_string s;
  s ← expect_all (lit "," ++ key "content") s;
  '(content, s) ← read_string s;
  s ← expect_all (lit "," ++ key "role") s;
  '(name, s) ← read_string s;
  role ← role_of_name name;
  s ← expect_all (lit "," ++ key "timestamp") s;
  '(timestamp, s) ← read_timestamp s;
  s ← expect 0x7D s;
  Some (Stored.mk id content role timestamp, s).

(** The elements after the first, each behind its comma, and the
    closing bracket. *)
Fixpoint write_more (msgs : list Stored.t) : jsstring :=
  match msgs with
  | [] => lit "]"
  | msg :: msgs' => lit "," ++ write_message msg ++ write_more msgs'
  end.

Definition stringify (msgs : list Stored.t) : jsstring :=
  match msgs with
  | [] => lit "[]"
  | msg :: msgs' => lit "[" ++ write_message msg ++ write_more msgs'
  end.

(** Reading them back; every element uses up one unit of fuel. *)
Fixpoint read_more (fuel : nat) (s : jsstring) : option (list Stored.t) :=
  match fuel with
  | O => None
  | S fuel' =>
      match s with
      | c :: s' =>
          if c =? 0x5D then
            match s' with [] => Some [] | _ :: _ => None end
          else if c =? 0x2C then
            '(msg, rest) ← read_message s';
            msgs ← read_more fuel' rest;
            Some (msg :: msgs)
          else None
      | [] => None
      end
  end.

(** [JSON.parse] on such a text; the length of the text is fuel
    enough. *)
Definition parse_array (s : jsstring) : option (list Stored.t) :=
  match s with
  | c :: s' =>
      if c =? 0x5B then
        match s' with
        | c' :: s'' =>
            if (c' =? 0x5D) && bool_decide (s'' = []) then Some []
            else
              '(msg, rest) ← read_message s';
              msgs ← read_more (length s) rest;
              Some (msg :: msgs)
        | [] => None
        end
      else None
  | [] => None
  end.

#[global] Instance platform : Platform := {|
  JSON_serialize := stringify;
  JSON_parse := parse_array;
  Date_toISOString := toISOString;
  Date_parse := parse
|}.

End Reference.

(** ** More samples, over the reference platform *)

Module SampleStore.

(** A store that holds nothing yet and takes every write. *)
Definition empty : Storage.t :=
  {| Storage.items := ∅; Storage.admits := fun _ => true |}.

Definition question : Message.t :=
  {| Message.id := lit "msg_1700000000000_k3j9x0q1z";
     Message.content := lit "Hello";
     Message.role := user;
     Message.timestamp := Instant 1700000000000 |}.

Definition answer : Message.t :=
  {| Message.id := lit "msg_1700000000001_p7m2c8v5b";
     Message.content := [0x48; 0x69; 0x20; 0xD83D; 0xDE00];
     Message.role := assistant;
     Message.timestamp := Instant 1700000000001 |}.

Definition history : list Message.t := [question; answer].

(** The store once the history is saved in it. *)
Definition saved : Storage.t :=
  {| Storage.items := {[ "chat-history" := JSON_stringify history ]};
     Storage.admits := fun _ => true |}.

(** A session started without a store. *)
Definition started : Session :=
  {| page := saveEffect (reload None); activations := [] |}.

(** A message is typed, then a key. *)
Definition typed : Session :=
  {| page := setInputMessage (lit " Hello ") (page started);
     activations := activations started |}.

Definition keyed : Session :=
  {| page := setApiKey (lit "sk-test") (page typed);
     activations := activations typed |}.

(** The message is sent. *)
Definition sending : Session :=
  {| page :=
       saveEffect
         (note_request (request_of Sample.hi (page keyed))
            (world (initiate Sample.hi (page keyed))));
     activations :=
       {| assistantMessageId := generateMessageId (assistant_draw Sample.hi);
          local_assistantContent := [];
          awaiting := calls (network Sample.hi) (request_of Sample.hi (page keyed)) |}
       :: activations keyed |}.

End SampleStore.

(** * Further parts of the client *)

From Stdlib Require Import DecimalN DecimalPos.

(** ** What a handler leaves alone *)

(** Everything of the page but the chat state. *)
Definition surroundings (w : World) :=
  (inputMessage w, apiKey w, developerMessage w, showSettings w,
   selectedPDFId w, localStorage w, alerts w, requests w, console w).

(** The text under the history key of the store, if there is a store
    and it holds one. *)
Definition stored_history (w : World) : option jsstring :=
  match localStorage w with
  | Some st => Storage.getItem "chat-history" st
  | None => None
  end.

(** ** [saveApiKey] (components/ChatInterface) *)

(** The key typed in the settings panel is written to the store and the
    panel is closed.  The write is not guarded: [None] is the exception
    that reaches the caller, before anything is updated. *)
Definition saveApiKey (w : World) : option World :=
  match localStorage w with
  | None => None
  | Some st =>
      match Storage.setItem "openai-api-key" (apiKey w) st with
      | Some st' => Some (setShowSettings false (setLocalStorage (Some st') w))
      | None => None
      end
  end.

(** The text under the key of the API key, if there is a store and it
    holds one. *)
Definition stored_key (w : World) : option jsstring :=
  match localStorage w with
  | Some st => Storage.getItem "openai-api-key" st
  | None => None
  end.

(** ** Further sample surroundings *)

Module Cases.

(** The network is unreachable: [fetch] rejects. *)
Definition offline : Environment :=
  Sample.draws (fun _ => Throw (ErrorObject (lit "Failed to fetch"))).

(** The network answers 204, without a body. *)
Definition no_body : Environment :=
  Sample.draws (fun _ => Normal {| status := 204; body := None |}).

(** "Hi" arrives, then the connection breaks. *)
Definition broken : Environment :=
  Sample.draws (fun _ =>
    Normal {| status := 200;
              body := Some {| values := [[0x48; 0x69]];
                              ending := Errored (ErrorObject (lit "network error")) |} |}).

(** The euro sign (E2 82 AC) in one chunk, and cut after its second
    byte. *)
Definition euro_whole : Environment := Sample.streams [[0xE2; 0x82; 0xAC]].
Definition euro_split : Environment := Sample.streams [[0xE2; 0x82]; [0xAC]].

(** A page over an empty store, with a key typed. *)
Definition page_with_store : World :=
  setLocalStorage (Some SampleStore.empty) Sample.page.

(** An activation that still waits for its callbacks. *)
Definition waiting : Activation :=
  {| assistantMessageId := generateMessageId (assistant_draw Sample.hi);
     local_assistantContent := [];
     awaiting := [Chunk (lit "Hi"); Complete] |}.

(** A send is open on that page and its history has been cleared. *)
Definition cleared : Session :=
  {| page := clearChatHistory (world (requested Sample.hi page_with_store));
     activations := [waiting] |}.

(** The session after the next callback. *)
Definition cleared_next `{Platform} : Session :=
  {| page := saveEffect (world (resume waiting (Chunk (lit "Hi")) (page cleared)));
     activations :=
       [] ++ continue waiting (resume waiting (Chunk (lit "Hi")) (page cleared))
               [Complete] ++ [] |}.


End Cases.

(** ** The uploaded PDFs (types/chat, components/ChatInterface) *)

(** An entry of the list; [chunks_count] is a whole number. *)
Module PDFListItem.
Record t := {
  pdf_id : jsstring;
  chunks_count : Z
}.
End PDFListItem.

(** What the upload endpoint answers. *)
Module UploadedPDF.
Record t := {
  pdf_id : jsstring;
  filename : jsstring;
  chunks_count : Z;
  message : jsstring
}.
End UploadedPDF.

(** ** Generated questions (components/QuestionDisplay, TopicSelector,
    services/chatApi) *)

Module MultipleChoiceQuestion.
Record t := {
  question : jsstring;
  choices : list jsstring;
  correct_answer : Z;
  explanation : jsstring
}.
End MultipleChoiceQuestion.

Module GeneratedQuestion.
Record t := {
  topic : jsstring;
  questions : list MultipleChoiceQuestion.t;
  difficulty : jsstring;
  question_types : list jsstring;
  has_context : bool;
  context_chunks_used : Z
}.
End GeneratedQuestion.

Module QuestionConfig.
Record t := {
  topic : jsstring;
  questionCount : Z;
  difficulty : jsstring;
  questionTypes : list jsstring;
  pdfId : option jsstring
}.
End QuestionConfig.

Module QuestionGenerationRequest.
Record t := {
  topic : jsstring;
  pdf_id : option jsstring;
  question_count : option Z;
  difficulty : option jsstring;
  question_types : option (list jsstring);
  api_key : jsstring;
  model : option jsstring
}.
End QuestionGenerationRequest.

(** ** The rest of the [ChatInterface] state *)

Definition setSelectedPDFId (value : option jsstring) (w : World) : World :=
  {| chatState := chatState w;
     inputMessage := inputMessage w; apiKey := apiKey w;
     developerMessage := developerMessage w; showSettings := showSettings w;
     selectedPDFId := value; localStorage := localStorage w;
     alerts := alerts w; requests := requests w; console := console w |}.

(** The page together with the state of the PDF list and of the
    questions, and the question requests it sent. *)
Record Interface := {
  chat : World;
  uploadedPDFs : list PDFListItem.t;
  generatedQuestions : option GeneratedQuestion.t;
  isGeneratingQuestions : bool;
  question_requests : list QuestionGenerationRequest.t
}.

Definition setChat (f : World -> World) (i : Interface) : Interface :=
  {| chat := f (chat i);
     uploadedPDFs := uploadedPDFs i;
     generatedQuestions := generatedQuestions i;
     isGeneratingQuestions := isGeneratingQuestions i;
     question_requests := question_requests i |}.

Definition setUploadedPDFs (update : list PDFListItem.t -> list PDFListItem.t)
    (i : Interface) : Interface :=
  {| chat := chat i;
     uploadedPDFs := update (uploadedPDFs i);
     generatedQuestions := generatedQuestions i;
     isGeneratingQuestions := isGeneratingQuestions i;
     question_requests := question_requests i |}.

Definition setGeneratedQuestions (value : option GeneratedQuestion.t)
    (i : Interface) : Interface :=
  {| chat := chat i;
     uploadedPDFs := uploadedPDFs i;
     generatedQuestions := value;
     isGeneratingQuestions := isGeneratingQuestions i;
     question_requests := question_requests i |}.

Definition setIsGeneratingQuestions (value : bool) (i : Interface) : Interface :=
  {| chat := chat i;
     uploadedPDFs := uploadedPDFs i;
     generatedQuestions := generatedQuestions i;
     isGeneratingQuestions := value;
     question_requests := question_requests i |}.

Definition note_question_request (request : QuestionGenerationRequest.t)
    (i : Interface) : Interface :=
  {| chat := chat i;
     uploadedPDFs := uploadedPDFs i;
     generatedQuestions := generatedQuestions i;
     isGeneratingQuestions := isGeneratingQuestions i;
     question_requests := question_requests i ++ [request] |}.

(** The component as [useState] first gives it. *)
Definition opened (window : option Storage.t) : Interface :=
  {| chat := initial window;
     uploadedPDFs := [];
     generatedQuestions := None;
     isGeneratingQuestions := false;
     question_requests := [] |}.

(** [handlePDFUploaded]: the entry is appended, the new PDF is selected
    and a dialog tells so. *)
Definition handlePDFUploaded (pdf : UploadedPDF.t) (i : Interface) : Interface :=
  let i1 :=
    setUploadedPDFs (fun prev =>
      prev ++ [{| PDFListItem.pdf_id := UploadedPDF.pdf_id pdf;
                  PDFListItem.chunks_count := UploadedPDF.chunks_count pdf |}]) i in
  let i2 := setChat (setSelectedPDFId (Some (UploadedPDF.pdf_id pdf))) i1 in
  setChat (alert (lit "PDF " ++ [0x22] ++ UploadedPDF.filename pdf ++ [0x22]
                  ++ lit " uploaded successfully with "
                  ++ Number_toString (UploadedPDF.chunks_count pdf)
                  ++ lit " chunks indexed!")) i2.

(** [handlePDFDeleted].  The list is filtered as it is when the update
    runs; the selection compared is the one of the render the handler
    was created in, [seen]. *)
Definition handlePDFDeleted (seen : option jsstring) (pdfId : jsstring)
    (i : Interface) : Interface :=
  let i1 :=
    setUploadedPDFs (fun prev =>
      filter (fun pdf => PDFListItem.pdf_id pdf <> pdfId) prev) i in
  if bool_decide (seen = Some pdfId)
  then setChat (setSelectedPDFId None) i1
  else i1.

(** [loadUploadedPDFs], given what [ChatApiService.listPDFs()] settles
    with. *)
Definition loadUploadedPDFs (outcome : completion (list PDFListItem.t))
    (i : Interface) : Interface :=
  match outcome with
  | Normal pdfs => setUploadedPDFs (fun _ => pdfs) i
  | Throw _ => setChat (console_error (lit "Failed to load PDFs:")) i
  end.

(** ** The [PDFUpload] component *)

(** A click on an entry of the list:
    [onPDFSelected(selectedPDFId === pdf.pdf_id ? null : pdf.pdf_id)] *)
Definition select_entry (seen : option jsstring) (id : jsstring) (i : Interface)
    : Interface :=
  setChat (setSelectedPDFId (if bool_decide (seen = Some id) then None else Some id)) i.

(** [handleDeletePDF], given what [ChatApiService.deletePDF(pdfId)]
    settles with. *)
Definition handleDeletePDF (seen : option jsstring) (pdfId : jsstring)
    (outcome : completion unit) (i : Interface) : Interface :=
  match outcome with
  | Normal _ =>
      let i1 := handlePDFDeleted seen pdfId i in
      (* if the deleted PDF was selected, clear selection *)
      if bool_decide (seen = Some pdfId)
      then setChat (setSelectedPDFId None) i1
      else i1
  | Throw _ => setChat (console_error (lit "Failed to delete PDF:")) i
  end.

(** The component's own state, beside the interface it reports to. *)
Record Panel := {
  interface : Interface;
  isUploading : bool;
  uploadError : option jsstring
}.

Definition setInterface (f : Interface -> Interface) (p : Panel) : Panel :=
  {| interface := f (interface p);
     isUploading := isUploading p;
     uploadError := uploadError p |}.

Definition setIsUploading (value : bool) (p : Panel) : Panel :=
  {| interface := interface p;
     isUploading := value;
     uploadError := uploadError p |}.

Definition setUploadError (value : option jsstring) (p : Panel) : Panel :=
  {| interface := interface p;
     isUploading := isUploading p;
     uploadError := value |}.

(** [s.endsWith(t)] *)
Definition endsWith (s t : jsstring) : bool :=
  (length t <=? length s)%nat
  && bool_decide (drop (length s - length t) s = t).

Section PDFUpload.
(** [String.prototype.toLowerCase], the platform's case mapping. *)
Variable toLowerCase : jsstring -> jsstring.

(** The two guards of [handleFileSelect]: the message it shows when it
    refuses the file. *)
Definition file_refused (apiKey_seen : jsstring) (name : jsstring) : option jsstring :=
  if negb (truthy (trim apiKey_seen)) then
    Some (lit "Please set your OpenAI API key first")
  else if negb (endsWith (toLowerCase name) (lit ".pdf")) then
    Some (lit "Please select a PDF file")
  else None.

(** [handleFileSelect] once the upload has settled: the [try] from the
    [await] on, its [catch] and its [finally].  (The file input it
    resets is not part of the state.) *)
Definition upload_settled (outcome : completion UploadedPDF.t) (p : Panel) : Panel :=
  let p1 :=
    match outcome with
    | Normal result => setInterface (handlePDFUploaded result) p
    | Throw error => setUploadError (Some (message_or (lit "Upload failed") error)) p
    end in
  setIsUploading false p1.

(** [handleFileSelect] for a file of the given name, with the key of
    the render the handler was created in, and what
    [ChatApiService.uploadPDF] settles with if it is called. *)
Definition handleFileSelect (apiKey_seen : jsstring) (name : jsstring)
    (outcome : completion UploadedPDF.t) (p : Panel) : Panel :=
  match file_refused apiKey_seen name with
  | Some text => setUploadError (Some text) p
  | None =>
      upload_settled outcome (setUploadError None (setIsUploading true p))
  end.

End PDFUpload.

(** ** Question generation (components/ChatInterface) *)

(** The request [handleGenerateQuestions] builds from the configuration
    and from the key and selection it sees. *)
Definition question_request (config : QuestionConfig.t) (w : World)
    : QuestionGenerationRequest.t :=
  {| QuestionGenerationRequest.topic := QuestionConfig.topic config;
     QuestionGenerationRequest.pdf_id := or_undefined (selectedPDFId w);
     QuestionGenerationRequest.question_count := Some (QuestionConfig.questionCount config);
     QuestionGenerationRequest.difficulty := Some (QuestionConfig.difficulty config);
     QuestionGenerationRequest.question_types := Some (QuestionConfig.questionTypes config);
     QuestionGenerationRequest.api_key := apiKey w;
     QuestionGenerationRequest.model := Some (lit "gpt-4o-mini") |}.

(** The handler once the request has settled: the rest of the [try],
    the [catch] and the [finally]. *)
Definition questions_settled (outcome : completion GeneratedQuestion.t)
    (i : Interface) : Interface :=
  let i1 :=
    match outcome with
    | Normal result => setGeneratedQuestions (Some result) i
    | Throw error =>
        setChat (alert (lit "Error generating questions: "
                        ++ message_or (lit "Unknown error") error))
          (setChat (console_error (lit "Error generating questions:")) i)
    end in
  setIsGeneratingQuestions false i1.

(** [handleGenerateQuestions], given what
    [ChatApiService.generateQuestions] settles with if it is called. *)
Definition handleGenerateQuestions (config : QuestionConfig.t)
    (outcome : completion GeneratedQuestion.t) (i : Interface) : Interface :=
  if negb (truthy (trim (apiKey (chat i)))) then
    setChat (alert (lit "Please enter your OpenAI API key in settings first.")) i
  else
    questions_settled outcome
      (note_question_request (question_request config (chat i))
         (setIsGeneratingQuestions true i)).

(** [handleRegenerateQuestions] *)
Definition handleRegenerateQuestions (outcome : completion GeneratedQuestion.t)
    (i : Interface) : Interface :=
  match generatedQuestions i with
  | Some shown =>
      handleGenerateQuestions
        {| QuestionConfig.topic := GeneratedQuestion.topic shown;
           QuestionConfig.questionCount :=
             Z.of_nat (length (GeneratedQuestion.questions shown));
           QuestionConfig.difficulty := GeneratedQuestion.difficulty shown;
           QuestionConfig.questionTypes := GeneratedQuestion.question_types shown;
           QuestionConfig.pdfId := None |}
        outcome i
  | None => i
  end.

(** ** Answering questions ([QuestionDisplay], and [ChatMessage] for a
    message of questions) *)

Module QuestionDisplay.

(** [selectedAnswers] and [showResults], objects keyed by the index of
    the question. *)
Record t := {
  selectedAnswers : gmap nat nat;
  showResults : gmap nat bool
}.

Definition mounted : t := {| selectedAnswers := ∅; showResults := ∅ |}.

Definition handleAnswerSelect (questionIndex answerIndex : nat) (s : t) : t :=
  {| selectedAnswers := <[questionIndex := answerIndex]> (selectedAnswers s);
     showResults := <[questionIndex := true]> (showResults s) |}.

(** [showResults[questionIndex]] as a condition: a missing entry is
    falsy. *)
Definition showResult (questionIndex : nat) (s : t) : bool :=
  default false (showResults s !! questionIndex).

(** The four styles of a choice button. *)
Inductive Style := Green | Red | Gray | Open.

Definition classes (style : Style) : jsstring :=
  match style with
  | Green => lit "bg-green-100 border-green-500 text-green-800"
  | Red => lit "bg-red-100 border-red-500 text-red-800"
  | Gray => lit "bg-gray-50 border-gray-300 text-gray-600"
  | Open => lit "border-gray-300 hover:bg-gray-50 text-gray-700"
  end.

Definition style_of (question : MultipleChoiceQuestion.t)
    (questionIndex choiceIndex : nat) (s : t) : Style :=
  let isSelected := bool_decide (selectedAnswers s !! questionIndex = Some choiceIndex) in
  let isCorrect :=
    Z.of_nat choiceIndex =? MultipleChoiceQuestion.correct_answer question in
  if showResult questionIndex s then
    if isCorrect then Green
    else if isSelected && negb isCorrect then Red
    else Gray
  else Open.

Definition buttonClass (question : MultipleChoiceQuestion.t)
    (questionIndex choiceIndex : nat) (s : t) : jsstring :=
  lit "w-full text-left p-2 rounded text-xs border transition-colors "
  ++ classes (style_of question questionIndex choiceIndex s).

(** [disabled={showResult}] *)
Definition disabled (questionIndex : nat) (s : t) : bool :=
  showResult questionIndex s.

(** A click on a choice button of one of the questions shown; a
    disabled button takes no click. *)
Inductive click (questions : list MultipleChoiceQuestion.t) : t -> t -> Prop :=
| click_choice s questionIndex choiceIndex question :
    questions !! questionIndex = Some question ->
    (choiceIndex < length (MultipleChoiceQuestion.choices question))%nat ->
    disabled questionIndex s = false ->
    click questions s (handleAnswerSelect questionIndex choiceIndex s).

(** A click at any time of the component's life: it keeps its state
    when the questions shown are replaced by new ones. *)
Definition answering (s s' : t) : Prop :=
  exists questions, click questions s s'.

End QuestionDisplay.

(** ** The JSON endpoints of [ChatApiService] *)

(** A value [response.json()] resolves with.  Numbers are whole
    numbers. *)
#[warnings="-register-all"]
Inductive JSON :=
| JNull
| JBool (b : bool)
| JNumber (n : Z)
| JString (s : jsstring)
| JArray (items : list JSON)
| JObject (members : list (jsstring * JSON)).

(** [ToBoolean] of a value, or of [undefined] ([None]). *)
Definition ToBoolean (v : option JSON) : bool :=
  match v with
  | None => false
  | Some JNull => false
  | Some (JBool b) => b
  | Some (JNumber n) => negb (n =? 0)
  | Some (JString s) => truthy s
  | Some (JArray _) => true
  | Some (JObject _) => true
  end.

(** [ToString]: an array joins its elements with commas, [null] among
    them giving nothing, and an object is ["[object Object]"]. *)
Fixpoint ToString (j : JSON) : jsstring :=
  match j with
  | JNull => lit "null"
  | JBool true => lit "true"
  | JBool false => lit "false"
  | JNumber n => Number_toString n
  | JString s => s
  | JArray items =>
      (fix join (items : list JSON) : jsstring :=
         match items with
         | [] => []
         | [item] =>
             match item with JNull => [] | _ => ToString item end
         | item :: (_ :: _) as rest =>
             match item with JNull => [] | _ => ToString item end
             ++ lit "," ++ join rest
         end) items
  | JObject _ => lit "[object Object]"
  end.

(** The member of that name in an object as [JSON.parse] builds it: of
    members with the same name the last one counts. *)
Definition member (name : jsstring) (members : list (jsstring * JSON)) : option JSON :=
  fold_left (fun found entry =>
               if bool_decide (entry.1 = name) then Some entry.2 else found)
            members None.

(** The response of a JSON endpoint: its status and what
    [response.json()] settles with; it rejects when the body is not
    JSON text. *)
Module JsonResponse.
Record t := {
  status : Z;
  json : completion JSON
}.
Definition ok (response : t) : bool :=
  (200 <=? status response) && (status response <=? 299).
End JsonResponse.



Section JsonEndpoints.
(** The message of the [TypeError] for reading the named property of
    [null], which engines word differently. *)
Variable reading_null : jsstring -> jsstring.

(** [value.name], for a name that no string, number, boolean or array
    has as a property of its own. *)
Definition property (name : jsstring) (value : JSON) : completion (option JSON) :=
  match value with
  | JNull => Throw (ErrorObject (reading_null name))
  | JObject members => Normal (member name members)
  | _ => Normal None
  end.

(** [new Error(`HTTP error! status: ${response.status}`)] *)
Definition http_error (response : JsonResponse.t) : thrown :=
  ErrorObject (lit "HTTP error! status: " ++ Number_toString (JsonResponse.status response)).

(** The branch of a response that is not ok:
    [const errorData = await response.json();
     throw new Error(errorData.detail || `HTTP error! status: ...`)];
    what it throws. *)
Definition refusal (response : JsonResponse.t) : thrown :=
  match JsonResponse.json response with
  | Throw e => e
  | Normal errorData =>
      match property (lit "detail") errorData with
      | Throw e => e
      | Normal detail =>
          match detail with
          | Some value =>
              if ToBoolean detail then ErrorObject (ToString value)
              else http_error response
          | None => http_error response
          end
      end
  end.

(** [deletePDF], given what [fetch] settles with. *)
Definition deletePDF (fetched : completion JsonResponse.t) : completion unit :=
  match fetched with
  | Throw e => Throw e
  | Normal response =>
      if negb (JsonResponse.ok response) then Throw (refusal response)
      else Normal tt
  end.

(** [uploadPDF] and [generateQuestions] have the same shape: the value
    of a response that is ok is returned as the declared type, which is
    what [typed] stands for. *)
Definition returned {A} (typed : JSON -> A) (fetched : completion JsonResponse.t)
    : completion A :=
  match fetched with
  | Throw e => Throw e
  | Normal response =>
      if negb (JsonResponse.ok response) then Throw (refusal response)
      else
        match JsonResponse.json response with
        | Throw e => Throw e
        | Normal value => Normal (typed value)
        end
  end.

Definition uploadPDF (typed : JSON -> UploadedPDF.t) := returned typed.

Definition generateQuestions (typed : JSON -> GeneratedQuestion.t) := returned typed.

(** [listPDFs]: here the body of a response that is not ok is not
    read. *)
Definition listPDFs (typed : option JSON -> list PDFListItem.t)
    (fetched : completion JsonResponse.t) : completion (list PDFListItem.t) :=
  match fetched with
  | Throw e => Throw e
  | Normal response =>
      if negb (JsonResponse.ok response) then Throw (http_error response)
      else
        match JsonResponse.json response with
        | Throw e => Throw e
        | Normal data =>
            match property (lit "pdfs") data with
            | Throw e => Throw e
            | Normal pdfs => Normal (typed pdfs)
            end
        end
  end.

Local Open Scope js_scope.


End JsonEndpoints.

(** ** The [TopicSelector] component *)

(** [s.includes(t)]: [t] occurs in [s] at some position. *)
Fixpoint includes (s t : jsstring) : bool :=
  bool_decide (take (length t) s = t)
  || match s with
     | [] => false
     | _ :: s' => includes s' t
     end.

Module TopicSelector.

Record t := {
  searchTerm : jsstring;
  selectedTopic : jsstring;
  showConfig : bool;
  questionCount : Z;
  difficulty : jsstring;
  questionTypes : list jsstring
}.

Definition mounted : t :=
  {| searchTerm := [];
     selectedTopic := [];
     showConfig := false;
     questionCount := 3;
     difficulty := lit "medium";
     questionTypes := [lit "factual"; lit "analytical"] |}.

Definition setSearchTerm (value : jsstring) (s : t) : t :=
  {| searchTerm := value;
     selectedTopic := selectedTopic s;
     showConfig := showConfig s;
     questionCount := questionCount s;
     difficulty := difficulty s;
     questionTypes := questionTypes s |}.

Definition setQuestionCount (value : Z) (s : t) : t :=
  {| searchTerm := searchTerm s;
     selectedTopic := selectedTopic s;
     showConfig := showConfig s;
     questionCount := value;
     difficulty := difficulty s;
     questionTypes := questionTypes s |}.

Definition setDifficulty (value : jsstring) (s : t) : t :=
  {| searchTerm := searchTerm s;
     selectedTopic := selectedTopic s;
     showConfig := showConfig s;
     questionCount := questionCount s;
     difficulty := value;
     questionTypes := questionTypes s |}.

(** [handleTopicSelect]; the [onTopicSelect] it is given does
    nothing. *)
Definition handleTopicSelect (topic : jsstring) (s : t) : t :=
  {| searchTerm := searchTerm s;
     selectedTopic := topic;
     showConfig := true;
     questionCount := questionCount s;
     difficulty := difficulty s;
     questionTypes := questionTypes s |}.

(** The "Change Topic" button. *)
Definition change_topic (s : t) : t :=
  {| searchTerm := searchTerm s;
     selectedTopic := [];
     showConfig := false;
     questionCount := questionCount s;
     difficulty := difficulty s;
     questionTypes := questionTypes s |}.

(** [handleGenerateQuestions]: the configuration handed to
    [onGenerateQuestions], if any. *)
Definition handleGenerateQuestions (s : t) : option QuestionConfig.t :=
  if negb (truthy (selectedTopic s)) then None
  else
    Some {| QuestionConfig.topic := selectedTopic s;
            QuestionConfig.questionCount := questionCount s;
            QuestionConfig.difficulty := difficulty s;
            QuestionConfig.questionTypes := questionTypes s;
            QuestionConfig.pdfId := None |}.

Section Topics.
(** The topics of [lib/topics], and the platform's case mapping. *)
Variable topics : list jsstring.
Variable toLowerCase : jsstring -> jsstring.

Definition filteredTopics (s : t) : list jsstring :=
  filter (fun topic =>
            includes (toLowerCase topic) (toLowerCase (searchTerm s)) = true)
         topics.

(** The topic buttons on the page: the first 30 of the filtered
    topics, while no topic is selected. *)
Definition listed (s : t) : list jsstring :=
  if negb (truthy (selectedTopic s)) then take 30 (filteredTopics s) else [].

(** What the user can do with the controls that are on the page. *)
Inductive event : t -> t -> Prop :=
| event_search s value :
    event s (setSearchTerm value s)
| event_topic s topic :
    topic ∈ listed s ->
    event s (handleTopicSelect topic s)
| event_change s :
    truthy (selectedTopic s) = true ->
    event s (change_topic s)
(* the options of the select element *)
| event_count s value :
    truthy (selectedTopic s) = true ->
    showConfig s = true ->
    value ∈ [1; 3; 5] ->
    event s (setQuestionCount value s)
(* the three difficulty buttons *)
| event_difficulty s level :
    truthy (selectedTopic s) = true ->
    showConfig s = true ->
    level ∈ [lit "easy"; lit "medium"; lit "hard"] ->
    event s (setDifficulty level s).

End Topics.

End TopicSelector.

(** ** Samples for the PDF list, the endpoints and the questions *)

Module SampleLibrary.

Definition contract : PDFListItem.t :=
  {| PDFListItem.pdf_id := lit "pdf_1a2b3c4d5e6f"; PDFListItem.chunks_count := 12 |}.

Definition manual : PDFListItem.t :=
  {| PDFListItem.pdf_id := lit "pdf_9f8e7d6c5b4a"; PDFListItem.chunks_count := 40 |}.

(** Two PDFs are listed and the second is selected. *)
Definition shelf : Interface :=
  {| chat := setSelectedPDFId (Some (lit "pdf_9f8e7d6c5b4a")) Sample.page;
     uploadedPDFs := [contract; manual];
     generatedQuestions := None;
     isGeneratingQuestions := false;
     question_requests := [] |}.

Definition notes : UploadedPDF.t :=
  {| UploadedPDF.pdf_id := lit "pdf_0011223344ff";
     UploadedPDF.filename := lit "notes.pdf";
     UploadedPDF.chunks_count := 7;
     UploadedPDF.message := lit "PDF uploaded and indexed successfully" |}.

(** The panel after an unsuitable file was chosen. *)
Definition panel : Panel :=
  {| interface := shelf;
     isUploading := false;
     uploadError := Some (lit "Please select a PDF file") |}.

(** One engine's wording of the [TypeError]. *)
Definition reading_null (name : jsstring) : jsstring :=
  lit "Cannot read properties of null (reading '" ++ name ++ lit "')".

(** The case mapping on the letters A to Z. *)
Definition lower (s : jsstring) : jsstring :=
  map (fun c => if (65 <=? c) && (c <=? 90) then c + 32 else c) s.

Definition not_found : JsonResponse.t :=
  {| JsonResponse.status := 404;
     JsonResponse.json :=
       Normal (JObject [(lit "detail", JString (lit "PDF not found"))]) |}.

(** A gateway answers with a page of HTML. *)
Definition bad_gateway : JsonResponse.t :=
  {| JsonResponse.status := 502;
     JsonResponse.json := Throw (ErrorObject (lit "Unexpected token '<'")) |}.

Definition server_error : JsonResponse.t :=
  {| JsonResponse.status := 500;
     JsonResponse.json := Normal (JObject [(lit "detail", JString [])]) |}.

Definition deleted : JsonResponse.t :=
  {| JsonResponse.status := 200;
     JsonResponse.json :=
       Normal (JObject [(lit "message", JString (lit "PDF deleted successfully"))]) |}.

Definition uploaded : JsonResponse.t :=
  {| JsonResponse.status := 200;
     JsonResponse.json :=
       Normal (JObject [(lit "pdf_id", JString (lit "pdf_0011223344ff"));
                        (lit "filename", JString (lit "notes.pdf"));
                        (lit "chunks_count", JNumber 7);
                        (lit "message",
                         JString (lit "PDF uploaded and indexed successfully"))]) |}.


Definition text_of (value : option JSON) : jsstring :=
  match value with Some (JString s) => s | _ => [] end.

Definition number_of (value : option JSON) : Z :=
  match value with Some (JNumber n) => n | _ => 0 end.

(** The value of an upload as the declared type sees it. *)
Definition as_UploadedPDF (value : JSON) : UploadedPDF.t :=
  match value with
  | JObject members =>
      {| UploadedPDF.pdf_id := text_of (member (lit "pdf_id") members);
         UploadedPDF.filename := text_of (member (lit "filename") members);
         UploadedPDF.chunks_count := number_of (member (lit "chunks_count") members);
         UploadedPDF.message := text_of (member (lit "message") members) |}
  | _ =>
      {| UploadedPDF.pdf_id := []; UploadedPDF.filename := [];
         UploadedPDF.chunks_count := 0; UploadedPDF.message := [] |}
  end.

Definition no_questions (value : JSON) : GeneratedQuestion.t :=
  {| GeneratedQuestion.topic := [];
     GeneratedQuestion.questions := [];
     GeneratedQuestion.difficulty := [];
     GeneratedQuestion.question_types := [];
     GeneratedQuestion.has_context := false;
     GeneratedQuestion.context_chunks_used := 0 |}.

Definition no_pdfs (value : option JSON) : list PDFListItem.t := [].

Definition burglary : MultipleChoiceQuestion.t :=
  {| MultipleChoiceQuestion.question := lit "Which element is required for burglary?";
     MultipleChoiceQuestion.choices :=
       [lit "Use of force"; lit "A weapon"; lit "Unlawful entry"; lit "A witness"];
     MultipleChoiceQuestion.correct_answer := 2;
     MultipleChoiceQuestion.explanation := lit "Burglary requires an unlawful entry." |}.

Definition quiz : GeneratedQuestion.t :=
  {| GeneratedQuestion.topic := lit "Burglary";
     GeneratedQuestion.questions := [burglary];
     GeneratedQuestion.difficulty := lit "hard";
     GeneratedQuestion.question_types := [lit "factual"; lit "analytical"];
     GeneratedQuestion.has_context := false;
     GeneratedQuestion.context_chunks_used := 0 |}.

(** The quiz is on the page. *)
Definition quizzing : Interface := setGeneratedQuestions (Some quiz) shelf.

(** The same interface before a key was entered. *)
Definition keyless : Interface := setChat (setApiKey []) shelf.

Definition topics : list jsstring :=
  [lit "Assault"; lit "Burglary"; lit "Firearm Offences"; lit "Theft"].

Definition configuration : QuestionConfig.t :=
  {| QuestionConfig.topic := lit "Theft";
     QuestionConfig.questionCount := 5;
     QuestionConfig.difficulty := lit "easy";
     QuestionConfig.questionTypes := [lit "factual"; lit "analytical"];
     QuestionConfig.pdfId := None |}.

(** "fire" is typed, the topic found is chosen and five questions are
    asked for. *)
Definition searching : TopicSelector.t :=
  TopicSelector.setSearchTerm (lit "fire") TopicSelector.mounted.

Definition chosen : TopicSelector.t :=
  TopicSelector.setQuestionCount 5
    (TopicSelector.handleTopicSelect (lit "Firearm Offences") searching).

(** The first question was answered with the second choice. *)
Definition answered : QuestionDisplay.t :=
  QuestionDisplay.handleAnswerSelect 0 1 QuestionDisplay.mounted.

End SampleLibrary.

(** * Properties *)

(** ** The decoder on small inputs *)

Example decode_ascii :
  TextDecoder.decode_all [0x48; 0x69] = lit "Hi".
Proof. reflexivity. Qed.

Example decode_split_euro :
  let '(d1, s1) := TextDecoder.decode TextDecoder.new [0xE2; 0x82] in
  let '(d2, s2) := TextDecoder.decode d1 [0xAC] in
  s1 = [] /\ s2 = [0x20AC] /\ TextDecoder.pending d1 = true
  /\ TextDecoder.pending d2 = false.
Proof. repeat split. Qed.


(** ** The callbacks of [sendMessage], for any callbacks that do not throw *)

Lemma read_loop_record values ending decoder buffer log :
  read_loop log_chunk (record Complete) values ending decoder buffer log
  = (fst (read_loop log_chunk (record Complete) values ending decoder buffer []),
     log ++ snd (read_loop log_chunk (record Complete) values ending decoder buffer [])).
Proof.
  revert decoder buffer log.
  induction values as [|value values IH]; intros decoder buffer log; simpl.
  - destruct ending as [|e]; [|by rewrite app_nil_r].
    unfold bind, log_chunk, record, perform.
    destruct (truthy (trim buffer)); simpl; [|done].
    by rewrite <- app_assoc.
  - destruct (TextDecoder.decode decoder value) as [decoder' chunk].
    unfold bind; simpl.
    rewrite (IH decoder' (buffer ++ chunk) (log ++ [Chunk chunk])).
    rewrite (IH decoder' (buffer ++ chunk) [Chunk chunk]).
    simpl. by rewrite <- app_assoc.
Qed.

Section Replay.
Context {St : Type}.
Variable onChunk : jsstring -> js St unit.
Variable onComplete : js St unit.
Variable onError : jsstring -> js St unit.
Hypothesis onChunk_returns : forall chunk s, fst (onChunk chunk s) = Normal tt.
Hypothesis onComplete_returns : forall s, fst (onComplete s) = Normal tt.
Hypothesis onError_returns : forall error s, fst (onError error s) = Normal tt.

Lemma read_loop_replay values ending decoder buffer s :
  read_loop onChunk onComplete values ending decoder buffer s
  = (fst (read_loop log_chunk (record Complete) values ending decoder buffer []),
     fold_left (invoke onChunk onComplete onError)
       (snd (read_loop log_chunk (record Complete) values ending decoder buffer [])) s).
Proof.
  revert decoder buffer s.
  induction values as [|value values IH]; intros decoder buffer s; simpl.
  - destruct ending as [|e]; [|done].
    unfold bind. destruct (truthy (trim buffer)); simpl.
    + pose proof (onChunk_returns buffer s) as Hc.
      destruct (onChunk buffer s) as [r s1]; simpl in *; subst r.
      pose proof (onComplete_returns s1) as Hd.
      destruct (onComplete s1) as [r s2]; simpl in *; by subst r.
    + pose proof (onComplete_returns s) as Hd.
      destruct (onComplete s) as [r s2]; simpl in *; by subst r.
  - destruct (TextDecoder.decode decoder value) as [decoder' chunk].
    unfold bind.
    pose proof (onChunk_returns chunk s) as Hc.
    destruct (onChunk chunk s) as [r s1] eqn:E; simpl in *; subst r.
    rewrite IH. simpl.
    rewrite (read_loop_record values ending decoder' (buffer ++ chunk) [Chunk chunk]).
    simpl. by rewrite E.
Qed.

Lemma sendMessage_replay (fetch : ChatRequest -> js St Response) request s :
  sendMessage fetch onChunk onComplete onError request s
  = (Normal tt,
     fold_left (invoke onChunk onComplete onError)
       (calls (fun _ => fst (fetch request s)) request) (snd (fetch request s))).
Proof.
  unfold calls, sendMessage, try_catch, bind.
  destruct (fetch request s) as [[response|e] s1]; simpl.
  - destruct (ok response); simpl.
    + destruct (body response) as [reader|]; simpl.
      * rewrite read_loop_replay.
        destruct (read_loop log_chunk (record Complete) (values reader)
                    (ending reader) TextDecoder.new [] []) as [[[]|e] evs] eqn:E;
          simpl; [done|].
        rewrite fold_left_app. simpl.
        pose proof (onError_returns (message_or (lit "An unknown error occurred") e)
                      (fold_left (invoke onChunk onComplete onError) evs s1)) as He.
        destruct (onError _ _) as [r s2]; simpl in *; by subst r.
      * pose proof (onError_returns (lit "No response body reader available") s1) as He.
        destruct (onError _ _) as [r s2]; simpl in *; by subst r.
    + pose proof (onError_returns
        (lit "HTTP error! status: " ++ Number_toString (status response)) s1) as He.
      destruct (onError _ _) as [r s2]; simpl in *; by subst r.
  - pose proof (onError_returns (message_or (lit "An unknown error occurred") e) s1) as He.
    destruct (onError _ _) as [r s2]; simpl in *; by subst r.
Qed.

End Replay.

(** ** What the read loop invokes *)

Lemma read_loop_calls values ending decoder buffer :
  read_loop log_chunk (record Complete) values ending decoder buffer []
  = (match ending with Closed => Normal tt | Errored e => Throw e end,
     map Chunk (snd (decode_each decoder values))
     ++ closing_calls ending (buffer ++ concat (snd (decode_each decoder values)))).
Proof.
  revert decoder buffer.
  induction values as [|value values IH]; intros decoder buffer; simpl.
  - rewrite app_nil_r. destruct ending as [|e]; [|done].
    unfold bind, log_chunk, record, perform; simpl.
    by destruct (truthy (trim buffer)).
  - destruct (TextDecoder.decode decoder value) as [decoder' chunk].
    unfold bind. simpl.
    rewrite read_loop_record, IH.
    destruct (decode_each decoder' values) as [decoder'' chunks]; simpl.
    by rewrite <- app_assoc.
Qed.

Lemma calls_spec network request :
  calls network request =
  match network request with
  | Throw e => [Failed (message_or (lit "An unknown error occurred") e)]
  | Normal response =>
      if ok response then
        match body response with
        | None => [Failed (lit "No response body reader available")]
        | Some reader =>
            map Chunk (snd (decode_each TextDecoder.new (values reader)))
            ++ match ending reader with
               | Closed =>
                   closing_calls Closed
                     (concat (snd (decode_each TextDecoder.new (values reader))))
               | Errored e => [Failed (message_or (lit "An unknown error occurred") e)]
               end
        end
      else [Failed (lit "HTTP error! status: " ++ Number_toString (status response))]
  end.
Proof.
  unfold calls, sendMessage, try_catch, bind.
  destruct (network request) as [response|e]; [|done].
  destruct (ok response); [|done]. simpl.
  destruct (body response) as [reader|]; [|done].
  rewrite read_loop_calls. simpl.
  destruct (ending reader) as [|e]; [done|].
  unfold closing_calls, log_error, record, perform. simpl.
  by rewrite app_nil_r.
Qed.

(** ** The streaming decoder does not depend on the chunk boundaries *)

Module DecoderFacts.
Import TextDecoder.

Lemma run_app d a b :
  run d (a ++ b) = (fst (run (fst (run d a)) b), snd (run d a) ++ snd (run (fst (run d a)) b)).
Proof.
  revert d. induction a as [|x a IH]; intros d; simpl.
  - by destruct (run d b).
  - destruct (handler d x) as [d1 o1]. rewrite IH.
    destruct (run d1 a) as [d2 o2]; simpl.
    destruct (run d2 b) as [d3 o3]; simpl.
    by rewrite app_assoc.
Qed.

Lemma lead_BOM b d x :
  lead (with_BOM_seen b d) x = (with_BOM_seen b (fst (lead d x)), snd (lead d x)).
Proof.
  unfold lead. simpl.
  repeat match goal with |- context [if ?c then _ else _] => destruct c end; reflexivity.
Qed.

Lemma handler_BOM b d x :
  handler (with_BOM_seen b d) x
  = (with_BOM_seen b (fst (handler d x)), snd (handler d x)).
Proof.
  unfold handler. simpl.
  destruct (bytes_needed d =? 0).
  - apply lead_BOM.
  - destruct (negb _).
    + change (reset (with_BOM_seen b d)) with (with_BOM_seen b (reset d)).
      rewrite lead_BOM. by destruct (lead (reset d) x).
    + by destruct (bytes_seen d + 1 =? bytes_needed d).
Qed.

Lemma run_BOM b d bytes :
  run (with_BOM_seen b d) bytes = (with_BOM_seen b (fst (run d bytes)), snd (run d bytes)).
Proof.
  revert d. induction bytes as [|x bytes IH]; intros d; simpl; [done|].
  rewrite handler_BOM. destruct (handler d x) as [d1 o1]; simpl.
  rewrite IH. by destruct (run d1 bytes).
Qed.

Lemma serialize_fst d scalars :
  fst (serialize d scalars)
  = match scalars with [] => d | _ :: _ => with_BOM_seen true d end.
Proof.
  destruct scalars as [|x l]; simpl; [done|].
  destruct (BOM_seen d) eqn:E; simpl.
  - destruct d; simpl in *; by subst.
  - by destruct (x =? 65279).
Qed.

Lemma serialize_app d s1 s2 :
  serialize d (s1 ++ s2)
  = (fst (serialize (fst (serialize d s1)) s2),
     snd (serialize d s1) ++ snd (serialize (fst (serialize d s1)) s2)).
Proof.
  destruct s1 as [|x s1]; simpl.
  - by destruct (serialize d s2).
  - destruct (BOM_seen d) eqn:E; simpl.
    + rewrite map_app, concat_app.
      destruct s2 as [|y s2]; simpl; [by rewrite !app_nil_r|].
      rewrite E. simpl. by rewrite <- app_assoc.
    + destruct (x =? 65279); simpl; rewrite map_app, concat_app;
        destruct s2 as [|y s2]; simpl; rewrite ?app_nil_r, <- ?app_assoc; done.
Qed.

Lemma with_BOM_seen_same d : with_BOM_seen (BOM_seen d) d = d.
Proof. by destruct d. Qed.

Lemma run_BOM_seen d bytes : BOM_seen (fst (run d bytes)) = BOM_seen d.
Proof.
  pose proof (run_BOM (BOM_seen d) d bytes) as R.
  rewrite with_BOM_seen_same in R.
  destruct (run d bytes) as [d' o]; simpl in *.
  injection R as R. by rewrite R.
Qed.

Lemma serialize_seen d scalars :
  BOM_seen d = true -> serialize d scalars = (d, concat (map utf16 scalars)).
Proof. intros E. destruct scalars; simpl; [done|]. by rewrite E. Qed.

(** Decoding [a ++ b] in one call is decoding [a], then [b] with the
    state [a] left: the texts concatenate. *)
Lemma decode_app d a b :
  decode d (a ++ b)
  = (fst (decode (fst (decode d a)) b),
     snd (decode d a) ++ snd (decode (fst (decode d a)) b)).
Proof.
  unfold decode. rewrite run_app.
  destruct (run d a) as [d1 o1]; simpl.
  pose proof (run_BOM_seen d1 b) as Hb.
  pose proof (run_BOM true d1 b) as Rt.
  destruct o1 as [|x o1].
  - simpl. destruct (run d1 b) as [d2 o2]; simpl. by destruct (serialize d2 o2).
  - destruct (run d1 b) as [d2 o2]; simpl in *.
    destruct (BOM_seen d1) eqn:E; simpl.
    + assert (run d1 b = (d2, o2)) as ->.
      { rewrite <- (with_BOM_seen_same d1), E, Rt. f_equal.
        rewrite <- Hb. apply with_BOM_seen_same. }
      rewrite (serialize_seen d2 o2 Hb). simpl.
      by rewrite Hb, map_app, concat_app, app_assoc.
    + rewrite Hb.
      destruct (x =? 65279); simpl; rewrite Rt, serialize_seen by done; simpl;
        by rewrite map_app, concat_app, ?app_assoc.
Qed.

End DecoderFacts.

(** The texts of the successive chunks concatenate to the text the
    decoder gives for the concatenated bytes. *)
Lemma decode_each_concat decoder values :
  TextDecoder.decode decoder (concat values)
  = (fst (decode_each decoder values), concat (snd (decode_each decoder values))).
Proof.
  revert decoder. induction values as [|value values IH]; intros decoder; simpl; [done|].
  rewrite DecoderFacts.decode_app, IH.
  destruct (TextDecoder.decode decoder value) as [d1 s1]; simpl.
  by destruct (decode_each d1 values).
Qed.

(** ** The handler as the delivery of the callbacks *)

Lemma calls_at network network' request :
  network request = network' request -> calls network request = calls network' request.
Proof. intros E. by rewrite !calls_spec, E. Qed.

Lemma can_send_guard w :
  negb (truthy (trim (inputMessage w))) || negb (truthy (trim (apiKey w)))
  = negb (can_send w).
Proof. unfold can_send. by rewrite negb_andb. Qed.

(** A send that passes its precondition runs the callbacks of
    [sendMessage], in their order, on the frame the handler set up; the
    handler's own [catch] is never entered. *)
Lemma handleSendMessage_deliver env w :
  can_send w = true ->
  handleSendMessage env w
  = world (fold_left (deliver (generateMessageId (assistant_draw env)))
             (calls (network env) (request_of env w)) (requested env w)).
Proof.
  intros Hsend. unfold handleSendMessage.
  rewrite can_send_guard, Hsend. simpl.
  unfold try_catch.
  rewrite sendMessage_replay by done.
  reflexivity.
Qed.

(** A send that fails its precondition changes neither the session
    state nor what was sent to the network. *)
Lemma handleSendMessage_refused env w :
  can_send w = false ->
  chatState (handleSendMessage env w) = chatState w
  /\ requests (handleSendMessage env w) = requests w
  /\ localStorage (handleSendMessage env w) = localStorage w.
Proof.
  intros Hsend. unfold handleSendMessage.
  rewrite can_send_guard, Hsend. simpl.
  by destruct (negb (truthy (trim (apiKey w)))).
Qed.

(** ** Replacing the content of the messages with a given identifier *)

Lemma replace_content_length aid text msgs :
  length (replace_content aid text msgs) = length msgs.
Proof. apply length_map. Qed.

Lemma replace_content_lookup aid text (msgs : list Message.t) i :
  replace_content aid text msgs !! i
  = (fun msg => if bool_decide (Message.id msg = aid)
                then Message.with_content text msg else msg) <$> msgs !! i.
Proof. apply list_lookup_fmap. Qed.

Lemma replace_content_ids aid text msgs :
  map Message.id (replace_content aid text msgs) = map Message.id msgs.
Proof.
  unfold replace_content. rewrite map_map. apply map_ext.
  intros m. by destruct (bool_decide _).
Qed.

Lemma replace_content_roles aid text msgs :
  map Message.role (replace_content aid text msgs) = map Message.role msgs.
Proof.
  unfold replace_content. rewrite map_map. apply map_ext.
  intros m. by destruct (bool_decide _).
Qed.

Lemma replace_content_timestamps aid text msgs :
  map Message.timestamp (replace_content aid text msgs) = map Message.timestamp msgs.
Proof.
  unfold replace_content. rewrite map_map. apply map_ext.
  intros m. by destruct (bool_decide _).
Qed.

Lemma replace_content_app aid text l1 l2 :
  replace_content aid text (l1 ++ l2)
  = replace_content aid text l1 ++ replace_content aid text l2.
Proof. apply map_app. Qed.

Lemma replace_content_fresh aid text msgs :
  ~ In aid (map Message.id msgs) -> replace_content aid text msgs = msgs.
Proof.
  induction msgs as [|m msgs IH]; simpl; [done|].
  intros Hfresh. rewrite IH by tauto.
  rewrite bool_decide_eq_false_2 by tauto. done.
Qed.

Lemma replace_content_again aid text text' msgs :
  replace_content aid text' (replace_content aid text msgs)
  = replace_content aid text' msgs.
Proof.
  unfold replace_content. rewrite map_map. apply map_ext. intros m.
  destruct (bool_decide (Message.id m = aid)) eqn:E; simpl; rewrite E; done.
Qed.

Lemma last_replace_content aid text msgs a :
  Message.id a = aid ->
  last (replace_content aid text (msgs ++ [a])) = Some (Message.with_content text a).
Proof.
  intros Ha. rewrite replace_content_app. simpl.
  rewrite last_snoc. by rewrite bool_decide_eq_true_2.
Qed.

(** The sequence once both messages of a send are appended. *)
Lemma messages_requested env w :
  messages (chatState (world (requested env w)))
  = messages (chatState w) ++ [userMessage_of env w; assistantMessage_of env].
Proof. simpl. by rewrite <- app_assoc. Qed.

Lemma messages_onError aid error f :
  messages (chatState (world (onError aid error f)))
  = replace_content aid (lit "Error: " ++ error) (messages (chatState (world f))).
Proof. done. Qed.

Lemma messages_onChunk aid chunk f :
  messages (chatState (world (onChunk aid chunk f)))
  = replace_content aid (assistantContent f ++ chunk) (messages (chatState (world f))).
Proof. done. Qed.

Lemma messages_onComplete f :
  messages (chatState (world (onComplete f))) = messages (chatState (world f)).
Proof. done. Qed.

(** ** C4: a refused send *)

(** C4. A call of the send handler whose user text is empty after
    trimming, or whose API key is empty, leaves the message sequence as
    it was (nothing is appended, the whole session state is unchanged)
    and sends no request to the network. *)
Theorem refused_send_appends_nothing env w :
  trim (inputMessage w) = [] \/ apiKey w = [] ->
  messages (chatState (handleSendMessage env w)) = messages (chatState w)
  /\ chatState (handleSendMessage env w) = chatState w
  /\ requests (handleSendMessage env w) = requests w.
Proof.
  intros Hpre.
  assert (can_send w = false) as Hsend.
  { unfold can_send. destruct Hpre as [-> | ->]; [done|]. apply andb_false_r. }
  destruct (handleSendMessage_refused env w Hsend) as (Hc & Hr & _).
  by rewrite Hc, Hr.
Qed.

(** ** C3: a response with a non-success status *)

(** C3. When a send passes its precondition and the response has a
    status outside 200..299, [sendMessage] invokes [onError] once and
    nothing else, whatever the body holds (the body is not read); the
    placeholder is still the last message of the sequence, which has
    grown by two, its content is "Error: HTTP error! status: " followed
    by the status, and both flags are false. *)
Theorem http_error_reported env w response :
  can_send w = true ->
  network env (request_of env w) = Normal response ->
  ok response = false ->
  calls (network env) (request_of env w)
  = [Failed (lit "HTTP error! status: " ++ Number_toString (status response))]
  /\ calls (network env) (request_of env w)
     = calls (fun _ => Normal {| status := status response; body := None |})
         (request_of env w)
  /\ in_flight (handleSendMessage env w)
     = Some (Message.with_content
               (lit "Error: HTTP error! status: " ++ Number_toString (status response))
               (assistantMessage_of env))
  /\ length (messages (chatState (handleSendMessage env w)))
     = S (S (length (messages (chatState w))))
  /\ isLoading (chatState (handleSendMessage env w)) = false
  /\ isTyping (chatState (handleSendMessage env w)) = false.
Proof.
  intros Hsend Hnet Hok.
  assert (calls (network env) (request_of env w)
          = [Failed (lit "HTTP error! status: " ++ Number_toString (status response))])
    as Hcalls by (by rewrite calls_spec, Hnet, Hok).
  split; [done|]. split.
  { rewrite Hcalls, calls_spec. unfold ok in *. simpl. by rewrite Hok. }
  rewrite (handleSendMessage_deliver env w Hsend), Hcalls.
  unfold in_flight. cbn [fold_left deliver].
  rewrite messages_onError, messages_requested.
  repeat split.
  - change [userMessage_of env w; assistantMessage_of env]
      with ([userMessage_of env w] ++ [assistantMessage_of env]).
    rewrite (app_assoc (messages (chatState w))).
    by rewrite last_replace_content.
  - rewrite replace_content_length, length_app. simpl. lia.
Qed.

(** ** C7: a successful stream without chunks *)

(** C7. When a send passes its precondition, the response succeeds and
    the first read already reports the end of the stream, [sendMessage]
    invokes [onComplete] and nothing else; the sequence is the old one
    followed by the user message and the placeholder, the placeholder's
    content is still the empty string, and both flags are false. *)
Theorem empty_stream_completes env w response reader :
  can_send w = true ->
  network env (request_of env w) = Normal response ->
  ok response = true ->
  body response = Some reader ->
  values reader = [] ->
  ending reader = Closed ->
  calls (network env) (request_of env w) = [Complete]
  /\ messages (chatState (handleSendMessage env w))
     = messages (chatState w) ++ [userMessage_of env w; assistantMessage_of env]
  /\ in_flight (handleSendMessage env w) = Some (assistantMessage_of env)
  /\ Message.content (assistantMessage_of env) = []
  /\ isLoading (chatState (handleSendMessage env w)) = false
  /\ isTyping (chatState (handleSendMessage env w)) = false.
Proof.
  intros Hsend Hnet Hok Hbody Hvalues Hend.
  assert (calls (network env) (request_of env w) = [Complete]) as Hcalls.
  { by rewrite calls_spec, Hnet, Hok, Hbody, Hvalues, Hend. }
  split; [done|].
  rewrite (handleSendMessage_deliver env w Hsend), Hcalls.
  unfold in_flight. cbn [fold_left deliver].
  rewrite messages_onComplete, messages_requested.
  repeat split.
  change [userMessage_of env w; assistantMessage_of env]
    with ([userMessage_of env w] ++ [assistantMessage_of env]).
  rewrite (app_assoc (messages (chatState w))). apply last_snoc.
Qed.

(** ** C10: one terminal callback, and no exception *)

Lemma calls_shape network request :
  exists chunks last_call,
    calls network request = map Chunk chunks ++ [last_call]
    /\ terminal last_call = true
    /\ (last_call = Complete <-> read_to_exhaustion (network request) = true).
Proof.
  rewrite calls_spec. unfold read_to_exhaustion.
  destruct (network request) as [response|e].
  - destruct (ok response); simpl.
    + destruct (body response) as [reader|].
      * destruct (ending reader) as [|e].
        -- unfold closing_calls.
           set (texts := snd (decode_each TextDecoder.new (values reader))).
           destruct (truthy (trim (concat texts))).
           ++ exists (texts ++ [concat texts]), Complete.
              rewrite map_app, <- app_assoc. done.
           ++ exists texts, Complete. done.
        -- eexists _, _. split; [done|]. by split.
      * exists [], (Failed (lit "No response body reader available")). by repeat split.
    + eexists [], _. split; [done|]. by split.
  - eexists [], _. split; [done|]. by split.
Qed.

(** C10. For callbacks that return normally, every invocation of
    [sendMessage] returns normally (no exception reaches the caller);
    the state it leaves is the one its callbacks leave when invoked in
    the recorded order; and the invocations are chunk callbacks followed
    by exactly one terminal callback, which is [onComplete] exactly when
    the stream was read to exhaustion and [onError] otherwise (rejected
    request, non-success status, no body reader, failed read). *)
Theorem sendMessage_one_terminal_callback {St : Type}
    (fetch : ChatRequest -> js St Response)
    (onChunk : jsstring -> js St unit) (onComplete : js St unit)
    (onError : jsstring -> js St unit) (request : ChatRequest) (s : St) :
  (forall chunk s', fst (onChunk chunk s') = Normal tt) ->
  (forall s', fst (onComplete s') = Normal tt) ->
  (forall error s', fst (onError error s') = Normal tt) ->
  fst (sendMessage fetch onChunk onComplete onError request s) = Normal tt
  /\ snd (sendMessage fetch onChunk onComplete onError request s)
     = fold_left (invoke onChunk onComplete onError)
         (calls (fun _ => fst (fetch request s)) request) (snd (fetch request s))
  /\ exists chunks last_call,
       calls (fun _ => fst (fetch request s)) request = map Chunk chunks ++ [last_call]
       /\ terminal last_call = true
       /\ (last_call = Complete <-> read_to_exhaustion (fst (fetch request s)) = true)
       /\ (last_call <> Complete -> exists error, last_call = Failed error).
Proof.
  intros Hchunk Hcomplete Herror.
  rewrite (sendMessage_replay onChunk onComplete onError Hchunk Hcomplete Herror).
  split; [done|]. split; [done|].
  destruct (calls_shape (fun _ => fst (fetch request s)) request)
    as (chunks & last_call & Hcalls & Hterm & Hex).
  exists chunks, last_call. repeat split; try done; try apply Hex.
  intros Hne. destruct last_call; [done|done|by eexists].
Qed.

(** ** C5: the chunk steps of a send *)

Lemma deliver_chunks_content aid chunks f :
  assistantContent (fold_left (deliver aid) (map Chunk chunks) f)
  = assistantContent f ++ concat chunks.
Proof.
  revert f. induction chunks as [|c chunks IH]; intros f; simpl.
  - by rewrite app_nil_r.
  - rewrite IH. simpl. by rewrite <- app_assoc.
Qed.

Lemma deliver_chunks_messages aid chunks f base :
  messages (chatState (world f)) = replace_content aid (assistantContent f) base ->
  messages (chatState (world (fold_left (deliver aid) (map Chunk chunks) f)))
  = replace_content aid (assistantContent f ++ concat chunks) base.
Proof.
  revert f. induction chunks as [|c chunks IH]; intros f Hf; simpl.
  - by rewrite app_nil_r.
  - rewrite (IH (onChunk aid c f)).
    + simpl. by rewrite <- app_assoc.
    + rewrite messages_onChunk, Hf. apply replace_content_again.
Qed.

(** Chunk updaters that React applies together all read the same value
    of the variable: any number of them leaves what one leaves. *)
Lemma chunk_updaters_batched aid text n st :
  Nat.iter (S n) (chunk_updater aid text) st = chunk_updater aid text st.
Proof.
  induction n as [|n IH]; [done|].
  change (Nat.iter (S (S n)) (chunk_updater aid text) st)
    with (chunk_updater aid text (Nat.iter (S n) (chunk_updater aid text) st)).
  rewrite IH. unfold chunk_updater. simpl. by rewrite replace_content_again.
Qed.

(** With a fresh identifier the replacement touches the placeholder
    only. *)
Lemma replace_content_placeholder env w text :
  fresh_assistant_id env w ->
  replace_content (generateMessageId (assistant_draw env)) text
    (messages (chatState w) ++ [userMessage_of env w; assistantMessage_of env])
  = messages (chatState w)
    ++ [userMessage_of env w; Message.with_content text (assistantMessage_of env)].
Proof.
  intros Hfresh.
  change [userMessage_of env w; assistantMessage_of env]
    with ([userMessage_of env w] ++ [assistantMessage_of env]).
  rewrite (app_assoc (messages (chatState w))), replace_content_app.
  rewrite replace_content_fresh by done.
  rewrite <- app_assoc. simpl.
  by rewrite bool_decide_eq_true_2.
Qed.

Lemma messages_after_chunks env w chunks :
  fresh_assistant_id env w ->
  messages (chatState (world
    (fold_left (deliver (generateMessageId (assistant_draw env)))
       (map Chunk chunks) (requested env w))))
  = messages (chatState w)
    ++ [userMessage_of env w;
        Message.with_content (concat chunks) (assistantMessage_of env)].
Proof.
  intros Hfresh.
  rewrite (deliver_chunks_messages _ _ _
    (messages (chatState w) ++ [userMessage_of env w; assistantMessage_of env])).
  - by rewrite replace_content_placeholder.
  - rewrite messages_requested. simpl assistantContent.
    by rewrite replace_content_placeholder.
Qed.

(** C5. A chunk step of a send, after any chunks already applied:
    the sequence keeps its length, identifiers, roles, timestamps and
    order; at every position the message is the one that was there,
    with its content replaced only where its identifier is the
    assistant's.  For a send whose assistant identifier is fresh, the
    sequence before and after the step is the old sequence, the user
    message and the placeholder, whose content is the concatenation of
    the chunks in the order received: the step appends the new chunk to
    it, so each published content extends the previous one, and it is
    the value of the handler's variable [assistantContent]. *)
Theorem chunk_step_appends env w chunks chunk :
  fresh_assistant_id env w ->
  let aid := generateMessageId (assistant_draw env) in
  let before := fold_left (deliver aid) (map Chunk chunks) (requested env w) in
  let after := onChunk aid chunk before in
  messages (chatState (world before))
  = messages (chatState w)
    ++ [userMessage_of env w;
        Message.with_content (concat chunks) (assistantMessage_of env)]
  /\ messages (chatState (world after))
     = messages (chatState w)
       ++ [userMessage_of env w;
           Message.with_content (concat chunks ++ chunk) (assistantMessage_of env)]
  /\ assistantContent before = concat chunks
  /\ assistantContent after = concat chunks ++ chunk
  /\ (forall (f : Frame),
        length (messages (chatState (world (onChunk aid chunk f))))
        = length (messages (chatState (world f)))
        /\ map Message.id (messages (chatState (world (onChunk aid chunk f))))
           = map Message.id (messages (chatState (world f)))
        /\ map Message.role (messages (chatState (world (onChunk aid chunk f))))
           = map Message.role (messages (chatState (world f)))
        /\ map Message.timestamp (messages (chatState (world (onChunk aid chunk f))))
           = map Message.timestamp (messages (chatState (world f)))
        /\ forall i msg,
             messages (chatState (world f)) !! i = Some msg ->
             messages (chatState (world (onChunk aid chunk f))) !! i
             = Some (if bool_decide (Message.id msg = aid)
                     then Message.with_content (assistantContent f ++ chunk) msg
                     else msg)).
Proof.
  intros Hfresh aid before after.
  split; [by apply messages_after_chunks|].
  split.
  { pose proof (messages_after_chunks env w (chunks ++ [chunk]) Hfresh) as Hm.
    rewrite map_app, fold_left_app, concat_app in Hm. simpl in Hm.
    by rewrite app_nil_r in Hm. }
  assert (assistantContent before = concat chunks) as Hvar
    by apply (deliver_chunks_content aid chunks (requested env w)).
  split; [done|].
  split; [simpl; by rewrite Hvar|].
  intros f. rewrite messages_onChunk.
  rewrite replace_content_length, replace_content_ids, replace_content_roles,
    replace_content_timestamps.
  repeat split.
  intros i msg Hi. by rewrite replace_content_lookup, Hi.
Qed.

(** ** C6: the two flags along a session *)

Section Flags.
Context `{Platform}.

Lemma chatState_saveChatHistory msgs w :
  chatState (saveChatHistory msgs w) = chatState w.
Proof.
  unfold saveChatHistory. destruct (localStorage w) as [st|]; [|done].
  by destruct (Storage.setItem _ _ st).
Qed.

Lemma chatState_saveEffect w : chatState (saveEffect w) = chatState w.
Proof.
  unfold saveEffect. destruct (0 <? _)%nat; [|done].
  apply chatState_saveChatHistory.
Qed.

Lemma flags_reload window :
  isLoading (chatState (reload window)) = false
  /\ isTyping (chatState (reload window)) = false.
Proof.
  unfold reload, mountEffect. simpl.
  destruct window as [st|]; [|done].
  destruct (0 <? _)%nat; destruct (Storage.getItem "openai-api-key" st) as [k|];
    try destruct (truthy k); done.
Qed.

Lemma flags_callback a c w :
  isLoading (chatState (world (resume a c w)))
  = (if terminal c then false else isLoading (chatState w))
  /\ isTyping (chatState (world (resume a c w)))
     = (if terminal c then false else isTyping (chatState w)).
Proof. by destruct c. Qed.

(** What holds of every state of a session: the flags agree, they are
    raised exactly while a send is open, at most one send is open, and
    an open send ends with one terminal callback. *)
Lemma session_invariant s :
  reachable s ->
  isLoading (chatState (page s)) = isTyping (chatState (page s))
  /\ (isLoading (chatState (page s)) = true <-> activations s <> [])
  /\ (length (activations s) <= 1)%nat
  /\ Forall awaits_terminal (activations s).
Proof.
  induction 1 as [window | s s' Hreach IH Hstep].
  - simpl. rewrite chatState_saveEffect.
    destruct (flags_reload window) as [-> ->].
    repeat split; try done. lia.
  - destruct IH as (Hflags & Hopen & Hone & Hwait).
    destruct Hstep as [s value Hidle | s value | s env Hidle Hpre | s env Hidle Hpre
                      | s before a c rest after Hacts Hawait | s]; simpl.
    + done.
    + done.
    + destruct (handleSendMessage_refused env (page s) Hpre) as (-> & _). done.
    + rewrite chatState_saveEffect. simpl.
      assert (activations s = []) as ->.
      { destruct (activations s); [done|].
        assert (isLoading (chatState (page s)) = true) by (by apply Hopen).
        congruence. }
      repeat split; try done.
      constructor; [|done].
      destruct (calls_shape (network env) (request_of env (page s)))
        as (chunks & last_call & Hc & Ht & _).
      by exists chunks, last_call.
    + rewrite chatState_saveEffect.
      destruct (flags_callback a c (page s)) as [-> ->].
      rewrite Hacts in *.
      assert (before = [] /\ after = []) as [-> ->].
      { rewrite length_app in Hone. simpl in Hone.
        destruct before, after; simpl in *; try lia; done. }
      simpl in *. rewrite app_nil_r.
      apply Forall_cons_1 in Hwait as [(chunks & last_call & Hw & Ht) _].
      rewrite Hawait in Hw.
      destruct chunks as [|x chunks]; simpl in Hw; injection Hw as -> ->.
      * rewrite Ht. simpl. repeat split; try done. lia.
      * simpl terminal. cbv iota.
        assert (map Chunk chunks ++ [last_call] <> []) as Hne
          by (by destruct chunks).
        destruct (map Chunk chunks ++ [last_call]) as [|c' rest'] eqn:E; [done|].
        simpl. repeat split; try done.
        -- intros _. apply Hopen. done.
        -- constructor; [|done]. exists chunks, last_call. by rewrite <- E.
    + rewrite chatState_saveEffect.
      unfold clearChatHistory, storage_clearChatHistory. simpl.
      by destruct (localStorage (page s)).
Qed.

(** C6. In every state a session reaches, [isLoading] equals
    [isTyping], and they are true exactly while a send is open: from
    the step that initiates a send passing its precondition to the
    step of its terminal callback. *)
Theorem flags_agree_while_sending s :
  reachable s ->
  isLoading (chatState (page s)) = isTyping (chatState (page s))
  /\ (isLoading (chatState (page s)) = true <-> activations s <> []).
Proof.
  intros Hreach. destruct (session_invariant s Hreach) as (H1 & H2 & _). done.
Qed.

End Flags.

(** ** C9: clearing the history *)

Section Persisted.
Context `{Platform}.

Lemma messages_mountEffect w :
  messages (chatState (mountEffect w))
  = match localStorage w with
    | None => messages (chatState w)
    | Some _ =>
        if (0 <? length (getChatHistory w))%nat
        then map revive (getChatHistory w)
        else messages (chatState w)
    end.
Proof.
  unfold mountEffect. destruct (localStorage w) as [st|] eqn:E; [|done].
  destruct (0 <? length (getChatHistory w))%nat;
    destruct (Storage.getItem "openai-api-key" st) as [k|];
    try destruct (truthy k); done.
Qed.

(** C9. After the clear operation and the effects of the render that
    follows it, the message sequence in memory is empty, the store no
    longer holds an item under the history key, and a session started
    over that store begins with no message. *)
Theorem clear_history_empties w :
  messages (chatState (saveEffect (clearChatHistory w))) = []
  /\ (forall st,
        localStorage (saveEffect (clearChatHistory w)) = Some st ->
        Storage.getItem "chat-history" st = None)
  /\ getChatHistory (saveEffect (clearChatHistory w)) = []
  /\ messages (chatState (reload (localStorage (saveEffect (clearChatHistory w))))) = [].
Proof.
  assert (saveEffect (clearChatHistory w) = clearChatHistory w) as ->.
  { unfold saveEffect, clearChatHistory, storage_clearChatHistory. simpl.
    by destruct (localStorage w). }
  assert (forall st, localStorage (clearChatHistory w) = Some st ->
                     Storage.getItem "chat-history" st = None) as Hgone.
  { unfold clearChatHistory, storage_clearChatHistory. simpl.
    destruct (localStorage w) as [st0|] eqn:E; simpl.
    - intros st [= <-]. apply lookup_delete_eq.
    - rewrite E. by intros st [=]. }
  assert (messages (chatState (clearChatHistory w)) = []) as Hempty.
  { unfold clearChatHistory, storage_clearChatHistory. simpl.
    by destruct (localStorage w). }
  assert (forall w', (forall st, localStorage w' = Some st ->
                        Storage.getItem "chat-history" st = None) ->
                     getChatHistory w' = []) as Hget.
  { intros w' Hw'. unfold getChatHistory.
    destruct (localStorage w') as [st|]; [|done]. by rewrite (Hw' st). }
  repeat split; try done.
  - by apply Hget.
  - unfold reload. rewrite messages_mountEffect. simpl.
    destruct (localStorage (clearChatHistory w)) as [st|] eqn:E; [|done].
    rewrite Hget; [done|]. simpl. intros st' [= <-]. by apply Hgone.
Qed.

End Persisted.

(** ** C8: saving and reloading the history *)

Section RoundTrip.
Context `{PlatformLaws}.

Lemma getChatHistory_saved msgs w st st' :
  localStorage w = Some st ->
  Storage.setItem "chat-history" (JSON_stringify msgs) st = Some st' ->
  getChatHistory (initial (localStorage (saveChatHistory msgs w)))
  = map Message_toJSON msgs.
Proof.
  intros Hw Hset. unfold saveChatHistory. rewrite Hw, Hset. simpl.
  unfold getChatHistory. simpl.
  unfold Storage.setItem in Hset.
  destruct (Storage.admits st _); [|done]. injection Hset as <-.
  unfold Storage.getItem. simpl. rewrite lookup_insert_eq.
  unfold JSON_stringify.
  by rewrite JSON_serialize_truthy, JSON_parse_serialize.
Qed.

(** C8. When the store takes the write, saving a message sequence and
    starting a session over the store gives a sequence of the same
    length whose messages, position by position, have the identifier,
    content and role of the originals, and whose timestamp, parsed
    back from its serialized string, is the original instant. *)
Theorem saved_history_reloads msgs w st st' :
  localStorage w = Some st ->
  Storage.setItem "chat-history" (JSON_stringify msgs) st = Some st' ->
  let reloaded :=
    messages (chatState (reload (localStorage (saveChatHistory msgs w)))) in
  length reloaded = length msgs
  /\ forall i msg,
       msgs !! i = Some msg ->
       exists msg',
         reloaded !! i = Some msg'
         /\ Message.content msg' = Message.content msg
         /\ Message.role msg' = Message.role msg
         /\ Message.id msg' = Message.id msg
         /\ forall t, Message.timestamp msg = Instant t -> valid_time t ->
                      Message.timestamp msg' = Instant t.
Proof.
  intros Hw Hset reloaded.
  assert (reloaded = map revive (map Message_toJSON msgs)) as ->.
  { unfold reloaded, reload. rewrite messages_mountEffect.
    rewrite (getChatHistory_saved msgs w st st' Hw Hset).
    unfold saveChatHistory. rewrite Hw, Hset. simpl.
    by destruct msgs. }
  split; [by rewrite !length_map|].
  intros i msg Hi.
  exists (revive (Message_toJSON msg)).
  split; [by rewrite !list_lookup_fmap, Hi|].
  repeat split.
  intros t Ht Hvalid. simpl. rewrite Ht. simpl.
  by apply Date_parse_toISOString.
Qed.

End RoundTrip.

(** ** What a stream read to its end leaves in the placeholder *)

(** The content after a successful stream: the streamed text, followed
    by the same text once more when it is not blank, because the loop
    hands the whole buffer to [onChunk] again when the reader reports
    the end.  The streamed text is what the streaming decoder returns
    for the concatenated bytes; bytes of an unfinished character at the
    end are never flushed. *)
Lemma stream_content env w response reader :
  can_send w = true ->
  fresh_assistant_id env w ->
  network env (request_of env w) = Normal response ->
  ok response = true ->
  body response = Some reader ->
  ending reader = Closed ->
  let text := snd (TextDecoder.decode TextDecoder.new (concat (values reader))) in
  messages (chatState (handleSendMessage env w))
  = messages (chatState w)
    ++ [userMessage_of env w;
        Message.with_content (text ++ if truthy (trim text) then text else [])
          (assistantMessage_of env)].
Proof.
  intros Hsend Hfresh Hnet Hok Hbody Hend text.
  rewrite (handleSendMessage_deliver env w Hsend).
  rewrite calls_spec, Hnet, Hok, Hbody, Hend.
  assert (concat (snd (decode_each TextDecoder.new (values reader))) = text) as Htext.
  { unfold text. by rewrite decode_each_concat. }
  rewrite Htext. unfold closing_calls.
  set (texts := snd (decode_each TextDecoder.new (values reader))) in *.
  destruct (truthy (trim text)).
  - change ([Chunk text] ++ [Complete]) with (map Chunk [text] ++ [Complete]).
    rewrite app_assoc, <- map_app, fold_left_app. cbn [fold_left deliver].
    rewrite messages_onComplete, messages_after_chunks by done.
    rewrite concat_app, Htext. simpl. by rewrite app_nil_r.
  - rewrite fold_left_app. cbn [fold_left deliver].
    rewrite messages_onComplete, messages_after_chunks by done.
    by rewrite Htext, app_nil_r.
Qed.

(** ** C1 and C2 on concrete streams *)

(** C1, at the stream that delivers the two bytes of "Hi" in one chunk:
    the text decoding of the bytes is "Hi", and after the completion
    signal the content of the in-flight message is "HiHi". *)
Theorem streamed_text_is_repeated :
  TextDecoder.decode_all (concat [[0x48; 0x69]]) = lit "Hi"
  /\ calls (network Sample.hi) (request_of Sample.hi Sample.page)
     = [Chunk (lit "Hi"); Chunk (lit "Hi"); Complete]
  /\ Message.content <$> in_flight (handleSendMessage Sample.hi Sample.page)
     = Some (lit "HiHi")
  /\ isLoading (chatState (handleSendMessage Sample.hi Sample.page)) = false.
Proof. repeat split. Qed.

(** C2, at the stream that ends inside a two-byte character: when the
    reader reports the end, the decoder still holds the byte 0xC3,
    whose flush would be U+FFFD; the loop instead hands "Hi", the whole
    buffer, to [onChunk] a second time, then completes, and the pending
    byte is never emitted. *)
Theorem exhaustion_repeats_the_buffer :
  let decoder := fst (decode_each TextDecoder.new [[0x48; 0x69; 0xC3]]) in
  TextDecoder.pending decoder = true
  /\ snd (TextDecoder.flush decoder) = [0xFFFD]
  /\ calls (network Sample.hi_cut) (request_of Sample.hi_cut Sample.page)
     = [Chunk (lit "Hi"); Chunk (lit "Hi"); Complete]
  /\ Message.content <$> in_flight (handleSendMessage Sample.hi_cut Sample.page)
     = Some (lit "HiHi")
  /\ isLoading (chatState (handleSendMessage Sample.hi_cut Sample.page)) = false
  /\ isTyping (chatState (handleSendMessage Sample.hi_cut Sample.page)) = false.
Proof. repeat split. Qed.

(** ** The reference platform keeps the contracts *)

Module ReferenceFacts.
Import Reference.

(** *** Decimal fields *)

Lemma read_digits_digits width acc n rest :
  read_digits width acc (digits width n ++ rest)
  = Some (acc * 10 ^ Z.of_nat width + n mod 10 ^ Z.of_nat width, rest).
Proof.
  revert acc. induction width as [|k IH]; intros acc.
  - simpl. rewrite Z.mod_1_r. do 2 f_equal. lia.
  - cbn [digits read_digits app].
    assert (0 <= (n / 10 ^ Z.of_nat k) mod 10 < 10) as Hd
      by (apply Z.mod_pos_bound; lia).
    unfold is_digit.
    replace ((48 <=? 48 + (n / 10 ^ Z.of_nat k) mod 10)
             && (48 + (n / 10 ^ Z.of_nat k) mod 10 <=? 57)) with true
      by (symmetry; apply andb_true_iff; split; apply Z.leb_le; lia).
    rewrite IH. do 2 f_equal.
    rewrite Nat2Z.inj_succ, Z.pow_succ_r by lia.
    replace (10 * 10 ^ Z.of_nat k) with (10 ^ Z.of_nat k * 10) by ring.
    rewrite Z.rem_mul_r by lia.
    ring.
Qed.

Lemma read_digits_field width n rest :
  0 <= n < 10 ^ Z.of_nat width ->
  read_digits width 0 (digits width n ++ rest) = Some (n, rest).
Proof.
  intros Hn. rewrite read_digits_digits. do 2 f_equal.
  rewrite Z.mod_small by done. lia.
Qed.

Lemma digits_head_is_digit k n rest c s :
  digits (S k) n ++ rest = c :: s -> 48 <= c <= 57.
Proof.
  cbn [digits app]. intros [= <- _].
  assert (0 <= (n / 10 ^ Z.of_nat k) mod 10 < 10) by (apply Z.mod_pos_bound; lia).
  lia.
Qed.

(** *** Days and civil dates *)

(** The quotient and remainder of a division by a positive constant,
    as linear facts. *)
Ltac divide x d :=
  pose proof (Z.div_mod x d ltac:(lia));
  pose proof (Z.mod_pos_bound x d ltac:(lia)).

Lemma split_era_spec doe :
  0 <= doe < 146097 ->
  let '(yoe, doy) := split_era doe in
  0 <= yoe < 400 /\ 0 <= doy <= 365
  /\ doe = yoe * 365 + yoe / 4 - yoe / 100 + doy.
Proof.
  intros Hdoe. unfold split_era.
  set (century := Z.min (doe / 36524) 3).
  set (doc := doe - century * 36524).
  set (cycle := Z.min (doc / 1461) 24).
  set (doq := doc - cycle * 1461).
  set (yoq := Z.min (doq / 365) 3).
  assert (0 <= century <= 3 /\ 0 <= doc <= 36524) as [Hc Hdoc].
  { unfold doc, century. divide doe 36524. lia. }
  assert (0 <= cycle <= 24 /\ 0 <= doq <= 1460) as [Hq Hdoq].
  { unfold doq, cycle. divide doc 1461. lia. }
  assert (0 <= yoq <= 3 /\ 0 <= doq - yoq * 365 <= 365) as [Hy Hdoy].
  { unfold yoq. divide doq 365. lia. }
  split; [lia|]. split; [lia|].
  rewrite <- (Z.div_unique (century * 100 + cycle * 4 + yoq) 4
                (century * 25 + cycle) yoq) by lia.
  rewrite <- (Z.div_unique (century * 100 + cycle * 4 + yoq) 100
                century (cycle * 4 + yoq)) by lia.
  unfold doq, doc. lia.
Qed.

Lemma month_day_spec doy :
  0 <= doy <= 365 ->
  0 <= (5 * doy + 2) / 153 <= 11
  /\ 1 <= doy - days_before_month ((5 * doy + 2) / 153) + 1 <= 31.
Proof.
  intros Hdoy. unfold days_before_month.
  divide (5 * doy + 2) 153.
  divide (153 * ((5 * doy + 2) / 153) + 2) 5.
  lia.
Qed.

(** The month and the date are in range, the year within its era. *)
Lemma civil_from_days_range day :
  let '(y, m, d) := civil_from_days day in
  1 <= m <= 12 /\ 1 <= d <= 31
  /\ (day + 719468) / 146097 * 400 <= y <= (day + 719468) / 146097 * 400 + 400.
Proof.
  unfold civil_from_days.
  pose proof (split_era_spec ((day + 719468) mod 146097)
                ltac:(apply Z.mod_pos_bound; lia)) as Hera.
  destruct (split_era ((day + 719468) mod 146097)) as [yoe doy].
  destruct Hera as (Hyoe & Hdoy & _).
  destruct (month_day_spec doy Hdoy) as [Hmp Hd].
  set (mp := (5 * doy + 2) / 153) in *.
  destruct (mp <? 10) eqn:E1.
  - apply Z.ltb_lt in E1. destruct (mp + 3 <=? 2) eqn:E2;
      [apply Z.leb_le in E2; lia|]. repeat split; lia.
  - apply Z.ltb_ge in E1. destruct (mp - 9 <=? 2) eqn:E2;
      [|apply Z.leb_gt in E2; lia]. repeat split; lia.
Qed.

(** The day number of the civil date of a day number is that day
    number. *)
Lemma days_from_civil_from_days day :
  let '(y, m, d) := civil_from_days day in days_from_civil y m d = day.
Proof.
  unfold civil_from_days.
  divide (day + 719468) 146097.
  pose proof (split_era_spec ((day + 719468) mod 146097) ltac:(lia)) as Hera.
  destruct (split_era ((day + 719468) mod 146097)) as [yoe doy].
  destruct Hera as (Hyoe & Hdoy & Hdoe).
  destruct (month_day_spec doy Hdoy) as [Hmp Hd].
  set (era := (day + 719468) / 146097) in *.
  set (mp := (5 * doy + 2) / 153) in *.
  set (m := if mp <? 10 then mp + 3 else mp - 9).
  assert ((m <=? 2) = negb (mp <? 10) /\ (if 2 <? m then m - 3 else m + 9) = mp)
    as [Hm Hmp'].
  { unfold m. destruct (mp <? 10) eqn:E1.
    - apply Z.ltb_lt in E1. split; [apply Z.leb_gt; lia|].
      destruct (2 <? mp + 3) eqn:E2; [lia|apply Z.ltb_ge in E2; lia].
    - apply Z.ltb_ge in E1. split; [apply Z.leb_le; lia|].
      destruct (2 <? mp - 9) eqn:E2; [apply Z.ltb_lt in E2; lia|lia]. }
  unfold days_from_civil. rewrite Hm, Hmp'.
  assert ((if negb (mp <? 10)
           then (if negb (mp <? 10) then era * 400 + yoe + 1 else era * 400 + yoe) - 1
           else (if negb (mp <? 10) then era * 400 + yoe + 1 else era * 400 + yoe))
          = yoe + era * 400) as -> by (destruct (mp <? 10); simpl; lia).
  rewrite Z.div_add, Z.mod_add by lia.
  rewrite Z.div_small, Z.mod_small by lia.
  lia.
Qed.

(** *** Date-time strings *)

Lemma read_year_year_digits y rest :
  -1000000 < y < 1000000 ->
  read_year (year_digits y ++ rest) = Some (y, rest).
Proof.
  intros Hy. unfold year_digits.
  destruct ((0 <=? y) && (y <=? 9999)) eqn:E.
  - apply andb_true_iff in E as [E1 E2]. apply Z.leb_le in E1, E2.
    destruct (digits 4 y ++ rest) as [|c s] eqn:Es; [done|].
    pose proof (digits_head_is_digit _ _ _ _ _ Es) as Hc.
    unfold read_year.
    destruct (c =? 43) eqn:E43; [apply Z.eqb_eq in E43; lia|].
    destruct (c =? 45) eqn:E45; [apply Z.eqb_eq in E45; lia|].
    rewrite <- Es. apply read_digits_field. simpl. lia.
  - destruct (y <? 0) eqn:Eneg.
    + apply Z.ltb_lt in Eneg. rewrite <- app_assoc.
      assert (forall s, read_year (lit "-" ++ s)
                = match read_digits 6 0 s with
                  | Some (y0, rest0) => if y0 =? 0 then None else Some (- y0, rest0)
                  | None => None
                  end) as -> by done.
      rewrite read_digits_field by (simpl; lia).
      destruct (- y =? 0) eqn:E0; [apply Z.eqb_eq in E0; lia|].
      do 2 f_equal. lia.
    + rewrite <- app_assoc.
      assert (forall s, read_year (lit "+" ++ s) = read_digits 6 0 s) as -> by done.
      apply Z.ltb_ge in Eneg.
      apply read_digits_field. simpl. lia.
Qed.

Lemma read_fields_fields y m d hh mm ss sss :
  -1000000 < y < 1000000 ->
  0 <= m < 100 -> 0 <= d < 100 -> 0 <= hh < 100 -> 0 <= mm < 100 ->
  0 <= ss < 100 -> 0 <= sss < 1000 ->
  read_fields
    (year_digits y ++ lit "-" ++ digits 2 m ++ lit "-" ++ digits 2 d
     ++ lit "T" ++ digits 2 hh ++ lit ":" ++ digits 2 mm
     ++ lit ":" ++ digits 2 ss ++ lit "." ++ digits 3 sss ++ lit "Z")
  = Some (y, m, d, hh, mm, ss, sss).
Proof.
  intros Hy Hm Hd Hhh Hmm Hss Hsss. unfold read_fields.
  rewrite read_year_year_digits by done. cbn [mbind option_bind].
  change (expect 45 (lit "-" ++ ?r)) with (Some r). cbn [mbind option_bind].
  rewrite read_digits_field by (simpl; lia). cbn [mbind option_bind].
  change (expect 45 (lit "-" ++ ?r)) with (Some r). cbn [mbind option_bind].
  rewrite read_digits_field by (simpl; lia). cbn [mbind option_bind].
  change (expect 84 (lit "T" ++ ?r)) with (Some r). cbn [mbind option_bind].
  rewrite read_digits_field by (simpl; lia). cbn [mbind option_bind].
  change (expect 58 (lit ":" ++ ?r)) with (Some r). cbn [mbind option_bind].
  rewrite read_digits_field by (simpl; lia). cbn [mbind option_bind].
  change (expect 58 (lit ":" ++ ?r)) with (Some r). cbn [mbind option_bind].
  rewrite read_digits_field by (simpl; lia). cbn [mbind option_bind].
  change (expect 46 (lit "." ++ ?r)) with (Some r). cbn [mbind option_bind].
  rewrite read_digits_field by (simpl; lia).
  reflexivity.
Qed.

(** Parsing the date-time string of a time value gives it back. *)
Lemma parse_toISOString t :
  valid_time t -> parse (toISOString t) = Instant t.
Proof.
  intros Ht. unfold valid_time in Ht. unfold toISOString.
  pose proof (civil_from_days_range (t / msPerDay)) as Hrange.
  pose proof (days_from_civil_from_days (t / msPerDay)) as Hdays.
  destruct (civil_from_days (t / msPerDay)) as [[y m] d].
  destruct Hrange as (Hm & Hd & Hy).
  unfold msPerDay in *.
  divide t 86400000.
  set (ms := t mod 86400000) in *.
  set (day := t / 86400000) in *.
  assert (-1000000 < y < 1000000) as Hy' by (divide (day + 719468) 146097; lia).
  divide ms 3600000. divide ms 60000. divide (ms / 60000) 60.
  divide ms 1000. divide (ms / 1000) 60.
  unfold parse. rewrite read_fields_fields by lia.
  rewrite Hdays. unfold msPerDay.
  replace ((1 <=? m) && (m <=? 12) && (1 <=? d) && (d <=? 31)
           && (ms / 3600000 <=? 23) && ((ms / 60000) mod 60 <=? 59)
           && ((ms / 1000) mod 60 <=? 59)) with true
    by (symmetry; repeat (apply andb_true_iff; split); apply Z.leb_le; lia).
  assert (day * 86400000 + ms / 3600000 * 3600000 + (ms / 60000) mod 60 * 60000
          + (ms / 1000) mod 60 * 1000 + ms mod 1000 = t) as ->.
  { assert (ms / 60000 / 60 = ms / 3600000) as E1
      by (rewrite Z.div_div by lia; done).
    assert (ms / 1000 / 60 = ms / 60000) as E2
      by (rewrite Z.div_div by lia; done).
    lia. }
  replace ((-8640000000000000 <=? t) && (t <=? 8640000000000000)) with true
    by (symmetry; apply andb_true_iff; split; apply Z.leb_le; lia).
  done.
Qed.


(** *** JSON strings *)

Lemma hex_value_digit n : 0 <= n < 16 -> hex_value (hex_digit n) = Some n.
Proof.
  intros Hn. destruct n as [|p|p]; [done| |lia].
  do 4 (try (destruct p as [p|p|]; try lia)); reflexivity.
Qed.

Lemma read_units_unicode_escape c tail :
  0 <= c < 65536 ->
  read_units (unicode_escape c ++ tail) = behind c (read_units tail).
Proof.
  intros Hc. unfold unicode_escape. cbn [app read_units].
  change (92 =? 34) with false. change (92 =? 92) with true.
  change (117 =? 117) with true. cbv iota.
  rewrite !hex_value_digit by (apply Z.mod_pos_bound; lia).
  cbn [mbind option_bind].
  assert ((c / 4096) mod 16 * 4096 + (c / 256) mod 16 * 256
          + (c / 16) mod 16 * 16 + c mod 16 = c) as ->; [|done].
  divide c 16. divide (c / 16) 16. divide (c / 256) 16. divide (c / 4096) 16.
  assert (c / 16 / 16 = c / 256) by (rewrite Z.div_div by lia; done).
  assert (c / 256 / 16 = c / 4096) by (rewrite Z.div_div by lia; done).
  assert (c / 4096 / 16 = 0).
  { rewrite Z.div_div by lia. apply Z.div_small. lia. }
  lia.
Qed.

Lemma read_units_plain c tail :
  c <> 34 -> c <> 92 -> is_control c = false ->
  read_units (c :: tail) = behind c (read_units tail).
Proof.
  intros H34 H92 Hctl. cbn [read_units].
  destruct (c =? 34) eqn:E1; [apply Z.eqb_eq in E1; done|].
  destruct (c =? 92) eqn:E2; [apply Z.eqb_eq in E2; done|].
  by rewrite Hctl.
Qed.

Lemma read_units_escape_unit c tail :
  read_units (escape_unit c ++ tail) = behind c (read_units tail).
Proof.
  unfold escape_unit.
  destruct (c =? 8) eqn:E8; [apply Z.eqb_eq in E8; by subst|].
  destruct (c =? 9) eqn:E9; [apply Z.eqb_eq in E9; by subst|].
  destruct (c =? 10) eqn:E10; [apply Z.eqb_eq in E10; by subst|].
  destruct (c =? 12) eqn:E12; [apply Z.eqb_eq in E12; by subst|].
  destruct (c =? 13) eqn:E13; [apply Z.eqb_eq in E13; by subst|].
  destruct (c =? 34) eqn:E34; [apply Z.eqb_eq in E34; by subst|].
  destruct (c =? 92) eqn:E92; [apply Z.eqb_eq in E92; by subst|].
  apply Z.eqb_neq in E34, E92.
  destruct (is_control c || is_high_surrogate c || is_low_surrogate c) eqn:E.
  - apply read_units_unicode_escape.
    unfold is_control, is_high_surrogate, is_low_surrogate in E.
    apply orb_true_iff in E as [E|E]; [apply orb_true_iff in E as [E|E]|];
      apply andb_true_iff in E as [Ea Eb]; lia.
  - apply orb_false_iff in E as [E _]. apply orb_false_iff in E as [E _].
    by apply read_units_plain.
Qed.

Lemma read_units_quote_units s rest :
  read_units (quote_units s ++ 34 :: rest) = Some (s, rest).
Proof.
  assert (forall n s, (length s <= n)%nat ->
            read_units (quote_units s ++ 34 :: rest) = Some (s, rest)) as Hall.
  { clear s. induction n as [|n IH]; intros s Hlen.
    - destruct s; [done|simpl in Hlen; lia].
    - destruct s as [|c s1]; [done|]. simpl in Hlen.
      cbn [quote_units].
      destruct (is_high_surrogate c) eqn:Ehigh.
      + assert (0 <= c < 65536 /\ c <> 34 /\ c <> 92 /\ is_control c = false)
          as (Hc & H34 & H92 & Hctl).
        { unfold is_high_surrogate in Ehigh. unfold is_control.
          apply andb_true_iff in Ehigh as [Ea Eb].
          repeat split; lia. }
        destruct s1 as [|c2 s2].
        * rewrite read_units_unicode_escape by done. done.
        * destruct (is_low_surrogate c2) eqn:Elow.
          -- assert (c2 <> 34 /\ c2 <> 92 /\ is_control c2 = false)
               as (H34' & H92' & Hctl').
             { unfold is_low_surrogate in Elow. unfold is_control.
               apply andb_true_iff in Elow as [Ea Eb].
               repeat split; lia. }
             cbn [app].
             rewrite read_units_plain, read_units_plain by done.
             rewrite IH by (simpl in Hlen; lia). done.
          -- rewrite <- app_assoc, read_units_unicode_escape by done.
             rewrite IH by lia. done.
      + rewrite <- app_assoc, read_units_escape_unit.
        rewrite IH by lia. done. }
  by apply (Hall (length s)).
Qed.

Lemma read_string_quote s rest :
  read_string (quote s ++ rest) = Some (s, rest).
Proof.
  unfold read_string, quote. cbn [app expect].
  change (34 =? 34) with true. cbn [mbind option_bind].
  rewrite <- app_assoc. apply read_units_quote_units.
Qed.

Lemma role_of_name_role_name r : role_of_name (role_name r) = Some r.
Proof. by destruct r. Qed.

(** *** JSON arrays of messages *)

Lemma read_message_write_message msg rest :
  read_message (write_message msg ++ rest) = Some (msg, rest).
Proof.
  unfold read_message, write_message.
  rewrite <- !app_assoc.
  assert (forall text tail, expect_all text (text ++ tail) = Some tail) as Hexpect.
  { induction text as [|c text IH]; intros tail; [done|].
    cbn [app expect_all expect]. rewrite Z.eqb_refl. cbn [mbind option_bind].
    apply IH. }
  rewrite (app_assoc (lit "{") (key "id")), Hexpect. cbn [mbind option_bind].
  rewrite read_string_quote. cbn [mbind option_bind].
  rewrite (app_assoc (lit ",") (key "content")), Hexpect. cbn [mbind option_bind].
  rewrite read_string_quote. cbn [mbind option_bind].
  rewrite (app_assoc (lit ",") (key "role")), Hexpect. cbn [mbind option_bind].
  rewrite read_string_quote. cbn [mbind option_bind].
  rewrite role_of_name_role_name. cbn [mbind option_bind].
  rewrite (app_assoc (lit ",") (key "timestamp")), Hexpect. cbn [mbind option_bind].
  destruct msg as [id content role [text|]]; cbn [Stored.timestamp].
  - assert (read_timestamp (quote text ++ lit "}" ++ rest)
            = Some (Some text, lit "}" ++ rest)) as ->.
    { unfold read_timestamp.
      change (quote text ++ lit "}" ++ rest)
        with (34 :: (quote_units text ++ [34]) ++ lit "}" ++ rest).
      change (34 =? 34) with true. cbv iota.
      change (34 :: (quote_units text ++ [34]) ++ lit "}" ++ rest)
        with (quote text ++ lit "}" ++ rest).
      by rewrite read_string_quote. }
    done.
  - done.
Qed.

Lemma read_more_write_more fuel msgs :
  (length msgs < fuel)%nat -> read_more fuel (write_more msgs) = Some msgs.
Proof.
  revert fuel. induction msgs as [|msg msgs IH]; intros fuel Hfuel.
  - destruct fuel; [lia|done].
  - destruct fuel as [|fuel]; [lia|]. simpl in Hfuel.
    cbn [write_more read_more].
    change (lit "," ++ write_message msg ++ write_more msgs)
      with (44 :: write_message msg ++ write_more msgs).
    change (44 =? 93) with false. change (44 =? 44) with true. cbv iota.
    rewrite read_message_write_message. cbn [mbind option_bind].
    rewrite IH by lia. done.
Qed.

Lemma length_write_more msgs : (length msgs < length (write_more msgs))%nat.
Proof.
  induction msgs as [|msg msgs IH]; simpl; [lia|].
  rewrite length_app. lia.
Qed.

(** Parsing the text written for an array gives the array back. *)
Lemma parse_array_stringify msgs : parse_array (stringify msgs) = Some msgs.
Proof.
  destruct msgs as [|msg msgs]; [done|].
  assert (forall body tail, body = 123 :: tail ->
            parse_array (91 :: body)
            = '(first, rest) ← read_message body;
              others ← read_more (S (length body)) rest;
              Some (first :: others)) as Hbody.
  { by intros body tail ->. }
  change (stringify (msg :: msgs))
    with (91 :: write_message msg ++ write_more msgs).
  rewrite (Hbody (write_message msg ++ write_more msgs) _ eq_refl).
  rewrite read_message_write_message. cbn [mbind option_bind].
  rewrite read_more_write_more; [done|].
  pose proof (length_write_more msgs). rewrite length_app. lia.
Qed.

Lemma stringify_truthy msgs : truthy (stringify msgs) = true.
Proof. by destruct msgs. Qed.

End ReferenceFacts.

#[global] Instance reference_laws : PlatformLaws (H := Reference.platform).
Proof.
  split.
  - apply ReferenceFacts.parse_array_stringify.
  - apply ReferenceFacts.stringify_truthy.
  - apply ReferenceFacts.parse_toISOString.
Qed.

(** ** The properties at the samples *)

Lemma refused_send_appends_nothing_at_sample :
  apiKey Sample.page_without_key = []
  /\ messages (chatState (handleSendMessage Sample.hi Sample.page_without_key)) = []
  /\ requests (handleSendMessage Sample.hi Sample.page_without_key) = [].
Proof.
  split; [reflexivity|].
  destruct (refused_send_appends_nothing Sample.hi Sample.page_without_key
              (or_intror eq_refl)) as (Hm & _ & Hr).
  split; [exact Hm | exact Hr].
Defined.

Lemma http_error_reported_at_500 :
  ok {| status := 500;
        body := Some {| values := [[0x6F; 0x6F; 0x70; 0x73]]; ending := Closed |} |}
  = false
  /\ Message.content <$> in_flight (handleSendMessage (Sample.answers 500) Sample.page)
     = Some (lit "Error: HTTP error! status: 500")
  /\ isLoading (chatState (handleSendMessage (Sample.answers 500) Sample.page)) = false
  /\ isTyping (chatState (handleSendMessage (Sample.answers 500) Sample.page)) = false.
Proof.
  split; [reflexivity|].
  destruct (http_error_reported (Sample.answers 500) Sample.page _
              eq_refl eq_refl eq_refl) as (_ & _ & Hm & _ & Hl & Ht).
  split; [|split; [exact Hl | exact Ht]].
  rewrite Hm. reflexivity.
Defined.

Lemma empty_stream_completes_at_sample :
  can_send Sample.page = true
  /\ in_flight (handleSendMessage (Sample.streams []) Sample.page)
     = Some (assistantMessage_of (Sample.streams []))
  /\ isLoading (chatState (handleSendMessage (Sample.streams []) Sample.page)) = false
  /\ isTyping (chatState (handleSendMessage (Sample.streams []) Sample.page)) = false.
Proof.
  split; [reflexivity|].
  destruct (empty_stream_completes (Sample.streams []) Sample.page _ _
              eq_refl eq_refl eq_refl eq_refl eq_refl eq_refl)
    as (_ & _ & Hm & _ & Hl & Ht).
  split; [exact Hm | split; [exact Hl | exact Ht]].
Defined.

Lemma sample_id_is_fresh : fresh_assistant_id Sample.hi Sample.page.
Proof. intros [H|[]]. discriminate H. Qed.

Lemma chunk_step_appends_at_sample :
  fresh_assistant_id Sample.hi Sample.page
  /\ Message.content <$>
       in_flight (world
         (onChunk (generateMessageId (assistant_draw Sample.hi)) (lit "lo")
            (fold_left (deliver (generateMessageId (assistant_draw Sample.hi)))
               (map Chunk [lit "He"; lit "l"]) (requested Sample.hi Sample.page))))
     = Some (lit "Hello").
Proof.
  split; [exact sample_id_is_fresh|].
  destruct (chunk_step_appends Sample.hi Sample.page [lit "He"; lit "l"] (lit "lo")
              sample_id_is_fresh) as (_ & Hafter & _).
  unfold in_flight. rewrite Hafter. reflexivity.
Defined.

Lemma sample_session_reachable :
  reachable (H := Reference.platform) SampleStore.sending.
Proof.
  apply (reachable_step SampleStore.keyed).
  - apply (reachable_step SampleStore.typed).
    + apply (reachable_step SampleStore.started).
      * exact (reachable_start None).
      * exact (step_input SampleStore.started (lit " Hello ") eq_refl).
    + exact (step_apiKey SampleStore.typed (lit "sk-test")).
  - exact (step_send SampleStore.keyed Sample.hi eq_refl eq_refl).
Qed.

Lemma flags_agree_while_sending_at_sample :
  isLoading (chatState (page SampleStore.sending)) = true
  /\ isTyping (chatState (page SampleStore.sending)) = true
  /\ activations SampleStore.sending <> [].
Proof.
  destruct (flags_agree_while_sending SampleStore.sending sample_session_reachable)
    as (Hagree & Hopen).
  assert (isLoading (chatState (page SampleStore.sending)) = true) as Hl
    by (apply Hopen; discriminate).
  split; [exact Hl|]. split; [rewrite <- Hagree; exact Hl | discriminate].
Defined.

Lemma saved_history_reloads_at_sample :
  Storage.setItem "chat-history" (JSON_stringify SampleStore.history) SampleStore.empty
  = Some SampleStore.saved
  /\ messages (chatState (reload (localStorage
       (saveChatHistory SampleStore.history (initial (Some SampleStore.empty))))))
     !! 1%nat
     = Some SampleStore.answer.
Proof.
  assert (Storage.setItem "chat-history" (JSON_stringify SampleStore.history)
            SampleStore.empty = Some SampleStore.saved) as Hset by reflexivity.
  split; [exact Hset|].
  destruct (saved_history_reloads SampleStore.history (initial (Some SampleStore.empty))
              SampleStore.empty SampleStore.saved eq_refl Hset) as (_ & Hall).
  destruct (Hall 1%nat SampleStore.answer eq_refl) as (msg' & Hat & Hc & Hr & Hi & Ht).
  rewrite Hat. f_equal.
  specialize (Ht 1700000000001 eq_refl ltac:(unfold valid_time; lia)).
  destruct msg' as [i c r t].
  cbn [Message.id Message.content Message.role Message.timestamp] in Hc, Hr, Hi, Ht.
  rewrite Hc, Hr, Hi, Ht. reflexivity.
Defined.

Lemma sendMessage_one_terminal_callback_at_sample :
  fst (sendMessage (fun _ log => (network Sample.hi_cut (request_of Sample.hi_cut Sample.page), log))
         log_chunk (record Complete) log_error
         (request_of Sample.hi_cut Sample.page) [])
  = Normal tt
  /\ exists chunks last_call,
       calls (fun _ => network Sample.hi_cut (request_of Sample.hi_cut Sample.page))
         (request_of Sample.hi_cut Sample.page)
       = map Chunk chunks ++ [last_call]
       /\ last_call = Complete.
Proof.
  destruct (sendMessage_one_terminal_callback
              (fun _ log => (network Sample.hi_cut (request_of Sample.hi_cut Sample.page), log))
              log_chunk (record Complete) log_error
              (request_of Sample.hi_cut Sample.page) []
              (fun _ _ => eq_refl) (fun _ => eq_refl) (fun _ _ => eq_refl))
    as (Hret & _ & chunks & last_call & Hcalls & _ & Hex & _).
  split; [exact Hret|].
  exists chunks, last_call. split; [exact Hcalls|].
  apply Hex. reflexivity.
Defined.

(** * Further properties *)

(** ** [trim] *)

Lemma trimStart_head s c : head (trimStart s) = Some c -> isWhiteSpace c = false.
Proof.
  induction s as [|x s IH]; simpl; [done|].
  destruct (isWhiteSpace x) eqn:E; [done|].
  simpl. by intros [= <-].
Qed.

Lemma trimStart_suffix s : exists blanks, s = blanks ++ trimStart s.
Proof.
  induction s as [|x s [blanks IH]]; simpl; [by exists []|].
  destruct (isWhiteSpace x).
  - exists (x :: blanks). simpl. by rewrite <- IH.
  - by exists [].
Qed.

Lemma trimEnd_prefix s : exists blanks, s = trimEnd s ++ blanks.
Proof.
  unfold trimEnd. destruct (trimStart_suffix (rev s)) as [blanks Hs].
  exists (rev blanks).
  rewrite <- rev_app_distr, <- Hs. by rewrite rev_involutive.
Qed.

Lemma last_rev_head (l : jsstring) : last (rev l) = head l.
Proof. destruct l as [|x l]; [done|]. simpl. apply last_snoc. Qed.

Lemma trimEnd_last s c : last (trimEnd s) = Some c -> isWhiteSpace c = false.
Proof. unfold trimEnd. rewrite last_rev_head. apply trimStart_head. Qed.

(** A trimmed text neither starts nor ends with white space. *)
Lemma trim_ends s :
  (forall c, head (trim s) = Some c -> isWhiteSpace c = false)
  /\ (forall c, last (trim s) = Some c -> isWhiteSpace c = false).
Proof.
  unfold trim. split; [|apply trimEnd_last].
  intros c Hc. apply (trimStart_head s).
  destruct (trimEnd_prefix (trimStart s)) as [blanks Hs].
  rewrite Hs. by destruct (trimEnd (trimStart s)).
Qed.

Lemma truthy_nonempty (s : jsstring) : truthy s = true <-> s <> [].
Proof. by destruct s. Qed.

(** ** What every callback leaves alone *)

Lemma deliver_surroundings aid f c :
  surroundings (world (deliver aid f c)) = surroundings (world f).
Proof. by destruct c. Qed.

Lemma deliver_ids aid f c :
  map Message.id (messages (chatState (world (deliver aid f c))))
  = map Message.id (messages (chatState (world f))).
Proof. destruct c; [apply replace_content_ids|done|apply replace_content_ids]. Qed.

Lemma deliver_roles aid f c :
  map Message.role (messages (chatState (world (deliver aid f c))))
  = map Message.role (messages (chatState (world f))).
Proof. destruct c; [apply replace_content_roles|done|apply replace_content_roles]. Qed.

Lemma deliver_timestamps aid f c :
  map Message.timestamp (messages (chatState (world (deliver aid f c))))
  = map Message.timestamp (messages (chatState (world f))).
Proof.
  destruct c; [apply replace_content_timestamps|done|apply replace_content_timestamps].
Qed.

Lemma deliver_all_keeps aid cs f :
  surroundings (world (fold_left (deliver aid) cs f)) = surroundings (world f)
  /\ map Message.id (messages (chatState (world (fold_left (deliver aid) cs f))))
     = map Message.id (messages (chatState (world f)))
  /\ map Message.role (messages (chatState (world (fold_left (deliver aid) cs f))))
     = map Message.role (messages (chatState (world f)))
  /\ map Message.timestamp (messages (chatState (world (fold_left (deliver aid) cs f))))
     = map Message.timestamp (messages (chatState (world f))).
Proof.
  revert f. induction cs as [|c cs IH]; intros f; simpl; [done|].
  destruct (IH (deliver aid f c)) as (-> & -> & -> & ->).
  by rewrite deliver_surroundings, deliver_ids, deliver_roles, deliver_timestamps.
Qed.

Lemma deliver_terminal_flags aid f c :
  terminal c = true ->
  isLoading (chatState (world (deliver aid f c))) = false
  /\ isTyping (chatState (world (deliver aid f c))) = false.
Proof. by destruct c. Qed.

(** ** An accepted send, whatever the network does *)

Lemma handleSendMessage_accepted env w :
  can_send w = true ->
  surroundings (handleSendMessage env w)
  = surroundings (world (requested env w))
  /\ map Message.id (messages (chatState (handleSendMessage env w)))
     = map Message.id (messages (chatState (world (requested env w))))
  /\ map Message.role (messages (chatState (handleSendMessage env w)))
     = map Message.role (messages (chatState (world (requested env w))))
  /\ map Message.timestamp (messages (chatState (handleSendMessage env w)))
     = map Message.timestamp (messages (chatState (world (requested env w))))
  /\ isLoading (chatState (handleSendMessage env w)) = false
  /\ isTyping (chatState (handleSendMessage env w)) = false.
Proof.
  intros Hsend. rewrite (handleSendMessage_deliver env w Hsend).
  set (aid := generateMessageId (assistant_draw env)).
  destruct (deliver_all_keeps aid (calls (network env) (request_of env w))
              (requested env w)) as (-> & -> & -> & ->).
  destruct (calls_shape (network env) (request_of env w))
    as (chunks & last_call & -> & Hterm & _).
  rewrite fold_left_app. cbn [fold_left].
  destruct (deliver_terminal_flags aid
              (fold_left (deliver aid) (map Chunk chunks) (requested env w))
              last_call Hterm) as [-> ->].
  done.
Qed.


(** The request of an accepted send carries the trimmed input, which is
    not empty and neither starts nor ends with white space; that text
    is the content of the user message; the key goes out as typed, and
    the model is fixed. *)
Theorem sent_text_is_trimmed env w :
  can_send w = true ->
  last (requests (handleSendMessage env w)) = Some (request_of env w)
  /\ user_message (request_of env w) = trim (inputMessage w)
  /\ Message.content (userMessage_of env w) = user_message (request_of env w)
  /\ user_message (request_of env w) <> []
  /\ (forall c, head (user_message (request_of env w)) = Some c -> isWhiteSpace c = false)
  /\ (forall c, last (user_message (request_of env w)) = Some c -> isWhiteSpace c = false)
  /\ api_key (request_of env w) = apiKey w
  /\ model (request_of env w) = Some (lit "gpt-4o-mini").
Proof.
  intros Hsend.
  destruct (handleSendMessage_accepted env w Hsend) as (Hsur & _).
  unfold surroundings in Hsur. injection Hsur as _ _ _ _ _ _ _ -> _.
  cbn [requested world requests note_request]. rewrite last_snoc.
  destruct (trim_ends (inputMessage w)) as [Hhead Hlast].
  unfold can_send in Hsend. apply andb_true_iff in Hsend as [Htext _].
  apply truthy_nonempty in Htext.
  by repeat split.
Qed.

(** ** The failures of a send *)

Lemma last_replace aid text msgs :
  last (replace_content aid text msgs)
  = (fun msg => if bool_decide (Message.id msg = aid)
                then Message.with_content text msg else msg) <$> last msgs.
Proof.
  unfold replace_content.
  induction msgs as [|m [|m' msgs] IH]; [done|done|].
  exact IH.
Qed.

(** The last message of an open send is the placeholder, whatever its
    content has become. *)
Lemma last_is_placeholder env w cs :
  exists text,
    last (messages (chatState (world
      (fold_left (deliver (generateMessageId (assistant_draw env))) cs
         (requested env w)))))
    = Some (Message.with_content text (assistantMessage_of env)).
Proof.
  set (aid := generateMessageId (assistant_draw env)).
  assert (forall f,
            (exists text, last (messages (chatState (world f)))
                          = Some (Message.with_content text (assistantMessage_of env))) ->
            exists text, last (messages (chatState (world (fold_left (deliver aid) cs f))))
                         = Some (Message.with_content text (assistantMessage_of env)))
    as Hall.
  { induction cs as [|c cs IH]; intros f Hf; [done|].
    simpl. apply IH. destruct Hf as [text Hf].
    assert (forall t, exists text',
              last (replace_content aid t (messages (chatState (world f))))
              = Some (Message.with_content text' (assistantMessage_of env))) as Hrep.
    { intros t. rewrite last_replace, Hf. simpl.
      rewrite bool_decide_eq_true_2 by done. by exists t. }
    destruct c; simpl; [apply Hrep|by exists text|apply Hrep]. }
  apply Hall. exists []. rewrite messages_requested.
  change [userMessage_of env w; assistantMessage_of env]
    with ([userMessage_of env w] ++ [assistantMessage_of env]).
  rewrite (app_assoc (messages (chatState w))). apply last_snoc.
Qed.

(** When the callbacks end with [onError], the placeholder shows the
    error behind "Error: ", whatever text it showed before. *)
Lemma failed_send_shows_error env w cs error :
  can_send w = true ->
  calls (network env) (request_of env w) = cs ++ [Failed error] ->
  in_flight (handleSendMessage env w)
  = Some (Message.with_content (lit "Error: " ++ error) (assistantMessage_of env))
  /\ isLoading (chatState (handleSendMessage env w)) = false
  /\ isTyping (chatState (handleSendMessage env w)) = false.
Proof.
  intros Hsend Hcalls.
  rewrite (handleSendMessage_deliver env w Hsend), Hcalls, fold_left_app.
  cbn [fold_left deliver]. unfold in_flight. rewrite messages_onError.
  destruct (last_is_placeholder env w cs) as [text Hlast].
  split; [|done].
  rewrite last_replace, Hlast. simpl.
  by rewrite bool_decide_eq_true_2.
Qed.

(** When [fetch] itself rejects, no chunk is delivered and the
    placeholder shows the message of the error it rejected with, or
    "An unknown error occurred" when what was thrown is not an
    [Error]. *)
Theorem rejected_fetch_reported env w e :
  can_send w = true ->
  network env (request_of env w) = Throw e ->
  calls (network env) (request_of env w)
  = [Failed (message_or (lit "An unknown error occurred") e)]
  /\ in_flight (handleSendMessage env w)
     = Some (Message.with_content
               (lit "Error: " ++ message_or (lit "An unknown error occurred") e)
               (assistantMessage_of env))
  /\ isLoading (chatState (handleSendMessage env w)) = false
  /\ isTyping (chatState (handleSendMessage env w)) = false.
Proof.
  intros Hsend Hnet.
  assert (calls (network env) (request_of env w)
          = [] ++ [Failed (message_or (lit "An unknown error occurred") e)]) as Hcalls
    by (by rewrite calls_spec, Hnet).
  split; [done|]. by apply (failed_send_shows_error env w []).
Qed.

(** A successful response without a body (as a 204 has) is reported as
    "No response body reader available". *)
Theorem missing_body_reported env w response :
  can_send w = true ->
  network env (request_of env w) = Normal response ->
  ok response = true ->
  body response = None ->
  calls (network env) (request_of env w)
  = [Failed (lit "No response body reader available")]
  /\ in_flight (handleSendMessage env w)
     = Some (Message.with_content (lit "Error: No response body reader available")
               (assistantMessage_of env))
  /\ isLoading (chatState (handleSendMessage env w)) = false
  /\ isTyping (chatState (handleSendMessage env w)) = false.
Proof.
  intros Hsend Hnet Hok Hbody.
  assert (calls (network env) (request_of env w)
          = [] ++ [Failed (lit "No response body reader available")]) as Hcalls
    by (by rewrite calls_spec, Hnet, Hok, Hbody).
  split; [done|]. by apply (failed_send_shows_error env w []).
Qed.

(** When a read fails after some chunks, every chunk read so far was
    delivered, then [onError] alone; the text shown so far is replaced
    by the error message, and both flags are false. *)
Theorem failed_read_replaces_text env w response reader e :
  can_send w = true ->
  network env (request_of env w) = Normal response ->
  ok response = true ->
  body response = Some reader ->
  ending reader = Errored e ->
  calls (network env) (request_of env w)
  = map Chunk (snd (decode_each TextDecoder.new (values reader)))
    ++ [Failed (message_or (lit "An unknown error occurred") e)]
  /\ in_flight (handleSendMessage env w)
     = Some (Message.with_content
               (lit "Error: " ++ message_or (lit "An unknown error occurred") e)
               (assistantMessage_of env))
  /\ isLoading (chatState (handleSendMessage env w)) = false
  /\ isTyping (chatState (handleSendMessage env w)) = false.
Proof.
  intros Hsend Hnet Hok Hbody Hend.
  assert (calls (network env) (request_of env w)
          = map Chunk (snd (decode_each TextDecoder.new (values reader)))
            ++ [Failed (message_or (lit "An unknown error occurred") e)]) as Hcalls
    by (by rewrite calls_spec, Hnet, Hok, Hbody, Hend).
  split; [done|]. by apply (failed_send_shows_error env w _ _ Hsend Hcalls).
Qed.

(** ** The same bytes in other chunks *)

(** Two successful streams that carry the same bytes, split into chunks
    in any two ways (also inside a character), leave the same message
    sequence. *)
Theorem chunking_does_not_matter env env' w response response' reader reader' :
  can_send w = true ->
  fresh_assistant_id env w ->
  user_draw env' = user_draw env ->
  assistant_draw env' = assistant_draw env ->
  network env (request_of env w) = Normal response ->
  ok response = true -> body response = Some reader -> ending reader = Closed ->
  network env' (request_of env' w) = Normal response' ->
  ok response' = true -> body response' = Some reader' -> ending reader' = Closed ->
  concat (values reader) = concat (values reader') ->
  messages (chatState (handleSendMessage env w))
  = messages (chatState (handleSendMessage env' w)).
Proof.
  intros Hsend Hfresh Huser Hassistant Hnet Hok Hbody Hend Hnet' Hok' Hbody' Hend' Hbytes.
  assert (fresh_assistant_id env' w) as Hfresh'.
  { unfold fresh_assistant_id, userMessage_of in *. by rewrite Huser, Hassistant. }
  rewrite (stream_content env w response reader) by done.
  rewrite (stream_content env' w response' reader') by done.
  unfold userMessage_of, assistantMessage_of. by rewrite Huser, Hassistant, Hbytes.
Qed.

(** ** [generateMessageId]: different draws, different identifiers *)

Lemma lit_inj s s' : lit s = lit s' -> s = s'.
Proof.
  unfold lit. revert s'. induction s as [|a s IH]; intros [|a' s']; simpl; try done.
  intros [= Ha Hs]. f_equal; [|by apply IH].
  apply N2Z.inj in Ha.
  rewrite <- (ascii_N_embedding a), <- (ascii_N_embedding a'). by rewrite Ha.
Qed.

Lemma digits_of_uint d :
  Forall (fun c => 48 <= c <= 57) (lit (NilEmpty.string_of_uint d)).
Proof.
  induction d; simpl; constructor; try done; lia.
Qed.

Lemma digits_of_N n :
  Forall (fun c => 48 <= c <= 57) (lit (NilZero.string_of_uint (N.to_uint n)))
  /\ lit (NilZero.string_of_uint (N.to_uint n)) <> [].
Proof.
  assert (N.to_uint n <> Decimal.Nil) as Hnil.
  { destruct n; [done|]. apply DecimalPos.Unsigned.to_uint_nonnil. }
  destruct (N.to_uint n) as [|u|u|u|u|u|u|u|u|u|u]; [done|..];
    (split; [|done]); unfold NilZero.string_of_uint;
    apply (digits_of_uint (_ u)).
Qed.

Lemma string_of_N_inj n m :
  lit (NilZero.string_of_uint (N.to_uint n)) = lit (NilZero.string_of_uint (N.to_uint m)) ->
  n = m.
Proof.
  intros H. apply lit_inj in H.
  apply DecimalN.Unsigned.to_uint_inj.
  assert (forall k, NilZero.uint_of_string (NilZero.string_of_uint (N.to_uint k))
                    = Some (N.to_uint k)) as Husu.
  { intros k. apply NilZero.usu. destruct k; [done|].
    apply DecimalPos.Unsigned.to_uint_nonnil. }
  pose proof (Husu n) as Hn. rewrite H, Husu in Hn. by injection Hn.
Qed.

(** The decimal text of an integer has no underscore in it, and two
    integers with the same text are equal. *)
Lemma Number_toString_chars n : Forall (fun c => c <> 95) (Number_toString n).
Proof.
  unfold Number_toString. destruct (n <? 0).
  - constructor; [done|].
    eapply Forall_impl; [apply digits_of_N|]. simpl. lia.
  - eapply Forall_impl; [apply digits_of_N|]. simpl. lia.
Qed.

Lemma Number_toString_inj n m : Number_toString n = Number_toString m -> n = m.
Proof.
  unfold Number_toString.
  destruct (n <? 0) eqn:En, (m <? 0) eqn:Em; intros H.
  - injection H as H. apply string_of_N_inj in H.
    apply Z.ltb_lt in En, Em. lia.
  - exfalso. destruct (digits_of_N (Z.to_N m)) as [Hd _].
    rewrite <- H in Hd. apply Forall_cons_1 in Hd as [Hc _].
    vm_compute in Hc. by destruct Hc as [Hc _].
  - exfalso. destruct (digits_of_N (Z.to_N n)) as [Hd _].
    rewrite H in Hd. apply Forall_cons_1 in Hd as [Hc _].
    vm_compute in Hc. by destruct Hc as [Hc _].
  - apply string_of_N_inj in H. apply Z.ltb_ge in En, Em. lia.
Qed.

Lemma split_at_mark (mark : Z) (a b r r' : jsstring) :
  Forall (fun c => c <> mark) a -> Forall (fun c => c <> mark) b ->
  a ++ mark :: r = b ++ mark :: r' -> a = b /\ r = r'.
Proof.
  revert b. induction a as [|x a IH]; intros [|y b] Ha Hb H; simpl in H.
  - by injection H.
  - injection H as -> _. by apply Forall_cons_1 in Hb as [? _].
  - injection H as -> _. by apply Forall_cons_1 in Ha as [? _].
  - injection H as -> H.
    apply Forall_cons_1 in Ha as [_ Ha]. apply Forall_cons_1 in Hb as [_ Hb].
    destruct (IH b Ha Hb H) as [-> ->]. done.
Qed.

(** Two identifiers are equal only when both the reading of the clock
    and the random digits are: a draw that differs in either gives
    another identifier. *)
Theorem generateMessageId_injective d d' :
  generateMessageId d = generateMessageId d' <->
  now d = now d' /\ random d = random d'.
Proof.
  split; [|by intros [H1 H2]; unfold generateMessageId; rewrite H1, H2].
  unfold generateMessageId. intros H.
  apply app_inv_head in H.
  destruct (split_at_mark 95 _ _ _ _ (Number_toString_chars (now d))
              (Number_toString_chars (now d')) H) as [Hn Hr].
  split; [by apply Number_toString_inj|done].
Qed.

(** ** The stored API key *)

Section StoredKey.
Context `{Platform}.

Lemma apiKey_reload window :
  apiKey (reload window)
  = match window with
    | Some st =>
        match Storage.getItem "openai-api-key" st with
        | Some key => key
        | None => []
        end
    | None => []
    end.
Proof.
  unfold reload, mountEffect. simpl.
  destruct window as [st|]; [|done].
  destruct (Storage.getItem "openai-api-key" st) as [key|].
  - destruct (0 <? _)%nat; destruct key; done.
  - by destruct (0 <? _)%nat.
Qed.

Lemma messages_reload window :
  messages (chatState (reload window))
  = map revive (getChatHistory (initial window)).
Proof.
  unfold reload. rewrite messages_mountEffect. simpl.
  destruct window as [st|]; [|done].
  by destruct (getChatHistory (initial (Some st))).
Qed.

(** When the store takes the write, [saveApiKey] closes the settings
    panel, a session started over the store has the saved key as its
    key, and the saved history is the one it was. *)
Theorem saved_key_reloads w st st' :
  localStorage w = Some st ->
  Storage.setItem "openai-api-key" (apiKey w) st = Some st' ->
  exists w',
    saveApiKey w = Some w'
    /\ showSettings w' = false
    /\ chatState w' = chatState w
    /\ apiKey (reload (localStorage w')) = apiKey w
    /\ stored_history w' = stored_history w
    /\ messages (chatState (reload (localStorage w')))
       = messages (chatState (reload (localStorage w))).
Proof.
  intros Hw Hset. unfold saveApiKey. rewrite Hw, Hset.
  eexists. split; [done|]. simpl.
  unfold Storage.setItem in Hset.
  destruct (Storage.admits st _); [|done]. injection Hset as <-.
  assert (Storage.getItem "chat-history"
            {| Storage.items := <["openai-api-key" := apiKey w]> (Storage.items st);
               Storage.admits := Storage.admits st |}
          = Storage.getItem "chat-history" st) as Hhistory.
  { unfold Storage.getItem. simpl. by rewrite lookup_insert_ne. }
  split; [done|]. split; [done|]. split; [|split].
  - rewrite apiKey_reload. unfold Storage.getItem. simpl.
    by rewrite lookup_insert_eq.
  - unfold stored_history. simpl. rewrite Hw. exact Hhistory.
  - rewrite !messages_reload. unfold getChatHistory. simpl.
    by rewrite Hhistory.
Qed.

(** Neither the save effect nor the clear operation touches the stored
    key: after a clear, a new session still starts with the key that
    was saved. *)
Theorem history_operations_keep_key w :
  stored_key (saveEffect w) = stored_key w
  /\ stored_key (clearChatHistory w) = stored_key w
  /\ apiKey (reload (localStorage (saveEffect (clearChatHistory w))))
     = apiKey (reload (localStorage w)).
Proof.
  assert (stored_key (saveEffect w) = stored_key w) as Hsave.
  { unfold saveEffect. destruct (0 <? _)%nat; [|done].
    unfold saveChatHistory, stored_key.
    destruct (localStorage w) as [st|] eqn:E; [|by rewrite E].
    unfold Storage.setItem. destruct (Storage.admits st _); simpl; [|by rewrite E].
    unfold Storage.getItem. simpl. by rewrite lookup_insert_ne. }
  assert (stored_key (clearChatHistory w) = stored_key w) as Hclear.
  { unfold clearChatHistory, storage_clearChatHistory, stored_key. simpl.
    destruct (localStorage w) as [st|] eqn:E; simpl; [|by rewrite E].
    unfold Storage.getItem. simpl. by rewrite lookup_delete_ne. }
  split; [done|]. split; [done|].
  assert (saveEffect (clearChatHistory w) = clearChatHistory w) as ->.
  { unfold saveEffect, clearChatHistory, storage_clearChatHistory. simpl.
    by destruct (localStorage w). }
  rewrite !apiKey_reload. unfold stored_key in Hclear.
  destruct (localStorage (clearChatHistory w)) as [st'|],
           (localStorage w) as [st|]; try done;
    (by rewrite Hclear) || (by rewrite <- Hclear).
Qed.


(** While a send is open, a cleared history stays cleared: no step of
    the session (a callback of the open send, a key typed, another
    clear) brings a message back or writes a history to the store. *)
Theorem open_send_keeps_cleared_history s s' :
  step s s' ->
  isLoading (chatState (page s)) = true ->
  messages (chatState (page s)) = [] ->
  stored_history (page s) = None ->
  messages (chatState (page s')) = [] /\ stored_history (page s') = None.
Proof.
  intros Hstep Hloading Hempty Hstore.
  assert (forall w, messages (chatState w) = [] -> saveEffect w = w) as Hskip.
  { intros w Hw. unfold saveEffect. by rewrite Hw. }
  destruct Hstep as [s value Hidle | s value | s env Hidle Hpre | s env Hidle Hpre
                    | s before a c rest after Hacts Hawait | s]; simpl;
    try congruence.
  - done.
  - assert (messages (chatState (world (resume a c (page s)))) = []) as Hm.
    { unfold resume. destruct c; simpl; by rewrite ?Hempty. }
    rewrite Hskip by done. split; [done|].
    unfold resume. by destruct c.
  - rewrite Hskip by (unfold clearChatHistory, storage_clearChatHistory; simpl;
                      by destruct (localStorage (page s))).
    split.
    + unfold clearChatHistory, storage_clearChatHistory. simpl.
      by destruct (localStorage (page s)).
    + unfold stored_history in *.
      unfold clearChatHistory, storage_clearChatHistory. simpl.
      destruct (localStorage (page s)) as [st|] eqn:E; simpl; [|by rewrite E].
      unfold Storage.getItem in *. simpl. rewrite lookup_delete_eq. done.
Qed.

End StoredKey.

(** ** The list of uploaded PDFs *)

Lemma or_undefined_spec v id :
  or_undefined v = Some id <-> v = Some id /\ id <> [].
Proof.
  unfold or_undefined. destruct v as [[|c s]|]; simpl; split.
  - done.
  - by intros [[= <-] ?].
  - intros [= <-]. done.
  - by intros [[= <-] _].
  - done.
  - by intros [? _].
Qed.

Lemma filter_all {A} (P : A -> Prop) `{forall x, Decision (P x)} (l : list A) :
  Forall P l -> filter P l = l.
Proof.
  induction 1 as [|x l Hx _ IH]; [done|].
  by rewrite filter_cons_True, IH.
Qed.

Lemma filter_sublist {A} (P : A -> Prop) `{forall x, Decision (P x)} (l : list A) :
  filter P l `sublist_of` l.
Proof.
  induction l as [|x l IH]; [done|].
  rewrite filter_cons. destruct (decide (P x)); by constructor.
Qed.

(** After [handlePDFDeleted] no entry of the list has the deleted
    identifier, every other entry is still there, in the order it was
    in, and deleting again changes nothing more.  When the selection
    the handler saw is the current one, the deleted PDF is no longer
    selected, and the next chat request does not name it. *)
Theorem deleted_pdf_is_gone pdfId i env :
  (pdfId ∉ (PDFListItem.pdf_id <$>
              uploadedPDFs (handlePDFDeleted (selectedPDFId (chat i)) pdfId i)))
  /\ (forall pdf,
        pdf ∈ uploadedPDFs (handlePDFDeleted (selectedPDFId (chat i)) pdfId i)
        <-> pdf ∈ uploadedPDFs i /\ PDFListItem.pdf_id pdf <> pdfId)
  /\ uploadedPDFs (handlePDFDeleted (selectedPDFId (chat i)) pdfId i)
       `sublist_of` uploadedPDFs i
  /\ selectedPDFId (chat (handlePDFDeleted (selectedPDFId (chat i)) pdfId i))
     <> Some pdfId
  /\ pdf_id (request_of env (chat (handlePDFDeleted (selectedPDFId (chat i)) pdfId i)))
     <> Some pdfId
  /\ handlePDFDeleted
       (selectedPDFId (chat (handlePDFDeleted (selectedPDFId (chat i)) pdfId i)))
       pdfId (handlePDFDeleted (selectedPDFId (chat i)) pdfId i)
     = handlePDFDeleted (selectedPDFId (chat i)) pdfId i.
Proof.
  assert (uploadedPDFs (handlePDFDeleted (selectedPDFId (chat i)) pdfId i)
          = filter (fun pdf => PDFListItem.pdf_id pdf <> pdfId) (uploadedPDFs i))
    as Hlist.
  { unfold handlePDFDeleted. by destruct (bool_decide _). }
  assert (selectedPDFId (chat (handlePDFDeleted (selectedPDFId (chat i)) pdfId i))
          <> Some pdfId) as Hselected.
  { unfold handlePDFDeleted.
    destruct (bool_decide _) eqn:E; simpl; [done|].
    by apply bool_decide_eq_false in E. }
  rewrite Hlist.
  split; [|split; [|split; [|split; [|split]]]].
  - intros Hin. apply list_elem_of_fmap in Hin as (pdf & -> & Hin).
    apply list_elem_of_filter in Hin as [Hne _]. done.
  - intros pdf. rewrite list_elem_of_filter. tauto.
  - apply filter_sublist.
  - done.
  - simpl. intros Hid. apply or_undefined_spec in Hid as [Hid _]. done.
  - unfold handlePDFDeleted at 1.
    rewrite bool_decide_eq_false_2 by done.
    unfold setUploadedPDFs. rewrite Hlist.
    rewrite list_filter_filter.
    assert (filter (fun pdf => PDFListItem.pdf_id pdf <> pdfId
                               /\ PDFListItem.pdf_id pdf <> pdfId) (uploadedPDFs i)
            = filter (fun pdf => PDFListItem.pdf_id pdf <> pdfId) (uploadedPDFs i))
      as ->.
    { apply list_filter_iff. tauto. }
    rewrite <- Hlist.
    by destruct (handlePDFDeleted (selectedPDFId (chat i)) pdfId i).
Qed.

(** [handlePDFUploaded] puts the new PDF last in the list and selects
    it, so that the next chat request names it (unless its identifier
    is the empty string); the messages are not touched.  Deleting it
    right away gives back the list as it was, provided the identifier
    was new, and leaves nothing selected. *)
Theorem uploaded_pdf_is_selected pdf i env :
  last (uploadedPDFs (handlePDFUploaded pdf i))
  = Some {| PDFListItem.pdf_id := UploadedPDF.pdf_id pdf;
            PDFListItem.chunks_count := UploadedPDF.chunks_count pdf |}
  /\ length (uploadedPDFs (handlePDFUploaded pdf i)) = S (length (uploadedPDFs i))
  /\ selectedPDFId (chat (handlePDFUploaded pdf i)) = Some (UploadedPDF.pdf_id pdf)
  /\ (UploadedPDF.pdf_id pdf <> [] ->
      pdf_id (request_of env (chat (handlePDFUploaded pdf i)))
      = Some (UploadedPDF.pdf_id pdf))
  /\ chatState (chat (handlePDFUploaded pdf i)) = chatState (chat i)
  /\ length (alerts (chat (handlePDFUploaded pdf i))) = S (length (alerts (chat i)))
  /\ ((UploadedPDF.pdf_id pdf ∉ (PDFListItem.pdf_id <$> uploadedPDFs i)) ->
      uploadedPDFs (handlePDFDeleted (selectedPDFId (chat (handlePDFUploaded pdf i)))
                      (UploadedPDF.pdf_id pdf) (handlePDFUploaded pdf i))
      = uploadedPDFs i
      /\ selectedPDFId
           (chat (handlePDFDeleted (selectedPDFId (chat (handlePDFUploaded pdf i)))
                    (UploadedPDF.pdf_id pdf) (handlePDFUploaded pdf i)))
         = None).
Proof.
  unfold handlePDFUploaded. simpl.
  split; [by rewrite last_snoc|].
  split; [rewrite length_app; simpl; lia|].
  split; [done|].
  split.
  { intros Hid. destruct (UploadedPDF.pdf_id pdf); done. }
  split; [done|].
  split; [rewrite length_app; simpl; lia|].
  intros Hnew. unfold handlePDFDeleted. simpl.
  rewrite bool_decide_eq_true_2 by done. simpl. split; [|done].
  rewrite filter_app, filter_cons_False, filter_nil, app_nil_r by (simpl; tauto).
  apply filter_all, Forall_forall. intros old Hold Heq. apply Hnew.
  apply list_elem_of_fmap. by exists old.
Qed.

(** ** Deleting a PDF *)

(** When the server does not accept the deletion, or cannot be
    reached, the PDF stays in the list and stays selected; the failure
    goes to the console only, no dialog is shown. *)
Theorem refused_delete_keeps_pdf reading_null seen pdfId fetched i :
  (forall response, fetched = Normal response -> JsonResponse.ok response = false) ->
  uploadedPDFs (handleDeletePDF seen pdfId (deletePDF reading_null fetched) i)
  = uploadedPDFs i
  /\ selectedPDFId (chat (handleDeletePDF seen pdfId (deletePDF reading_null fetched) i))
     = selectedPDFId (chat i)
  /\ alerts (chat (handleDeletePDF seen pdfId (deletePDF reading_null fetched) i))
     = alerts (chat i)
  /\ console (chat (handleDeletePDF seen pdfId (deletePDF reading_null fetched) i))
     = console (chat i) ++ [lit "Failed to delete PDF:"].
Proof.
  intros Hrefused. unfold deletePDF.
  destruct fetched as [response|e]; [|done].
  by rewrite (Hrefused response eq_refl).
Qed.

(** When the server accepts the deletion, whatever the body of its
    answer, the PDF leaves the list; the selection is cleared if the
    PDF was the selected one when the button was clicked, and is left
    as it is otherwise. *)
Theorem accepted_delete_removes_pdf reading_null seen pdfId response i :
  JsonResponse.ok response = true ->
  (pdfId ∉ (PDFListItem.pdf_id <$>
              uploadedPDFs (handleDeletePDF seen pdfId
                              (deletePDF reading_null (Normal response)) i)))
  /\ (seen = Some pdfId ->
      selectedPDFId (chat (handleDeletePDF seen pdfId
                             (deletePDF reading_null (Normal response)) i)) = None)
  /\ (seen <> Some pdfId ->
      selectedPDFId (chat (handleDeletePDF seen pdfId
                             (deletePDF reading_null (Normal response)) i))
      = selectedPDFId (chat i))
  /\ console (chat (handleDeletePDF seen pdfId
                      (deletePDF reading_null (Normal response)) i))
     = console (chat i).
Proof.
  intros Hok. unfold deletePDF. rewrite Hok. simpl.
  unfold handlePDFDeleted.
  destruct (bool_decide (seen = Some pdfId)) eqn:E; simpl.
  - apply bool_decide_eq_true in E.
    split; [|done].
    intros Hin. apply list_elem_of_fmap in Hin as (pdf & -> & Hin).
    by apply list_elem_of_filter in Hin as [Hne _].
  - apply bool_decide_eq_false in E.
    split; [|done].
    intros Hin. apply list_elem_of_fmap in Hin as (pdf & -> & Hin).
    by apply list_elem_of_filter in Hin as [Hne _].
Qed.

(** ** What the JSON endpoints throw *)

(** For a response that is not ok whose body is an object with a
    non-empty string as [detail], [uploadPDF], [generateQuestions] and
    [deletePDF] throw an error with that text as its message, whereas
    [listPDFs] does not read the body and reports the status. *)
Theorem error_detail_is_the_message reading_null typedU typedG typedL
    response members d :
  JsonResponse.ok response = false ->
  JsonResponse.json response = Normal (JObject members) ->
  member (lit "detail") members = Some (JString d) ->
  d <> [] ->
  uploadPDF reading_null typedU (Normal response) = Throw (ErrorObject d)
  /\ generateQuestions reading_null typedG (Normal response) = Throw (ErrorObject d)
  /\ deletePDF reading_null (Normal response) = Throw (ErrorObject d)
  /\ listPDFs reading_null typedL (Normal response)
     = Throw (ErrorObject (lit "HTTP error! status: "
                           ++ Number_toString (JsonResponse.status response))).
Proof.
  intros Hok Hjson Hdetail Hd.
  assert (refusal reading_null response = ErrorObject d) as Hrefusal.
  { unfold refusal. rewrite Hjson. simpl. rewrite Hdetail. simpl.
    by destruct d. }
  unfold uploadPDF, generateQuestions, returned, deletePDF, listPDFs.
  by rewrite Hok, Hrefusal.
Qed.

(** When the body of a response that is not ok is not JSON text, what
    [uploadPDF], [generateQuestions] and [deletePDF] throw is the error
    of [response.json()]: the status of the response is not
    reported. *)
Theorem unreadable_error_body_hides_status reading_null typedU typedG response e :
  JsonResponse.ok response = false ->
  JsonResponse.json response = Throw e ->
  uploadPDF reading_null typedU (Normal response) = Throw e
  /\ generateQuestions reading_null typedG (Normal response) = Throw e
  /\ deletePDF reading_null (Normal response) = Throw e.
Proof.
  intros Hok Hjson.
  unfold uploadPDF, generateQuestions, returned, deletePDF, refusal.
  by rewrite Hok, Hjson.
Qed.

(** When the body is JSON but has no [detail] to show (it is not an
    object, or has no such member, or one that is [null], [false], [0]
    or the empty string), the message is the status line. *)
Theorem missing_detail_gives_status reading_null typedU typedG response value :
  JsonResponse.ok response = false ->
  JsonResponse.json response = Normal value ->
  value <> JNull ->
  (forall members, value = JObject members ->
                   ToBoolean (member (lit "detail") members) = false) ->
  uploadPDF reading_null typedU (Normal response) = Throw (http_error response)
  /\ generateQuestions reading_null typedG (Normal response)
     = Throw (http_error response)
  /\ deletePDF reading_null (Normal response) = Throw (http_error response).
Proof.
  intros Hok Hjson Hnull Hdetail.
  assert (refusal reading_null response = http_error response) as Hrefusal.
  { unfold refusal. rewrite Hjson.
    destruct value as [|b|n|s|items|members]; try done.
    simpl. specialize (Hdetail members eq_refl).
    destruct (member (lit "detail") members) as [v|]; [|done].
    by rewrite Hdetail. }
  unfold uploadPDF, generateQuestions, returned, deletePDF.
  by rewrite Hok, Hrefusal.
Qed.


(** ** Choosing a file to upload *)

(** [endsWith] is the suffix relation. *)
Lemma endsWith_spec (s t : jsstring) : endsWith s t = true <-> t `suffix_of` s.
Proof.
  unfold endsWith. rewrite andb_true_iff, Nat.leb_le, bool_decide_eq_true.
  split.
  - intros [Hlen Hdrop]. exists (take (length s - length t) s).
    by rewrite <- Hdrop at 2; rewrite take_drop.
  - intros [k ->]. rewrite length_app. split; [lia|].
    replace (length k + length t - length t)%nat with (length k) by lia.
    by rewrite drop_app_length.
Qed.

(** A file is not uploaded when the key is blank or when its name, in
    lower case, does not end in ".pdf": a message is shown, nothing
    else changes, and what the server would have answered plays no
    part.  The key is looked at first. *)
Theorem unsuitable_file_is_not_uploaded toLowerCase key name outcome p :
  trim key = [] \/ ~ (lit ".pdf" `suffix_of` toLowerCase name) ->
  interface (handleFileSelect toLowerCase key name outcome p) = interface p
  /\ isUploading (handleFileSelect toLowerCase key name outcome p) = isUploading p
  /\ uploadError (handleFileSelect toLowerCase key name outcome p)
     = Some (if truthy (trim key) then lit "Please select a PDF file"
             else lit "Please set your OpenAI API key first").
Proof.
  intros Hbad. unfold handleFileSelect, file_refused.
  destruct (truthy (trim key)) eqn:Hkey; simpl; [|done].
  destruct Hbad as [Hblank | Hname]; [by rewrite Hblank in Hkey|].
  destruct (endsWith (toLowerCase name) (lit ".pdf")) eqn:Hends; simpl; [|done].
  by apply endsWith_spec in Hends.
Qed.

(** When the server refuses a suitable file with a [detail], that text
    becomes the error message of the panel; the list, the selection and
    the dialogs stay as they were, and the panel is no longer
    uploading. *)
Theorem refused_upload_shows_detail toLowerCase reading_null typed key name
    response members d p :
  file_refused toLowerCase key name = None ->
  JsonResponse.ok response = false ->
  JsonResponse.json response = Normal (JObject members) ->
  member (lit "detail") members = Some (JString d) ->
  d <> [] ->
  handleFileSelect toLowerCase key name
    (uploadPDF reading_null typed (Normal response)) p
  = {| interface := interface p; isUploading := false; uploadError := Some d |}.
Proof.
  intros Hfile Hok Hjson Hdetail Hd.
  unfold handleFileSelect. rewrite Hfile.
  unfold uploadPDF, returned, refusal.
  rewrite Hok, Hjson. simpl. rewrite Hdetail. simpl.
  by destruct d.
Qed.

(** When the server accepts a suitable file, an earlier error message
    is gone, the panel is no longer uploading, and the PDF the server
    describes is last in the list and selected. *)
Theorem accepted_upload_lists_the_pdf toLowerCase reading_null typed key name
    response value p :
  file_refused toLowerCase key name = None ->
  JsonResponse.ok response = true ->
  JsonResponse.json response = Normal value ->
  uploadError (handleFileSelect toLowerCase key name
                 (uploadPDF reading_null typed (Normal response)) p) = None
  /\ isUploading (handleFileSelect toLowerCase key name
                    (uploadPDF reading_null typed (Normal response)) p) = false
  /\ PDFListItem.pdf_id <$>
       uploadedPDFs (interface (handleFileSelect toLowerCase key name
                                  (uploadPDF reading_null typed (Normal response)) p))
     = (PDFListItem.pdf_id <$> uploadedPDFs (interface p))
       ++ [UploadedPDF.pdf_id (typed value)]
  /\ selectedPDFId
       (chat (interface (handleFileSelect toLowerCase key name
                           (uploadPDF reading_null typed (Normal response)) p)))
     = Some (UploadedPDF.pdf_id (typed value)).
Proof.
  intros Hfile Hok Hjson.
  unfold handleFileSelect. rewrite Hfile.
  unfold uploadPDF, returned. rewrite Hok, Hjson. simpl.
  by rewrite fmap_app.
Qed.

(** ** Generating questions *)

(** With a key entered, [handleGenerateQuestions] sends one request,
    with the key as typed and the PDF a chat request would name, and
    always ends with the flag down.  Questions that arrive replace the ones shown; a
    failure leaves the ones shown in place and tells its message in a
    dialog. *)
Theorem question_generation_settles config outcome i :
  trim (apiKey (chat i)) <> [] ->
  isGeneratingQuestions (handleGenerateQuestions config outcome i) = false
  /\ question_requests (handleGenerateQuestions config outcome i)
     = question_requests i ++ [question_request config (chat i)]
  /\ QuestionGenerationRequest.api_key (question_request config (chat i))
     = apiKey (chat i)
  /\ (forall env,
        QuestionGenerationRequest.pdf_id (question_request config (chat i))
        = pdf_id (request_of env (chat i)))
  /\ uploadedPDFs (handleGenerateQuestions config outcome i) = uploadedPDFs i
  /\ chatState (chat (handleGenerateQuestions config outcome i)) = chatState (chat i)
  /\ match outcome with
     | Normal result =>
         generatedQuestions (handleGenerateQuestions config outcome i) = Some result
         /\ alerts (chat (handleGenerateQuestions config outcome i)) = alerts (chat i)
     | Throw error =>
         generatedQuestions (handleGenerateQuestions config outcome i)
         = generatedQuestions i
         /\ alerts (chat (handleGenerateQuestions config outcome i))
            = alerts (chat i)
              ++ [lit "Error generating questions: "
                  ++ message_or (lit "Unknown error") error]
     end.
Proof.
  intros Hkey. unfold handleGenerateQuestions.
  apply truthy_nonempty in Hkey. rewrite Hkey. simpl.
  by destruct outcome.
Qed.

(** Without a key nothing is requested: a dialog asks for the key, and
    neither the flag nor the questions shown change. *)
Theorem question_generation_needs_key config outcome i :
  trim (apiKey (chat i)) = [] ->
  question_requests (handleGenerateQuestions config outcome i) = question_requests i
  /\ isGeneratingQuestions (handleGenerateQuestions config outcome i)
     = isGeneratingQuestions i
  /\ generatedQuestions (handleGenerateQuestions config outcome i)
     = generatedQuestions i
  /\ alerts (chat (handleGenerateQuestions config outcome i))
     = alerts (chat i) ++ [lit "Please enter your OpenAI API key in settings first."].
Proof.
  intros Hkey. unfold handleGenerateQuestions. by rewrite Hkey.
Qed.

(** [handleRegenerateQuestions] asks for as many questions as are
    shown, on their topic, with their difficulty and their types; if
    the request fails, the questions shown stay. *)
Theorem regeneration_repeats_the_request outcome shown i :
  generatedQuestions i = Some shown ->
  trim (apiKey (chat i)) <> [] ->
  exists request,
    last (question_requests (handleRegenerateQuestions outcome i)) = Some request
    /\ QuestionGenerationRequest.topic request = GeneratedQuestion.topic shown
    /\ QuestionGenerationRequest.question_count request
       = Some (Z.of_nat (length (GeneratedQuestion.questions shown)))
    /\ QuestionGenerationRequest.difficulty request
       = Some (GeneratedQuestion.difficulty shown)
    /\ QuestionGenerationRequest.question_types request
       = Some (GeneratedQuestion.question_types shown)
    /\ (forall error, outcome = Throw error ->
          generatedQuestions (handleRegenerateQuestions outcome i) = Some shown).
Proof.
  intros Hshown Hkey. unfold handleRegenerateQuestions. rewrite Hshown.
  unfold handleGenerateQuestions.
  apply truthy_nonempty in Hkey. rewrite Hkey. simpl.
  eexists. split.
  { destruct outcome; simpl; by rewrite last_snoc. }
  repeat split; try done.
  intros error ->. done.
Qed.

(** ** Answering questions *)

Module QuestionDisplayFacts.
Import QuestionDisplay.

(** What the clicks keep true from the mount on: a question shows its
    result exactly when it has an answer. *)
Lemma answered_iff_shown s :
  rtc answering mounted s ->
  forall questionIndex,
    showResult questionIndex s = true <-> is_Some (selectedAnswers s !! questionIndex).
Proof.
  intros Hs. apply rtc_nsteps in Hs as [n Hs]. revert s Hs.
  induction n as [|n IH]; intros s Hs questionIndex.
  - inversion Hs; subst.
    unfold showResult, mounted. simpl. rewrite !lookup_empty. simpl.
    split; [done|]. by intros [? ?].
  - apply nsteps_inv_r in Hs as (s0 & Hs0 & questions & Hclick).
    destruct Hclick as [s0 qi ci question _ _ _].
    unfold showResult, handleAnswerSelect. simpl.
    destruct (decide (questionIndex = qi)) as [->|Hne].
    + rewrite !lookup_insert_eq. simpl. split; [by eexists|done].
    + rewrite !lookup_insert_ne by done. by apply IH.
Qed.


End QuestionDisplayFacts.


(** While the question at a position has no answer, its buttons are
    enabled and all have the same style, whichever choice is the
    correct one: nothing on the page tells the answer. *)
Theorem unanswered_question_tells_nothing s questionIndex :
  rtc QuestionDisplay.answering QuestionDisplay.mounted s ->
  QuestionDisplay.selectedAnswers s !! questionIndex = None ->
  QuestionDisplay.disabled questionIndex s = false
  /\ forall question choiceIndex,
       QuestionDisplay.style_of question questionIndex choiceIndex s
       = QuestionDisplay.Open.
Proof.
  intros Hs Hnone.
  assert (QuestionDisplay.showResult questionIndex s = false) as Hhidden.
  { destruct (QuestionDisplay.showResult questionIndex s) eqn:E; [|done].
    apply (QuestionDisplayFacts.answered_iff_shown s Hs) in E.
    rewrite Hnone in E. by destruct E. }
  split; [done|]. intros question choiceIndex.
  unfold QuestionDisplay.style_of. by rewrite Hhidden.
Qed.

(** Once a choice is clicked, the buttons of that question are
    disabled; the correct choice is green, the clicked one is red if it
    is not the correct one, every other one is gray; the other
    questions look as before. *)
Theorem answered_question_shows_result question questionIndex answerIndex s :
  QuestionDisplay.disabled questionIndex
    (QuestionDisplay.handleAnswerSelect questionIndex answerIndex s) = true
  /\ (forall choiceIndex,
        QuestionDisplay.style_of question questionIndex choiceIndex
          (QuestionDisplay.handleAnswerSelect questionIndex answerIndex s)
        = if Z.of_nat choiceIndex =? MultipleChoiceQuestion.correct_answer question
          then QuestionDisplay.Green
          else if bool_decide (choiceIndex = answerIndex)
               then QuestionDisplay.Red
               else QuestionDisplay.Gray)
  /\ (forall other otherIndex choiceIndex,
        otherIndex <> questionIndex ->
        QuestionDisplay.buttonClass other otherIndex choiceIndex
          (QuestionDisplay.handleAnswerSelect questionIndex answerIndex s)
        = QuestionDisplay.buttonClass other otherIndex choiceIndex s).
Proof.
  unfold QuestionDisplay.disabled, QuestionDisplay.buttonClass,
    QuestionDisplay.style_of, QuestionDisplay.showResult,
    QuestionDisplay.handleAnswerSelect.
  simpl. rewrite !lookup_insert_eq. simpl.
  split; [done|]. split.
  - intros choiceIndex.
    destruct (Z.of_nat choiceIndex =? _); [done|]. simpl.
    rewrite andb_true_r.
    destruct (decide (choiceIndex = answerIndex)) as [->|Hne].
    + by rewrite !bool_decide_eq_true_2.
    + rewrite !bool_decide_eq_false_2; [done|done|]. by intros [= ?].
  - intros other otherIndex choiceIndex Hne.
    by rewrite !lookup_insert_ne.
Qed.

(** ** The topic selector *)

(** [includes] is the substring relation. *)
Lemma includes_spec (s t : jsstring) :
  includes s t = true <-> exists before after, s = before ++ t ++ after.
Proof.
  induction s as [|c s IH]; simpl.
  - rewrite orb_false_r, bool_decide_eq_true, take_nil. split.
    + intros <-. by exists [], [].
    + intros (before & after & H). symmetry in H.
      apply app_eq_nil in H as [_ H]. by apply app_eq_nil in H as [? _].
  - rewrite orb_true_iff, bool_decide_eq_true, IH. split.
    + intros [Hhere | (before & after & ->)].
      * exists [], (drop (length t) (c :: s)). simpl.
        rewrite <- Hhere at 1. by rewrite take_drop.
      * by exists (c :: before), after.
    + intros ([|c' before] & after & H).
      * left. simpl in H. rewrite H. by rewrite take_app_length.
      * right. injection H as _ ->. by exists before, after.
Qed.

Lemma listed_filtered topics toLowerCase s topic :
  topic ∈ TopicSelector.listed topics toLowerCase s ->
  topic ∈ topics
  /\ includes (toLowerCase topic) (toLowerCase (TopicSelector.searchTerm s)) = true.
Proof.
  unfold TopicSelector.listed.
  destruct (truthy (TopicSelector.selectedTopic s)); simpl.
  - intros Hin. by apply elem_of_nil in Hin.
  - intros Hin.
    eapply elem_of_sublist in Hin; [|apply sublist_take].
    apply list_elem_of_filter in Hin as [Hinc Hin]. done.
Qed.

(** At most thirty topics are listed, in the order of the topic list;
    each of them contains the search term when both are put in lower
    case, and none is listed while a topic is selected. *)
Theorem listed_topics_match topics toLowerCase s :
  (length (TopicSelector.listed topics toLowerCase s) <= 30)%nat
  /\ TopicSelector.listed topics toLowerCase s `sublist_of` topics
  /\ (forall topic,
        topic ∈ TopicSelector.listed topics toLowerCase s ->
        topic ∈ topics
        /\ exists before after,
             toLowerCase topic
             = before ++ toLowerCase (TopicSelector.searchTerm s) ++ after)
  /\ (TopicSelector.selectedTopic s <> [] ->
      TopicSelector.listed topics toLowerCase s = []).
Proof.
  unfold TopicSelector.listed.
  destruct (truthy (TopicSelector.selectedTopic s)) eqn:Hselected; simpl.
  - split; [lia|]. split; [apply sublist_nil_l|].
    split; [by intros topic Hin; apply elem_of_nil in Hin|done].
  - split; [rewrite length_take; lia|].
    split.
    { etrans; [apply sublist_take|]. apply filter_sublist. }
    split.
    + intros topic Hin.
      eapply elem_of_sublist in Hin; [|apply sublist_take].
      apply list_elem_of_filter in Hin as [Hinc Hin].
      split; [done|]. by apply includes_spec.
    + intros Hne. destruct (TopicSelector.selectedTopic s); done.
Qed.

(** Whatever the user does with the selector, the configuration it
    hands over names a topic of the topic list, asks for 1, 3 or 5
    questions of difficulty easy, medium or hard, and has the two fixed
    question types. *)
Theorem selector_configurations topics toLowerCase s config :
  rtc (TopicSelector.event topics toLowerCase) TopicSelector.mounted s ->
  TopicSelector.handleGenerateQuestions s = Some config ->
  QuestionConfig.topic config ∈ topics
  /\ QuestionConfig.topic config <> []
  /\ QuestionConfig.questionCount config ∈ [1; 3; 5]
  /\ QuestionConfig.difficulty config ∈ [lit "easy"; lit "medium"; lit "hard"]
  /\ QuestionConfig.questionTypes config = [lit "factual"; lit "analytical"].
Proof.
  intros Hs Hconfig.
  assert ((TopicSelector.selectedTopic s <> [] -> TopicSelector.selectedTopic s ∈ topics)
          /\ TopicSelector.questionCount s ∈ [1; 3; 5]
          /\ TopicSelector.difficulty s ∈ [lit "easy"; lit "medium"; lit "hard"]
          /\ TopicSelector.questionTypes s = [lit "factual"; lit "analytical"])
    as (Htopic & Hcount & Hlevel & Htypes).
  { clear Hconfig. apply rtc_nsteps in Hs as [n Hs]. revert s Hs.
    induction n as [|n IH]; intros s Hs.
    - inversion Hs; subst. simpl.
      split; [done|]. split; [set_solver|]. split; [set_solver|done].
    - apply nsteps_inv_r in Hs as (s0 & Hs0 & Hevent).
      destruct (IH s0 Hs0) as (Htopic & Hcount & Hlevel & Htypes).
      destruct Hevent as [s0 value | s0 topic Hlisted | s0 _
                         | s0 value _ _ Hvalue | s0 level _ _ Hlevel'];
        simpl; try done.
      split; [|done]. intros _.
      by apply listed_filtered in Hlisted as [? _]. }
  unfold TopicSelector.handleGenerateQuestions in Hconfig.
  destruct (truthy (TopicSelector.selectedTopic s)) eqn:Hselected; [|done].
  simpl in Hconfig. injection Hconfig as <-. simpl.
  apply truthy_nonempty in Hselected.
  split; [by apply Htopic|]. done.
Qed.

(** ** The further properties at the samples *)


Lemma sent_text_is_trimmed_at_sample :
  inputMessage Sample.page = lit " Hello "
  /\ user_message (request_of Sample.hi Sample.page) = lit "Hello".
Proof.
  split; [reflexivity|].
  destruct (sent_text_is_trimmed Sample.hi Sample.page eq_refl) as (_ & Hu & _).
  rewrite Hu. reflexivity.
Defined.

Lemma rejected_fetch_reported_at_sample :
  Message.content <$> in_flight (handleSendMessage Cases.offline Sample.page)
  = Some (lit "Error: Failed to fetch").
Proof.
  destruct (rejected_fetch_reported Cases.offline Sample.page
              (ErrorObject (lit "Failed to fetch")) eq_refl eq_refl) as (_ & Hm & _).
  rewrite Hm. reflexivity.
Defined.

Lemma missing_body_reported_at_sample :
  ok {| status := 204; body := None |} = true
  /\ Message.content <$> in_flight (handleSendMessage Cases.no_body Sample.page)
     = Some (lit "Error: No response body reader available").
Proof.
  split; [reflexivity|].
  destruct (missing_body_reported Cases.no_body Sample.page _
              eq_refl eq_refl eq_refl eq_refl) as (_ & Hm & _).
  rewrite Hm. reflexivity.
Defined.

Lemma failed_read_replaces_text_at_sample :
  calls (network Cases.broken) (request_of Cases.broken Sample.page)
  = [Chunk (lit "Hi"); Failed (lit "network error")]
  /\ Message.content <$> in_flight (handleSendMessage Cases.broken Sample.page)
     = Some (lit "Error: network error").
Proof.
  destruct (failed_read_replaces_text Cases.broken Sample.page _ _
              (ErrorObject (lit "network error"))
              eq_refl eq_refl eq_refl eq_refl eq_refl) as (Hc & Hm & _).
  split; [rewrite Hc; reflexivity | rewrite Hm; reflexivity].
Defined.

Lemma chunking_does_not_matter_at_sample :
  messages (chatState (handleSendMessage Cases.euro_split Sample.page))
  = messages (chatState (handleSendMessage Cases.euro_whole Sample.page)).
Proof.
  exact (chunking_does_not_matter Cases.euro_split Cases.euro_whole Sample.page _ _ _ _
           eq_refl sample_id_is_fresh eq_refl eq_refl
           eq_refl eq_refl eq_refl eq_refl eq_refl eq_refl eq_refl eq_refl eq_refl).
Defined.

Lemma saved_key_reloads_at_sample :
  exists w',
    saveApiKey Cases.page_with_store = Some w'
    /\ apiKey (reload (H := Reference.platform) (localStorage w')) = lit "sk-test".
Proof.
  destruct (saved_key_reloads (H := Reference.platform) Cases.page_with_store
              SampleStore.empty _ eq_refl eq_refl) as (w' & Hs & _ & _ & Hk & _).
  exists w'. split; [exact Hs | exact Hk].
Defined.


Lemma open_send_keeps_cleared_history_at_sample :
  step (H := Reference.platform) Cases.cleared (Cases.cleared_next (H := Reference.platform))
  /\ awaiting <$> activations (Cases.cleared_next (H := Reference.platform)) = [[Complete]]
  /\ messages (chatState (page (Cases.cleared_next (H := Reference.platform)))) = []
  /\ stored_history (page (Cases.cleared_next (H := Reference.platform))) = None.
Proof.
  assert (step (H := Reference.platform) Cases.cleared
            (Cases.cleared_next (H := Reference.platform))) as Hstep.
  { exact (step_callback Cases.cleared [] Cases.waiting (Chunk (lit "Hi")) [Complete] []
             eq_refl eq_refl). }
  split; [exact Hstep|]. split; [reflexivity|].
  exact (open_send_keeps_cleared_history (H := Reference.platform)
           Cases.cleared _ Hstep eq_refl eq_refl eq_refl).
Defined.

Lemma generateMessageId_injective_at_sample :
  generateMessageId (user_draw Sample.hi) <> generateMessageId (assistant_draw Sample.hi).
Proof.
  intros Hsame.
  destruct (proj1 (generateMessageId_injective _ _) Hsame) as [Hnow _].
  discriminate Hnow.
Defined.

Lemma uploaded_pdf_is_selected_at_sample :
  pdf_id (request_of Sample.hi
            (chat (handlePDFUploaded SampleLibrary.notes SampleLibrary.shelf)))
  = Some (lit "pdf_0011223344ff")
  /\ uploadedPDFs
       (handlePDFDeleted
          (selectedPDFId (chat (handlePDFUploaded SampleLibrary.notes SampleLibrary.shelf)))
          (lit "pdf_0011223344ff")
          (handlePDFUploaded SampleLibrary.notes SampleLibrary.shelf))
     = [SampleLibrary.contract; SampleLibrary.manual].
Proof.
  destruct (uploaded_pdf_is_selected SampleLibrary.notes SampleLibrary.shelf Sample.hi)
    as (_ & _ & _ & Hrequest & _ & _ & Hdelete).
  split.
  - apply Hrequest. discriminate.
  - apply Hdelete. intros Hin.
    apply list_elem_of_fmap in Hin as (pdf & Hid & Hin).
    apply elem_of_cons in Hin as [->|Hin]; [discriminate Hid|].
    apply elem_of_cons in Hin as [->|Hin]; [discriminate Hid|].
    by apply elem_of_nil in Hin.
Defined.

Lemma refused_delete_keeps_pdf_at_sample :
  JsonResponse.ok SampleLibrary.not_found = false
  /\ uploadedPDFs
       (handleDeletePDF (Some (lit "pdf_9f8e7d6c5b4a")) (lit "pdf_9f8e7d6c5b4a")
          (deletePDF SampleLibrary.reading_null (Normal SampleLibrary.not_found))
          SampleLibrary.shelf)
     = [SampleLibrary.contract; SampleLibrary.manual]
  /\ selectedPDFId
       (chat (handleDeletePDF (Some (lit "pdf_9f8e7d6c5b4a")) (lit "pdf_9f8e7d6c5b4a")
                (deletePDF SampleLibrary.reading_null (Normal SampleLibrary.not_found))
                SampleLibrary.shelf))
     = Some (lit "pdf_9f8e7d6c5b4a").
Proof.
  split; [reflexivity|].
  assert (forall response,
            Normal SampleLibrary.not_found = Normal response ->
            JsonResponse.ok response = false) as Hrefused.
  { intros response Hresponse. injection Hresponse as <-. reflexivity. }
  destruct (refused_delete_keeps_pdf SampleLibrary.reading_null
              (Some (lit "pdf_9f8e7d6c5b4a")) (lit "pdf_9f8e7d6c5b4a")
              (Normal SampleLibrary.not_found) SampleLibrary.shelf Hrefused)
    as (Hlist & Hselected & _).
  split; [exact Hlist | exact Hselected].
Defined.

Lemma accepted_delete_removes_pdf_at_sample :
  JsonResponse.ok SampleLibrary.deleted = true
  /\ selectedPDFId
       (chat (handleDeletePDF (Some (lit "pdf_9f8e7d6c5b4a")) (lit "pdf_9f8e7d6c5b4a")
                (deletePDF SampleLibrary.reading_null (Normal SampleLibrary.deleted))
                SampleLibrary.shelf))
     = None.
Proof.
  split; [reflexivity|].
  destruct (accepted_delete_removes_pdf SampleLibrary.reading_null
              (Some (lit "pdf_9f8e7d6c5b4a")) (lit "pdf_9f8e7d6c5b4a")
              SampleLibrary.deleted SampleLibrary.shelf eq_refl)
    as (_ & Hcleared & _).
  exact (Hcleared eq_refl).
Defined.

Lemma error_detail_is_the_message_at_sample :
  deletePDF SampleLibrary.reading_null (Normal SampleLibrary.not_found)
  = Throw (ErrorObject (lit "PDF not found"))
  /\ listPDFs SampleLibrary.reading_null SampleLibrary.no_pdfs
       (Normal SampleLibrary.not_found)
     = Throw (ErrorObject (lit "HTTP error! status: 404")).
Proof.
  assert (lit "PDF not found" <> []) as Htext by discriminate.
  destruct (error_detail_is_the_message SampleLibrary.reading_null
              SampleLibrary.as_UploadedPDF SampleLibrary.no_questions
              SampleLibrary.no_pdfs SampleLibrary.not_found _ (lit "PDF not found")
              eq_refl eq_refl eq_refl Htext)
    as (_ & _ & Hdelete & Hlist).
  split; [exact Hdelete | exact Hlist].
Defined.

Lemma unreadable_error_body_hides_status_at_sample :
  uploadPDF SampleLibrary.reading_null SampleLibrary.as_UploadedPDF
    (Normal SampleLibrary.bad_gateway)
  = Throw (ErrorObject (lit "Unexpected token '<'")).
Proof.
  destruct (unreadable_error_body_hides_status SampleLibrary.reading_null
              SampleLibrary.as_UploadedPDF SampleLibrary.no_questions
              SampleLibrary.bad_gateway _ eq_refl eq_refl) as (Hupload & _).
  exact Hupload.
Defined.

Lemma missing_detail_gives_status_at_sample :
  deletePDF SampleLibrary.reading_null (Normal SampleLibrary.server_error)
  = Throw (ErrorObject (lit "HTTP error! status: 500")).
Proof.
  assert (JObject [(lit "detail", JString [])] <> JNull) as Hvalue by discriminate.
  assert (forall members,
            JObject [(lit "detail", JString [])] = JObject members ->
            ToBoolean (member (lit "detail") members) = false) as Hdetail.
  { intros members Hmembers. injection Hmembers as <-. reflexivity. }
  destruct (missing_detail_gives_status SampleLibrary.reading_null
              SampleLibrary.as_UploadedPDF SampleLibrary.no_questions
              SampleLibrary.server_error _ eq_refl eq_refl Hvalue Hdetail)
    as (_ & _ & Hdelete).
  exact Hdelete.
Defined.


Lemma unsuitable_file_is_not_uploaded_at_sample :
  uploadError (handleFileSelect SampleLibrary.lower (lit "sk-test") (lit "notes.PDF.exe")
                 (Normal SampleLibrary.notes) SampleLibrary.panel)
  = Some (lit "Please select a PDF file").
Proof.
  assert (~ (lit ".pdf" `suffix_of` SampleLibrary.lower (lit "notes.PDF.exe")))
    as Hname.
  { intros Hsuffix. apply endsWith_spec in Hsuffix. discriminate Hsuffix. }
  destruct (unsuitable_file_is_not_uploaded SampleLibrary.lower (lit "sk-test")
              (lit "notes.PDF.exe") (Normal SampleLibrary.notes) SampleLibrary.panel
              (or_intror Hname)) as (_ & _ & Herror).
  exact Herror.
Defined.

Lemma refused_upload_shows_detail_at_sample :
  file_refused SampleLibrary.lower (lit "sk-test") (lit "Notes.PDF") = None
  /\ uploadError
       (handleFileSelect SampleLibrary.lower (lit "sk-test") (lit "Notes.PDF")
          (uploadPDF SampleLibrary.reading_null SampleLibrary.as_UploadedPDF
             (Normal SampleLibrary.not_found))
          SampleLibrary.panel)
     = Some (lit "PDF not found").
Proof.
  split; [reflexivity|].
  assert (lit "PDF not found" <> []) as Htext by discriminate.
  rewrite (refused_upload_shows_detail SampleLibrary.lower SampleLibrary.reading_null
             SampleLibrary.as_UploadedPDF (lit "sk-test") (lit "Notes.PDF")
             SampleLibrary.not_found _ (lit "PDF not found") SampleLibrary.panel
             eq_refl eq_refl eq_refl eq_refl Htext).
  reflexivity.
Defined.

Lemma accepted_upload_lists_the_pdf_at_sample :
  uploadError
    (handleFileSelect SampleLibrary.lower (lit "sk-test") (lit "Notes.PDF")
       (uploadPDF SampleLibrary.reading_null SampleLibrary.as_UploadedPDF
          (Normal SampleLibrary.uploaded))
       SampleLibrary.panel)
  = None
  /\ selectedPDFId
       (chat (interface
          (handleFileSelect SampleLibrary.lower (lit "sk-test") (lit "Notes.PDF")
             (uploadPDF SampleLibrary.reading_null SampleLibrary.as_UploadedPDF
                (Normal SampleLibrary.uploaded))
             SampleLibrary.panel)))
     = Some (lit "pdf_0011223344ff").
Proof.
  destruct (accepted_upload_lists_the_pdf SampleLibrary.lower SampleLibrary.reading_null
              SampleLibrary.as_UploadedPDF (lit "sk-test") (lit "Notes.PDF")
              SampleLibrary.uploaded _ SampleLibrary.panel eq_refl eq_refl eq_refl)
    as (Herror & _ & _ & Hselected).
  split; [exact Herror | rewrite Hselected; reflexivity].
Defined.

Lemma question_generation_settles_at_sample :
  isGeneratingQuestions
    (handleGenerateQuestions SampleLibrary.configuration
       (Throw (ErrorObject (lit "Failed to fetch"))) SampleLibrary.quizzing)
  = false
  /\ generatedQuestions
       (handleGenerateQuestions SampleLibrary.configuration
          (Throw (ErrorObject (lit "Failed to fetch"))) SampleLibrary.quizzing)
     = Some SampleLibrary.quiz.
Proof.
  assert (trim (apiKey (chat SampleLibrary.quizzing)) <> []) as Hkey by discriminate.
  destruct (question_generation_settles SampleLibrary.configuration
              (Throw (ErrorObject (lit "Failed to fetch"))) SampleLibrary.quizzing Hkey)
    as (Hflag & _ & _ & _ & _ & _ & Hshown & _).
  split; [exact Hflag | exact Hshown].
Defined.

Lemma question_generation_needs_key_at_sample :
  question_requests
    (handleGenerateQuestions SampleLibrary.configuration
       (Normal SampleLibrary.quiz) SampleLibrary.keyless)
  = [].
Proof.
  destruct (question_generation_needs_key SampleLibrary.configuration
              (Normal SampleLibrary.quiz) SampleLibrary.keyless eq_refl)
    as (Hrequests & _).
  exact Hrequests.
Defined.

Lemma regeneration_repeats_the_request_at_sample :
  exists request,
    last (question_requests
            (handleRegenerateQuestions (Normal SampleLibrary.quiz) SampleLibrary.quizzing))
    = Some request
    /\ QuestionGenerationRequest.topic request = lit "Burglary"
    /\ QuestionGenerationRequest.question_count request = Some 1.
Proof.
  assert (trim (apiKey (chat SampleLibrary.quizzing)) <> []) as Hkey by discriminate.
  destruct (regeneration_repeats_the_request (Normal SampleLibrary.quiz)
              SampleLibrary.quiz SampleLibrary.quizzing eq_refl Hkey)
    as (request & Hlast & Htopic & Hcount & _).
  exists request. split; [exact Hlast|]. split; [exact Htopic | exact Hcount].
Defined.

Lemma sample_answer_given :
  rtc QuestionDisplay.answering QuestionDisplay.mounted SampleLibrary.answered.
Proof.
  apply rtc_once. exists [SampleLibrary.burglary].
  apply (QuestionDisplay.click_choice _ _ 0%nat 1%nat SampleLibrary.burglary).
  - reflexivity.
  - simpl. lia.
  - reflexivity.
Qed.


Lemma unanswered_question_tells_nothing_at_sample :
  QuestionDisplay.disabled 1 SampleLibrary.answered = false
  /\ QuestionDisplay.style_of SampleLibrary.burglary 1 2 SampleLibrary.answered
     = QuestionDisplay.Open.
Proof.
  destruct (unanswered_question_tells_nothing SampleLibrary.answered 1%nat
              sample_answer_given eq_refl) as (Henabled & Hstyle).
  split; [exact Henabled | apply Hstyle].
Defined.

Lemma answered_question_shows_result_at_sample :
  QuestionDisplay.style_of SampleLibrary.burglary 0 1 SampleLibrary.answered
  = QuestionDisplay.Red
  /\ QuestionDisplay.style_of SampleLibrary.burglary 0 2 SampleLibrary.answered
     = QuestionDisplay.Green
  /\ QuestionDisplay.buttonClass SampleLibrary.burglary 1 2 SampleLibrary.answered
     = QuestionDisplay.buttonClass SampleLibrary.burglary 1 2 QuestionDisplay.mounted.
Proof.
  destruct (answered_question_shows_result SampleLibrary.burglary 0%nat 1%nat
              QuestionDisplay.mounted) as (_ & Hstyle & Hothers).
  split; [rewrite Hstyle; reflexivity|].
  split; [rewrite Hstyle; reflexivity|].
  apply Hothers. discriminate.
Defined.

Lemma listed_topics_match_at_sample :
  TopicSelector.listed SampleLibrary.topics SampleLibrary.lower SampleLibrary.searching
  = [lit "Firearm Offences"]
  /\ exists before after,
       SampleLibrary.lower (lit "Firearm Offences") = before ++ lit "fire" ++ after.
Proof.
  split; [reflexivity|].
  destruct (listed_topics_match SampleLibrary.topics SampleLibrary.lower
              SampleLibrary.searching) as (_ & _ & Hmatch & _).
  apply (Hmatch (lit "Firearm Offences")).
  constructor.
Defined.

Lemma sample_topic_chosen :
  rtc (TopicSelector.event SampleLibrary.topics SampleLibrary.lower)
    TopicSelector.mounted SampleLibrary.chosen.
Proof.
  eapply rtc_l; [apply (TopicSelector.event_search _ _ _ (lit "fire"))|].
  eapply rtc_l.
  { apply (TopicSelector.event_topic _ _ _ (lit "Firearm Offences")).
    constructor. }
  apply rtc_once.
  apply (TopicSelector.event_count _ _ _ 5); [reflexivity | reflexivity |].
  set_solver.
Qed.

Lemma selector_configurations_at_sample :
  exists config,
    TopicSelector.handleGenerateQuestions SampleLibrary.chosen = Some config
    /\ QuestionConfig.topic config ∈ SampleLibrary.topics
    /\ QuestionConfig.questionCount config ∈ [1; 3; 5].
Proof.
  eexists. split; [reflexivity|].
  destruct (selector_configurations SampleLibrary.topics SampleLibrary.lower
              SampleLibrary.chosen _ sample_topic_chosen eq_refl)
    as (Htopic & _ & Hcount & _).
  split; [exact Htopic | exact Hcount].
Defined.
